(** * MultiCore lab exercises: matrix fill, matrix addition and matrix
    multiplication on the host and on the device, the result checker, the
    printers and the programs.

    The development embeds
    - [Lab6/My Answers/Step2  - Table.cu]: [matrixMulCUDA], [constantInit],
      [printMat], [checkCorrectness], [matrixMultiply], [serialMultiply] and
      [main];
    - [Lab5/Lab5/Codes and docs/MattAdd.cu]: [addKernel], [fillMat],
      [printMat], [addWithCuda] and [main];
    - the sequential file of Lab 5: [fillMat], [addMat], [printMat] and
      [main] ([fillMat] and [printMat] are the same in both files).

    Conventions.
    - [int] and [unsigned int] values are integers of [Z]; conversions to
      [unsigned int] are written out with [to_uint], conversions to [int]
      with [to_int].
    - [float] is IEEE binary32, modelled by the executable specification of
      the standard library instantiated at precision 24 and maximal exponent
      128.
    - A buffer is a list; an access outside the buffer is undefined in C++
      and is a fault ([None]) here.  Index expressions of type [int] are
      computed in [Z]: an overflowing index would be outside of every buffer.
    - The CUDA runtime and the host allocator are the environment: the
      values they return are taken from an [env], the calls made are logged
      in a trace. *)

From Stdlib Require Import ZArith Lia Bool String.
From Stdlib Require Import Floats.SpecFloat.
From stdpp Require Import base option list gmap pretty.

Local Open Scope Z_scope.

(** ** Machine integers *)

Definition to_uint (z : Z) : Z := z mod 2 ^ 32.
Definition to_int (z : Z) : Z := (z + 2 ^ 31) mod 2 ^ 32 - 2 ^ 31.
Definition INT_MAX : Z := 2 ^ 31 - 1.

(** [sizeof(float)] and [sizeof(int)] *)
Definition sizeof_float : Z := 4.
Definition sizeof_int : Z := 4.

(** ** Single-precision floats *)

Definition float32 : Type := spec_float.

Definition f32_zero : float32 := S754_zero false.
Definition f32_add : float32 -> float32 -> float32 := SFadd 24 128.
Definition f32_mul : float32 -> float32 -> float32 := SFmul 24 128.
Definition f32_div : float32 -> float32 -> float32 := SFdiv 24 128.
(** [x != y] on floats: the negation of IEEE equality, true when either
    operand is a NaN. *)
Definition f32_neb (x y : float32) : bool := negb (SFeqb x y).
(** conversion [(float)z] of an integer *)
Definition f32_of_int (z : Z) : float32 := binary_normalize 24 128 z 0 false.
(** the decimal literal [num/den] rounded to the nearest float *)
Definition f32_lit (num den : Z) : float32 :=
  f32_div (f32_of_int num) (f32_of_int den).

(** [const float valA = 1.0f; const float valB = 0.01f;] *)
Definition valA : float32 := f32_lit 1 1.
Definition valB : float32 := f32_lit 1 100.

(** ** Buffers and [for] loops *)

Section Buffers.
Context {T : Type}.

(** [v[i]] as an rvalue *)
Definition buf_get (v : list T) (i : Z) : option T :=
  if bool_decide (0 <= i) then v !! Z.to_nat i else None.

(** [v[i] = x] *)
Definition buf_set (v : list T) (i : Z) (x : T) : option (list T) :=
  if bool_decide (0 <= i < Z.of_nat (length v))
  then Some (<[Z.to_nat i := x]> v) else None.
End Buffers.

Section Loops.
Context {St : Type}.

(** [for (int i = lo; i < hi; ++i) body], the state threaded through *)
Fixpoint for_loop (count : nat) (i : Z) (body : Z -> St -> option St) (s : St)
  : option St :=
  match count with
  | O => Some s
  | S count' => s' ← body i s; for_loop count' (i + 1) body s'
  end.

Definition for_range (lo hi : Z) (body : Z -> St -> option St) (s : St)
  : option St :=
  for_loop (Z.to_nat (hi - lo)) lo body s.
End Loops.

(** ** Lab 6: data initializer, kernel, sequential loops, checker *)

(** [void constantInit(float* data, int size, float val)] *)
Definition constantInit (data : list float32) (size : Z) (val : float32)
  : option (list float32) :=
  for_range 0 size (fun i data => buf_set data i val) data.

Record dim3 : Type := Dim3 { dx : Z; dy : Z; dz : Z }.

(** [__global__ void matrixMulCUDA(float* C, float* A, float* B, int n)]
    as run by the thread [threadIdx] of the block [blockIdx].  The
    coordinates are unsigned, [row] and [col] are [int].  [C_val += A_elem *
    B_elem] is a product and a sum, each rounded: the statement as written.
    A compiler may fuse the two into one operation that rounds once; with
    the fill 1.0 of the source every product is exact and both give the
    same, so what is proved below about the values that the kernel computes
    is stated for [A] filled with 1.0. *)
Definition matrixMulCUDA (blockIdx blockDim threadIdx : dim3)
    (C A B : list float32) (n : Z) : option (list float32) :=
  let row := to_int (to_uint (dy blockIdx * dy blockDim + dy threadIdx)) in
  let col := to_int (to_uint (dx blockIdx * dx blockDim + dx threadIdx)) in
  C_val ← for_range 0 n (fun k C_val =>
             A_elem ← buf_get A (row * n + k);
             B_elem ← buf_get B (k * n + col);
             Some (f32_add C_val (f32_mul A_elem B_elem))) f32_zero;
  buf_set C (row * n + col) C_val.

(** The threads of a launch [<<<grid, threads>>>]: every block of the grid,
    every thread of the block. *)
Definition launch_threads (grid threads : dim3) : list (dim3 * dim3) :=
  bz ← seqZ 0 (dz grid); by_ ← seqZ 0 (dy grid); bx ← seqZ 0 (dx grid);
  tz ← seqZ 0 (dz threads); ty ← seqZ 0 (dy threads); tx ← seqZ 0 (dx threads);
  [(Dim3 bx by_ bz, Dim3 tx ty tz)].

(** A launch runs the kernel once per thread.  The threads of
    [matrixMulCUDA] read [A] and [B] only and write one cell of [C] each, so
    they are run here one after the other. *)
Definition launch {M : Type}
    (kernel : dim3 -> dim3 -> dim3 -> M -> option M)
    (grid threads : dim3) (m : M) : option M :=
  foldl (fun om bt => m ← om; kernel (fst bt) threads (snd bt) m)
        (Some m) (launch_threads grid threads).

(** The three nested loops of [serialMultiply]. *)
Definition serial_loops (h_A h_B h_C : list float32) (n : Z)
  : option (list float32) :=
  for_range 0 n (fun i h_C =>
    for_range 0 n (fun j h_C =>
      sum ← for_range 0 n (fun k sum =>
               a ← buf_get h_A (i * n + k);
               b ← buf_get h_B (k * n + j);
               Some (f32_add sum (f32_mul a b))) f32_zero;
      buf_set h_C (i * n + j) sum) h_C) h_C.

(** [void checkCorrectness(float* v, int matSizeX, int matSizeY)].
    The result is what is printed, with the indices of [v] that were read,
    in the order of the reads.  [true] in the result of a loop says that the
    function has returned from inside the loop. *)
Definition msg_wrong : string := "Something has gone wrong!".
Definition msg_right : string := "All is right with the world.".

Fixpoint check_cols (v : list float32) (value : float32) (matSizeY i : Z)
    (count : nat) (j : Z) (log : list Z) : option (bool * list Z) :=
  match count with
  | O => Some (false, log)
  | S count' =>
      x ← buf_get v (i * matSizeY + j);
      let log' := log ++ [i * matSizeY + j] in
      if f32_neb x value then Some (true, log')
      else check_cols v value matSizeY i count' (j + 1) log'
  end.

Fixpoint check_rows (v : list float32) (value : float32) (matSizeY : Z)
    (count : nat) (i : Z) (log : list Z) : option (bool * list Z) :=
  match count with
  | O => Some (false, log)
  | S count' =>
      '(returned, log') ← check_cols v value matSizeY i (Z.to_nat matSizeY) 0 log;
      if (returned : bool) then Some (true, log')
      else check_rows v value matSizeY count' (i + 1) log'
  end.

Definition checkCorrectness (v : list float32) (matSizeX matSizeY : Z)
  : option (string * list Z) :=
  value ← buf_get v 0;
  '(returned, log) ← check_rows v value matSizeY (Z.to_nat matSizeX) 0 [0];
  Some (if (returned : bool) then msg_wrong else msg_right, log).

(** ** Lab 5: the fill routine with its persistent counter *)

(** [void fillMat(int* v, int matSizeX, int matSizeY)].  The function-local
    [static int L] outlives the call: it is passed in and handed back. *)
Definition fillMat (L : Z) (v : list Z) (matSizeX matSizeY : Z)
  : option (Z * list Z) :=
  for_range 0 matSizeX (fun i st =>
    for_range 0 matSizeY (fun j '(L, v) =>
      v' ← buf_set v (i * matSizeY + j) L;
      Some (to_int (L + 1), v')) st) (L, v).

(** The first statements of both [main]s: [a] and [b] are allocated
    (their first contents are whatever the allocator gives) and filled by
    two calls in a row; the counter starts at 0. *)
Definition main_fill (a0 b0 : list Z) : option (list Z * list Z) :=
  let matSizeX := 4 in
  let matSizeY := 4 in
  '(L, a) ← fillMat 0 a0 matSizeX matSizeY;
  '(L, b) ← fillMat L b0 matSizeX matSizeY;
  Some (a, b).

(** ** The environment: CUDA runtime, host allocator, clock *)

Definition cudaError_t : Type := Z.
Definition cudaSuccess : cudaError_t := 0.
Definition EXIT_SUCCESS : Z := 0.
Definition EXIT_FAILURE : Z := 1.

(** [cudaEvent_t start, stop] *)
Inductive cudaEvent : Type := ev_start | ev_stop.

(** What the program asks of its environment, as logged in the trace.
    Device pointers are numbers, 0 is the null pointer. *)
Inductive call : Type :=
| Malloc (bytes : Z)
| Free
| CudaSetDevice (device : Z)
| CudaMalloc (bytes : Z)
| CudaMemcpyHostToDevice (dst : nat) (bytes : Z)
| CudaMemcpyDeviceToHost (src : nat) (bytes : Z)
| CudaEventCreate (e : cudaEvent)
| CudaEventRecord (e : cudaEvent)
| KernelLaunch (grid threads : dim3)
| CudaGetLastError
| CudaEventSynchronize (e : cudaEvent)
| CudaDeviceSynchronize
| CudaEventElapsedTime (e1 e2 : cudaEvent)
| CudaFree (ptr : nat)
| SteadyClockNow
| Scanf (value : Z)
| Output (msg : string).

Inductive outcome (A : Type) : Type :=
| Ret (a : A)            (* the statement completes *)
| Exit (status : Z)      (* [exit(status)] *)
| Fault.                 (* undefined behaviour: access outside a buffer *)
Arguments Ret {A} a.
Arguments Exit {A} status.
Arguments Fault {A}.

Section Runtime.
(** [T] is the type of the cells of the buffers: [float] in Lab 6, [int]
    in Lab 5; both are four bytes wide. *)
Context {T : Type}.

Record env : Type := Env {
  (** the [cudaError_t] of the k-th call of the CUDA runtime *)
  cuda_result : nat -> cudaError_t;
  (** whether the k-th [malloc] returns [NULL] *)
  malloc_null : nat -> bool;
  (** the content of fresh host memory (k-th [malloc], i-th cell) *)
  host_garbage : nat -> nat -> T;
  (** the content of fresh device memory (k-th runtime call, i-th cell) *)
  device_garbage : nat -> nat -> T;
  (** the milliseconds [cudaEventElapsedTime] reports at the k-th call *)
  event_msec : nat -> float32;
  (** the k-th reading of the steady clock, in milliseconds *)
  steady_clock : nat -> Z
}.

Record world : Type := World {
  calls : nat;                     (* runtime calls made so far *)
  mallocs : nat;                   (* host allocations made so far *)
  clock_reads : nat;               (* clock readings made so far *)
  last_error : cudaError_t;        (* what [cudaGetLastError] will return *)
  dmem : gmap nat (list T);        (* the device buffers not yet released *)
  trace : list call                (* the calls made so far, oldest first *)
}.

Definition M (A : Type) : Type := world -> outcome A * world.

Definition ret {A} (a : A) : M A := fun w => (Ret a, w).
Definition bind {A B} (m : M A) (k : A -> M B) : M B :=
  fun w => match m w with
           | (Ret a, w') => k a w'
           | (Exit s, w') => (Exit s, w')
           | (Fault, w') => (Fault, w')
           end.
Definition exit {A} (status : Z) : M A := fun w => (Exit status, w).
Definition fault {A} : M A := fun w => (Fault, w).
Definition lift {A} (o : option A) : M A :=
  match o with Some a => ret a | None => fault end.

Definition log (c : call) (w : world) : world :=
  World (calls w) (mallocs w) (clock_reads w) (last_error w) (dmem w)
        (trace w ++ [c]).
Definition set_dmem (m : gmap nat (list T)) (w : world) : world :=
  World (calls w) (mallocs w) (clock_reads w) (last_error w) m (trace w).

Definition emit (c : call) : M unit := fun w => (Ret tt, log c w).
Definition printf (msg : string) : M unit := emit (Output msg).

Definition cells_of (bytes : Z) : nat := Z.to_nat (bytes / 4).

Variable E : env.

(** [malloc(bytes)]: [None] is [NULL]. *)
Definition malloc (bytes : Z) : M (option (list T)) := fun w =>
  let k := mallocs w in
  let w' := World (calls w) (S k) (clock_reads w) (last_error w)
                  (dmem w) (trace w ++ [Malloc bytes]) in
  if malloc_null E k then (Ret None, w')
  else (Ret (Some (host_garbage E k <$> seq 0 (cells_of bytes))), w').

(** A host pointer used without a test: through [NULL] no cell can be
    reached. *)
Definition deref (p : option (list T)) : list T := default [] p.

Definition free : M unit := emit Free.

(** One call of the runtime: logged, counted, answered by the
    environment. *)
Definition cuda_call (c : call) : M cudaError_t := fun w =>
  (Ret (cuda_result E (calls w)),
   World (S (calls w)) (mallocs w) (clock_reads w) (last_error w)
         (dmem w) (trace w ++ [c])).

(** A device pointer that is not live and not null. *)
Definition new_handle (m : gmap nat (list T)) : nat :=
  fresh ({[0%nat]} ∪ dom m).

(** [cudaMalloc(&ptr, bytes)]: on success [ptr] is a buffer that was not
    live; otherwise [ptr] keeps its value. *)
Definition cudaMalloc (ptr : nat) (bytes : Z) : M (cudaError_t * nat) :=
  fun w =>
    let k := calls w in
    match cuda_call (CudaMalloc bytes) w with
    | (Ret err, w') =>
        if bool_decide (err = cudaSuccess) then
          let h := new_handle (dmem w') in
          (Ret (err, h),
           set_dmem (<[h := device_garbage E k <$> seq 0 (cells_of bytes)]>
                       (dmem w')) w')
        else (Ret (err, ptr), w')
    | (Exit s, w') => (Exit s, w')
    | (Fault, w') => (Fault, w')
    end.

(** [cudaFree(ptr)]: the buffer is released; nothing happens for the null
    pointer or a pointer that is not live. *)
Definition cudaFree (ptr : nat) : M cudaError_t :=
  bind (cuda_call (CudaFree ptr)) (fun err w =>
    (Ret err,
     set_dmem (if bool_decide (ptr = 0%nat) then dmem w
               else delete ptr (dmem w)) w)).

(** The first [bytes] of [src] over the first [bytes] of [dst]. *)
Definition copy_cells (dst src : list T) (bytes : Z) : option (list T) :=
  let k := cells_of bytes in
  if bool_decide (k <= length src)%nat && bool_decide (k <= length dst)%nat
  then Some (take k src ++ drop k dst) else None.

(** [cudaMemcpy(dst, src, bytes, cudaMemcpyHostToDevice)]: a successful
    copy is a complete transfer. *)
Definition cudaMemcpyHtoD (dst : nat) (src : list T) (bytes : Z)
  : M cudaError_t :=
  bind (cuda_call (CudaMemcpyHostToDevice dst bytes)) (fun err w =>
    if bool_decide (err = cudaSuccess) then
      match old ← dmem w !! dst; copy_cells old src bytes with
      | Some new => (Ret err, set_dmem (<[dst := new]> (dmem w)) w)
      | None => (Fault, w)
      end
    else (Ret err, w)).

(** [cudaMemcpy(dst, src, bytes, cudaMemcpyDeviceToHost)]: the host
    buffer after the call is returned with the error. *)
Definition cudaMemcpyDtoH (dst : list T) (src : nat) (bytes : Z)
  : M (cudaError_t * list T) :=
  bind (cuda_call (CudaMemcpyDeviceToHost src bytes)) (fun err w =>
    if bool_decide (err = cudaSuccess) then
      match dev ← dmem w !! src; copy_cells dst dev bytes with
      | Some new => (Ret (err, new), w)
      | None => (Fault, w)
      end
    else (Ret (err, dst), w)).

(** [kernel<<<grid, threads>>>(...)]: the runtime accepts the launch or
    not; an accepted launch runs every thread.  The error is kept for
    [cudaGetLastError]. *)
Definition kernel_launch
    (kernel : dim3 -> dim3 -> dim3 -> gmap nat (list T) ->
              option (gmap nat (list T)))
    (grid threads : dim3) : M unit :=
  bind (cuda_call (KernelLaunch grid threads)) (fun err w =>
    let w' := World (calls w) (mallocs w) (clock_reads w) err (dmem w)
                    (trace w) in
    if bool_decide (err = cudaSuccess) then
      match launch kernel grid threads (dmem w) with
      | Some m => (Ret tt, set_dmem m w')
      | None => (Fault, w')
      end
    else (Ret tt, w')).

Definition cudaGetLastError : M cudaError_t := fun w =>
  (Ret (last_error w),
   World (calls w) (mallocs w) (clock_reads w) cudaSuccess (dmem w)
         (trace w ++ [CudaGetLastError])).

Definition cudaEventElapsedTime (e1 e2 : cudaEvent)
  : M (cudaError_t * float32) := fun w =>
  let k := calls w in
  match cuda_call (CudaEventElapsedTime e1 e2) w with
  | (Ret err, w') => (Ret (err, event_msec E k), w')
  | (Exit s, w') => (Exit s, w')
  | (Fault, w') => (Fault, w')
  end.

(** [chrono::steady_clock::now()] *)
Definition steady_clock_now : M Z := fun w =>
  (Ret (steady_clock E (clock_reads w)),
   World (calls w) (mallocs w) (S (clock_reads w)) (last_error w)
         (dmem w) (trace w ++ [SteadyClockNow])).

(** [if (error != cudaSuccess) { printf(msg); exit(EXIT_FAILURE); }] *)
Definition exit_on_error (error : cudaError_t) (msg : string) : M unit :=
  if bool_decide (error ≠ cudaSuccess)
  then bind (printf msg) (fun _ => exit EXIT_FAILURE)
  else ret tt.
End Runtime.

Arguments env : clear implicits.
Arguments world : clear implicits.
Arguments M : clear implicits.

#[global] Instance M_ret {T} : MRet (M T) := @ret T.
#[global] Instance M_bind {T} : MBind (M T) := fun A B k m => bind m k.

(** ** Lab 6: the accelerated multiplier, the sequential multiplier, the
    driver *)

Module Lab6.
Abbreviation env := (env float32).
Abbreviation world := (world float32).
Abbreviation M := (M float32).

(** The kernel on device memory: [matrixMulCUDA<<<...>>>(d_C, d_A, d_B, n)]. *)
Definition matrixMulCUDA_on (d_C d_A d_B : nat) (n : Z)
    (blockIdx blockDim threadIdx : dim3) (m : gmap nat (list float32))
  : option (gmap nat (list float32)) :=
  C ← m !! d_C; A ← m !! d_A; B ← m !! d_B;
  C' ← matrixMulCUDA blockIdx blockDim threadIdx C A B n;
  Some (<[d_C := C']> m).

Section WithEnv.
Variable E : env.

(** [float matrixMultiply(int argc, char** argv, int block_size,
    int grid_size, int n)].  The function returns [msecTotal]; the model
    returns with it the content of [h_C] as given to
    [checkCorrectness]. *)
Definition matrixMultiply (block_size grid_size n : Z)
  : M (float32 * list float32) :=
  let size_A := to_uint (n * n) in
  let mem_size_A := to_uint (sizeof_float * size_A) in
  h_A ← malloc E mem_size_A;
  let size_B := to_uint (n * n) in
  let mem_size_B := to_uint (sizeof_float * size_B) in
  h_B ← malloc E mem_size_B;
  h_A ← lift (constantInit (deref h_A) (to_int size_A) valA);
  h_B ← lift (constantInit (deref h_B) (to_int size_B) valB);
  let mem_size_C := to_uint (n * n * sizeof_float) in
  h_C ← malloc E mem_size_C;
  match h_C with
  | None =>
      printf "Failed to allocate host matrix C!";; exit EXIT_FAILURE
  | Some h_C =>
      '(error, d_A) ← cudaMalloc E 0 mem_size_A;
      exit_on_error error "cudaMalloc d_A returned error %s (code %d), line(%d)";;
      '(error, d_B) ← cudaMalloc E 0 mem_size_B;
      exit_on_error error "cudaMalloc d_B returned error %s (code %d), line(%d)";;
      '(error, d_C) ← cudaMalloc E 0 mem_size_C;
      exit_on_error error "cudaMalloc d_C returned error %s (code %d), line(%d)";;
      error ← cudaMemcpyHtoD E d_A h_A mem_size_A;
      exit_on_error error "cudaMemcpy (d_A,h_A) returned error %s (code %d), line(%d)";;
      error ← cudaMemcpyHtoD E d_B h_B mem_size_B;
      exit_on_error error "cudaMemcpy (d_B,h_B) returned error %s (code %d), line(%d)";;
      let threads := Dim3 (to_uint block_size) (to_uint block_size) 1 in
      let grid := Dim3 (to_uint grid_size) (to_uint grid_size) 1 in
      printf "Computing result using CUDA Kernel...";;
      error ← cuda_call E (CudaEventCreate ev_start);
      exit_on_error error "Failed to create start event (error code %s)!";;
      error ← cuda_call E (CudaEventCreate ev_stop);
      exit_on_error error "Failed to create stop event (error code %s)!";;
      error ← cuda_call E (CudaEventRecord ev_start);
      exit_on_error error "Failed to record start event (error code %s)!";;
      kernel_launch E (matrixMulCUDA_on d_C d_A d_B n) grid threads;;
      error ← cudaGetLastError;
      exit_on_error error "Failed to launch kernel!";;
      error ← cuda_call E (CudaEventRecord ev_stop);
      exit_on_error error "Failed to record stop event (error code %s)!";;
      error ← cuda_call E (CudaEventSynchronize ev_stop);
      exit_on_error error "Failed to synchronize on the stop event (error code %s)!";;
      '(error, msecTotal) ← cudaEventElapsedTime E ev_start ev_stop;
      printf "CUDA elapsed time in msec = %f";;
      exit_on_error error "Failed to get time elapsed between events (error code %s)!";;
      '(error, h_C) ← cudaMemcpyDtoH E h_C d_C mem_size_C;
      exit_on_error error "cudaMemcpy (h_C,d_C) returned error %s (code %d), line(%d)";;
      '(msg, _) ← lift (checkCorrectness h_C n n);
      printf msg;;
      free;; free;; free;;
      cudaFree E d_A;; cudaFree E d_B;; cudaFree E d_C;;
      mret (msecTotal, h_C)
  end.

(** [float serialMultiply(int n)], with the content of [h_C] as given to
    [checkCorrectness]. *)
Definition serialMultiply (n : Z) : M (float32 * list float32) :=
  let size_A := to_uint (n * n) in
  let mem_size_A := to_uint (sizeof_float * size_A) in
  h_A ← malloc E mem_size_A;
  let size_B := to_uint (n * n) in
  let mem_size_B := to_uint (sizeof_float * size_B) in
  h_B ← malloc E mem_size_B;
  h_A ← lift (constantInit (deref h_A) (to_int size_A) valA);
  h_B ← lift (constantInit (deref h_B) (to_int size_B) valB);
  let mem_size_C := to_uint (n * n * sizeof_float) in
  h_C ← malloc E mem_size_C;
  begin ← steady_clock_now E;
  h_C ← lift (serial_loops h_A h_B (deref h_C) n);
  end_ ← steady_clock_now E;
  let elapsed_time := end_ - begin in
  printf "Serial time difference = ms";;
  '(msg, _) ← lift (checkCorrectness h_C n n);
  printf msg;;
  mret (f32_of_int elapsed_time, h_C).

(** The loop of [main]:
    [while (block_size > 0) { scanf; scanf; ...; matrixMultiply;
    serialMultiply; } exit(0);].  [inputs] are the pairs the operator
    will enter; when they are used up the program waits at the prompt,
    which is the result [Ret]. *)
Definition to_size_t (z : Z) : Z := z mod 2 ^ 64.

Fixpoint main_loop (inputs : list (Z * Z)) (block_size : Z) : M unit :=
  if bool_decide (block_size > 0) then
    printf "[-] Block Size = ";;
    match inputs with
    | [] => mret tt
    | (block_size, grid_size) :: inputs =>
        emit (Scanf block_size);;
        printf "[-] Grid Size = ";;
        emit (Scanf grid_size);;
        printf "Tile Width: 32";;
        let n := to_size_t (to_int (block_size * grid_size)) in
        printf "MatrixA(%d,%d), MatrixB(%d,%d)";;
        _ ← matrixMultiply block_size grid_size (to_int n);
        _ ← serialMultiply (to_int n);
        printf "Speed up: ";;
        main_loop inputs block_size
    end
  else exit 0.

(** [int block_size = 1, grid_size; while ...] *)
Definition main_driver (inputs : list (Z * Z)) : M unit :=
  main_loop inputs 1.
End WithEnv.
End Lab6.

(** ** Lab 5: matrix addition on the device *)

Module Lab5.
Abbreviation env := (env Z).
Abbreviation world := (world Z).
Abbreviation M := (M Z).

(** [__global__ void addKernel(int* c, const int* a, const int* b)] on
    device memory. *)
Definition addKernel (c a b : nat) (blockIdx blockDim threadIdx : dim3)
    (m : gmap nat (list Z)) : option (gmap nat (list Z)) :=
  let i := to_int (dx threadIdx) in
  let j := to_int (dy threadIdx) in
  va ← m !! a; vb ← m !! b; vc ← m !! c;
  x ← buf_get va (i * dy blockDim + j);
  y ← buf_get vb (i * dy blockDim + j);
  vc' ← buf_set vc (i * dy blockDim + j) (to_int (x + y));
  Some (<[c := vc']> m).

Section WithEnv.
Variable E : env.

(** The statements of [addWithCuda] before the label [Error]: the result
    is the value of [cudaStatus], [dev_a], [dev_b], [dev_c] and of the
    buffer [c] when the label is reached, by [goto] or by falling
    through. *)
Definition addWithCuda_body (c a b : list Z) (matSizeX matSizeY : Z)
  : M (cudaError_t * nat * nat * nat * list Z) :=
  let dev_a := 0%nat in
  let dev_b := 0%nat in
  let dev_c := 0%nat in
  let bytes := to_uint (matSizeX * matSizeY) * sizeof_int in
  cudaStatus ← cuda_call E (CudaSetDevice 0);
  if bool_decide (cudaStatus ≠ cudaSuccess) then
    printf "cudaSetDevice failed!  Do you have a CUDA-capable GPU installed?";;
    mret (cudaStatus, dev_a, dev_b, dev_c, c)
  else
  '(cudaStatus, dev_c) ← cudaMalloc E dev_c bytes;
  if bool_decide (cudaStatus ≠ cudaSuccess) then
    printf "cudaMalloc failed!";; mret (cudaStatus, dev_a, dev_b, dev_c, c)
  else
  '(cudaStatus, dev_a) ← cudaMalloc E dev_a bytes;
  if bool_decide (cudaStatus ≠ cudaSuccess) then
    printf "cudaMalloc failed!";; mret (cudaStatus, dev_a, dev_b, dev_c, c)
  else
  '(cudaStatus, dev_b) ← cudaMalloc E dev_b bytes;
  if bool_decide (cudaStatus ≠ cudaSuccess) then
    printf "cudaMalloc failed!";; mret (cudaStatus, dev_a, dev_b, dev_c, c)
  else
  cudaStatus ← cudaMemcpyHtoD E dev_a a bytes;
  if bool_decide (cudaStatus ≠ cudaSuccess) then
    printf "cudaMemcpy failed!";; mret (cudaStatus, dev_a, dev_b, dev_c, c)
  else
  cudaStatus ← cudaMemcpyHtoD E dev_b b bytes;
  if bool_decide (cudaStatus ≠ cudaSuccess) then
    printf "cudaMemcpy failed!";; mret (cudaStatus, dev_a, dev_b, dev_c, c)
  else
  let block_size := Dim3 (to_uint matSizeX) (to_uint matSizeY) 1 in
  kernel_launch E (addKernel dev_c dev_a dev_b) (Dim3 1 1 1) block_size;;
  cudaStatus ← cudaGetLastError;
  if bool_decide (cudaStatus ≠ cudaSuccess) then
    printf "addKernel launch failed: %s";;
    mret (cudaStatus, dev_a, dev_b, dev_c, c)
  else
  cudaStatus ← cuda_call E CudaDeviceSynchronize;
  if bool_decide (cudaStatus ≠ cudaSuccess) then
    printf "cudaDeviceSynchronize returned error code %d after launching addKernel!";;
    mret (cudaStatus, dev_a, dev_b, dev_c, c)
  else
  '(cudaStatus, c) ← cudaMemcpyDtoH E c dev_c bytes;
  if bool_decide (cudaStatus ≠ cudaSuccess) then
    printf "cudaMemcpy failed!";; mret (cudaStatus, dev_a, dev_b, dev_c, c)
  else mret (cudaStatus, dev_a, dev_b, dev_c, c).

(** [cudaError_t addWithCuda(int* c, const int* a, const int* b,
    unsigned int matSizeX, unsigned int matSizeY)], with the buffer [c]
    after the call. *)
Definition addWithCuda (c a b : list Z) (matSizeX matSizeY : Z)
  : M (cudaError_t * list Z) :=
  '(cudaStatus, dev_a, dev_b, dev_c, c) ←
    addWithCuda_body c a b matSizeX matSizeY;
  (* Error: *)
  cudaFree E dev_c;; cudaFree E dev_a;; cudaFree E dev_b;;
  mret (cudaStatus, c).
End WithEnv.
End Lab5.

(** ** Definitions used to state the properties *)

(** [count] additions of [x] to [s], from the left: the value of
    [s += x] repeated [count] times. *)
Fixpoint f32_sum_n (count : nat) (x s : float32) : float32 :=
  match count with
  | O => s
  | S count' => f32_sum_n count' x (f32_add s x)
  end.

(** The repeated sum the multipliers compute for constant inputs. *)
Definition dot_const (n : Z) (a b : float32) : float32 :=
  f32_sum_n (Z.to_nat n) (f32_mul a b) f32_zero.

(** The closed form of the specification: [valA * valB * n] in single
    precision. *)
Definition expected_value (a b : float32) (n : Z) : float32 :=
  f32_mul (f32_mul a b) (f32_of_int n).

(** A scan of the cells [k], [k+1], ... of [v] in this order, which stops
    at the first cell that differs from [value]: row-major order when the
    rows are stored one after the other. *)
Fixpoint scan (v : list float32) (value : float32) (count : nat) (k : Z)
    (log : list Z) : option (bool * list Z) :=
  match count with
  | O => Some (false, log)
  | S count' =>
      x ← buf_get v k;
      let log' := log ++ [k] in
      if f32_neb x value then Some (true, log')
      else scan v value count' (k + 1) log'
  end.

(** The cell of [C] that the thread [bt] (block and thread coordinates) of
    a launch with square blocks of side [bs] writes. *)
Definition thread_cell (n bs : Z) (bt : dim3 * dim3) : nat :=
  Z.to_nat ((dy (fst bt) * bs + dy (snd bt)) * n
            + (dx (fst bt) * bs + dx (snd bt))).

(** A call without its arguments. *)
Definition erase (c : call) : call :=
  match c with
  | Malloc _ => Malloc 0
  | CudaSetDevice _ => CudaSetDevice 0
  | CudaMalloc _ => CudaMalloc 0
  | CudaMemcpyHostToDevice _ _ => CudaMemcpyHostToDevice 0 0
  | CudaMemcpyDeviceToHost _ _ => CudaMemcpyDeviceToHost 0 0
  | KernelLaunch _ _ => KernelLaunch (Dim3 0 0 0) (Dim3 0 0 0)
  | CudaFree _ => CudaFree 0
  | Scanf _ => Scanf 0
  | Output _ => Output ""
  | c => c
  end.

(** The calls of a complete run of [matrixMultiply], in order, without
    their arguments. *)
Definition matrixMultiply_script : list call :=
  [ Malloc 0; Malloc 0; Malloc 0;
    CudaMalloc 0; CudaMalloc 0; CudaMalloc 0;
    CudaMemcpyHostToDevice 0 0; CudaMemcpyHostToDevice 0 0;
    Output "";
    CudaEventCreate ev_start; CudaEventCreate ev_stop;
    CudaEventRecord ev_start;
    KernelLaunch (Dim3 0 0 0) (Dim3 0 0 0);
    CudaGetLastError;
    CudaEventRecord ev_stop;
    CudaEventSynchronize ev_stop;
    CudaEventElapsedTime ev_start ev_stop;
    Output "";
    CudaMemcpyDeviceToHost 0 0;
    Output "";
    Free; Free; Free;
    CudaFree 0; CudaFree 0; CudaFree 0 ].

(** An environment in which every call of the runtime succeeds and no
    allocation fails; fresh memory holds NaNs. *)
Definition quiet_env : env float32 :=
  Env (fun _ => cudaSuccess) (fun _ => false)
      (fun _ _ => S754_nan) (fun _ _ => S754_nan)
      (fun _ => f32_zero) (fun k => Z.of_nat k).

(** The same, except that the launch of a kernel (the ninth call of the
    runtime in [matrixMultiply]) is refused: what a device does with a block
    of no threads or a grid of no blocks ([cudaErrorInvalidConfiguration]
    is 9). *)
Definition refusing_env : env float32 :=
  Env (fun k => if (k =? 8)%nat then 9 else cudaSuccess) (fun _ => false)
      (fun _ _ => S754_nan) (fun _ _ => S754_nan)
      (fun _ => f32_zero) (fun k => Z.of_nat k).

(** The same as [quiet_env], except that the second call of the runtime
    (the allocation of [d_B] in [matrixMultiply]) fails
    ([cudaErrorMemoryAllocation] is 2). *)
Definition exhausted_env : env float32 :=
  Env (fun k => if (k =? 1)%nat then 2 else cudaSuccess) (fun _ => false)
      (fun _ _ => S754_nan) (fun _ _ => S754_nan)
      (fun _ => f32_zero) (fun k => Z.of_nat k).

(** Another environment in which every call succeeds: fresh memory holds
    numbers, the events and the clock report other times. *)
Definition other_env : env float32 :=
  Env (fun _ => cudaSuccess) (fun _ => false)
      (fun _ _ => valA) (fun _ i => f32_of_int (Z.of_nat i))
      (fun _ => valB) (fun k => 7 * Z.of_nat k).

(** The state at the start of the program: nothing allocated, nothing
    called. *)
Definition initial_world {T} : world T := World 0 0 0 cudaSuccess ∅ [].

(** An environment that answers every checked call with success and never
    fails an allocation. *)
Definition cooperative {T} (E : env T) : Prop :=
  (forall k, cuda_result E k = cudaSuccess) /\
  (forall k, malloc_null E k = false).

(** The pairs of shapes for which the run is defined: positive shapes, [n]
    their product, and [n * n] floats within the 32-bit byte counts of the
    source. *)
Definition valid_launch (block_size grid_size n : Z) : Prop :=
  0 < block_size /\ 0 < grid_size /\ n = block_size * grid_size /\
  n * n < 2 ^ 30.

#[global] Instance valid_launch_dec block_size grid_size n :
  Decision (valid_launch block_size grid_size n).
Proof. unfold valid_launch. apply _. Defined.

(** ** Host loops that print *)

Section HostLoops.
Context {T : Type}.

(** [for (int i = lo; ...; i++) body] for a body that acts on the world *)
Fixpoint for_each (count : nat) (i : Z) (body : Z -> M T unit) : M T unit :=
  match count with
  | O => mret tt
  | S count' => body i;; for_each count' (i + 1) body
  end.

(** A call of the runtime that has no entry of its own in the traces
    ([cudaGetDevice], [cudaGetDeviceProperties], [cudaDeviceReset]): it is
    answered by the environment and counted like every other call. *)
Definition cuda_call_unlogged (E : env T) : M T cudaError_t := fun w =>
  (Ret (cuda_result E (calls w)),
   World (S (calls w)) (mallocs w) (clock_reads w) (last_error w)
         (dmem w) (trace w)).

(** [cudaDeviceReset()]: when it succeeds, no device buffer of the process
    is left. *)
Definition cudaDeviceReset (E : env T) : M T cudaError_t :=
  bind (cuda_call_unlogged E) (fun err w =>
    (Ret err, if bool_decide (err = cudaSuccess) then set_dmem ∅ w else w)).
End HostLoops.

(** The control characters of the format strings: [\t], [\n], [\b], and
    the double quote. *)
Definition tab : string := String (Ascii.ascii_of_nat 9) EmptyString.
Definition newline : string := String (Ascii.ascii_of_nat 10) EmptyString.
Definition backspace : string := String (Ascii.ascii_of_nat 8) EmptyString.
Definition quote : string := String (Ascii.ascii_of_nat 34) EmptyString.

(** ** Lab 5: the sequential program *)

Module Lab5Serial.
Abbreviation env := (env Z).
Abbreviation world := (world Z).
Abbreviation M := (M Z).

(** [void printMat(int* v, int matSizeX, int matSizeY)], the same in both
    files of Lab 5.  [printf("%d\t", x)] writes [x] in decimal and a tab. *)
Definition printMat (v : list Z) (matSizeX matSizeY : Z) : M unit :=
  printf ("[-] Vector elements: " +:+ newline);;
  for_each (Z.to_nat matSizeX) 0 (fun i =>
    for_each (Z.to_nat matSizeY) 0 (fun j =>
      x ← lift (buf_get v (i * matSizeY + j));
      printf (pretty x +:+ tab));;
    printf newline);;
  printf (backspace +:+ backspace +:+ "  " +:+ newline).

(** [void addMat(int* a, int* b, int* c, int matSizeX, int matSizeY)] for
    three buffers that do not overlap; the result is [c] after the call. *)
Definition addMat (a b c : list Z) (matSizeX matSizeY : Z) : option (list Z) :=
  for_range 0 matSizeX (fun i c =>
    for_range 0 matSizeY (fun j c =>
      x ← buf_get a (i * matSizeY + j);
      y ← buf_get b (i * matSizeY + j);
      buf_set c (i * matSizeY + j) (to_int (x + y))) c) c.

Section WithEnv.
Variable E : env.

(** [int main()] of the sequential file; the result is the exit status. *)
Definition main : M Z :=
  let matSizeX := 4 in
  let matSizeY := 4 in
  a ← malloc E (sizeof_int * matSizeX * matSizeY);
  b ← malloc E (sizeof_int * matSizeX * matSizeY);
  c ← malloc E (sizeof_int * matSizeX * matSizeY);
  '(L, a) ← lift (fillMat 0 (deref a) matSizeX matSizeY);
  '(L, b) ← lift (fillMat L (deref b) matSizeX matSizeY);
  c ← lift (addMat a b (deref c) matSizeX matSizeY);
  printMat a matSizeX matSizeY;;
  printMat b matSizeX matSizeY;;
  printMat c matSizeX matSizeY;;
  mret EXIT_SUCCESS.
End WithEnv.
End Lab5Serial.

(** ** Lab 5: the program of [MattAdd.cu] *)

Module MattAdd.
Section WithEnv.
Variable E : env Z.

(** [int main()]; the result is the exit status.  [fprintf(stderr, ...)]
    is logged like [printf]. *)
Definition main : M Z Z :=
  let matSizeX := 4 in
  let matSizeY := 4 in
  a ← malloc E (sizeof_int * matSizeX * matSizeY);
  b ← malloc E (sizeof_int * matSizeX * matSizeY);
  c ← malloc E (sizeof_int * matSizeX * matSizeY);
  '(L, a) ← lift (fillMat 0 (deref a) matSizeX matSizeY);
  '(L, b) ← lift (fillMat L (deref b) matSizeX matSizeY);
  '(cudaStatus, c) ← Lab5.addWithCuda E (deref c) a b matSizeX matSizeY;
  if bool_decide (cudaStatus ≠ cudaSuccess) then
    printf "addWithCuda failed!";; mret 1
  else
  Lab5Serial.printMat a matSizeX matSizeY;;
  Lab5Serial.printMat b matSizeX matSizeY;;
  Lab5Serial.printMat c matSizeX matSizeY;;
  cudaStatus ← cudaDeviceReset E;
  if bool_decide (cudaStatus ≠ cudaSuccess) then
    printf "cudaDeviceReset failed!";; mret 1
  else mret 0.
End WithEnv.
End MattAdd.

(** ** Lab 6: the printer and the whole of [main] *)

Module Lab6Main.

(** What is sent to the standard output: text, a [float] ([cout << x]), a
    line end ([cout << endl]). *)
Inductive item : Type :=
| Text (s : string)
| Number (x : float32)
| Endl.

(** [void printMat(float* v, int matSizeX, int matSizeY)]: what is
    printed. *)
Definition printMat (v : list float32) (matSizeX matSizeY : Z)
  : option (list item) :=
  for_range 0 matSizeX (fun i out =>
    out ← for_range 0 matSizeY (fun j out =>
             x ← buf_get v (i * matSizeY + j);
             Some (out ++ [Number x; Text "   "])) out;
    Some (out ++ [Endl])) [Text ("[-] Vector elements: " +:+ newline)].

(** [cudaComputeModeProhibited] of the runtime's header *)
Definition cudaComputeModeProhibited : Z := 2.

Section WithEnv.
Variable E : env float32.

(** [int main(int argc, char** argv)].  [computeMode] is what is found in
    [deviceProp.computeMode] after the call of [cudaGetDeviceProperties];
    [inputs] are the pairs the operator will enter. *)
Definition main (computeMode : Z) (inputs : list (Z * Z)) : M float32 unit :=
  printf "[Matrix Multiply Using CUDA] - Starting...";;
  _ ← cuda_call E (CudaSetDevice 0);
  error ← cuda_call_unlogged E;
  (if bool_decide (error ≠ cudaSuccess)
   then printf "cudaGetDevice returned error %s (code %d), line(%d)"
   else mret tt);;
  error ← cuda_call_unlogged E;
  if bool_decide (computeMode = cudaComputeModeProhibited) then
    printf ("Error: device is running in <Compute Mode Prohibited>, "
            +:+ "no threads can use ::cudaSetDevice().");;
    exit EXIT_SUCCESS
  else
    (if bool_decide (error ≠ cudaSuccess)
     then printf "cudaGetDeviceProperties returned error %s (code %d), line(%d)"
     else printf ("GPU Device %d: " +:+ quote +:+ "%s" +:+ quote
                  +:+ " with compute capability %d.%d"));;
    Lab6.main_loop E inputs 1.
End WithEnv.
End Lab6Main.

(** ** Definitions used to state the properties of the whole programs *)

(** The entry of the row [i] and the column [j] of the product of two
    [n] x [n] matrices stored row after row, accumulated as the source
    does: from 0, the products [A[i][k] * B[k][j]] are added one after the
    other, [k] increasing, each product and each sum rounded to single
    precision. *)
Definition dot (A B : list float32) (n i j : Z) : float32 :=
  foldl (fun s k =>
           f32_add s (f32_mul (default f32_zero (A !! Z.to_nat (i * n + k)))
                              (default f32_zero (B !! Z.to_nat (k * n + j)))))
        f32_zero (seqZ 0 n).

(** The cell [c] of the product is the entry of the row [c / n] and the
    column [c mod n]. *)
Definition product_cell (A B : list float32) (n : Z) (c : nat) : float32 :=
  dot A B n (Z.of_nat c / n) (Z.of_nat c mod n).

Definition product (A B : list float32) (n : Z) : list float32 :=
  product_cell A B n <$> seq 0 (Z.to_nat (n * n)).

(** The texts of the trace: what the program has printed. *)
Definition outputs (tr : list call) : list string :=
  omap (fun c => match c with Output msg => Some msg | _ => None end) tr.

(** The text [printMat] prints for the first [X * Y] cells of [v]: the
    heading, the rows (every number followed by a tab, every row by a line
    end), the closing line. *)
Definition row_text (v : list Z) (Y i : Z) : list string :=
  ((fun j => pretty (default 0 (v !! Z.to_nat (i * Y + j))) +:+ tab)
     <$> seqZ 0 Y) ++ [newline].

Definition matrix_text (v : list Z) (X Y : Z) : list string :=
  ("[-] Vector elements: " +:+ newline)
    :: (seqZ 0 X ≫= row_text v Y)
    ++ [backspace +:+ backspace +:+ "  " +:+ newline].

(** A float that is not a NaN and not negative: [+0], a positive number,
    [+infinity]. *)
Definition f32_nonneg (x : float32) : Prop :=
  match x with
  | S754_zero s | S754_infinity s | S754_finite s _ _ => s = false
  | S754_nan => False
  end.

(** What one iteration of the driver of Lab 6 prints when nothing fails. *)
Definition iteration_outputs : list string :=
  [ "[-] Block Size = "; "[-] Grid Size = "; "Tile Width: 32";
    "MatrixA(%d,%d), MatrixB(%d,%d)";
    "Computing result using CUDA Kernel..."; "CUDA elapsed time in msec = %f";
    msg_right;
    "Serial time difference = ms"; msg_right;
    "Speed up: " ].

(** An environment in which every call of the runtime succeeds and the
    allocation number [k0] of the host fails. *)
Definition out_of_memory_env (k0 : nat) : env float32 :=
  Env (fun _ => cudaSuccess) (fun k => (k =? k0)%nat)
      (fun _ _ => S754_nan) (fun _ _ => S754_nan)
      (fun _ => f32_zero) (fun k => Z.of_nat k).

(** The cell that the thread [bt] of the launch of [addWithCuda] writes,
    in a block with [Y] threads along [y]. *)
Definition add_cell (Y : Z) (bt : dim3 * dim3) : nat :=
  Z.to_nat (dx (snd bt) * Y + dy (snd bt)).

(** The sums, as [int]s, of the cells of two buffers. *)
Definition add_cells (a b : list Z) : list Z :=
  zip_with (fun x y => to_int (x + y)) a b.

(** The environments of Lab 5 in which no host allocation fails: the
    answers of the runtime are given by [answers], fresh memory holds
    numbers that depend on the allocation and on the cell. *)
Definition lab5_env (answers : nat -> cudaError_t) : env Z :=
  Env answers (fun _ => false)
      (fun k i => Z.of_nat (k + i)) (fun k i => - Z.of_nat (k + i))
      (fun _ => f32_zero) (fun k => Z.of_nat k).

(** Every call succeeds; the call number [k0] fails
    ([cudaErrorMemoryAllocation] is 2). *)
Definition lab5_quiet : env Z := lab5_env (fun _ => cudaSuccess).
Definition lab5_failing (k0 : nat) : env Z :=
  lab5_env (fun k => if (k =? k0)%nat then 2 else cudaSuccess).

(** The world after the calls [l] have been logged. *)
Definition logged {T} (l : list call) (w : world T) : world T :=
  World (calls w) (mallocs w) (clock_reads w) (last_error w) (dmem w)
        (trace w ++ l).

(** What [printMat] of Lab 6 sends to the output for the first [X * Y]
    cells of [v]. *)
Definition row_items (v : list float32) (Y i : Z) : list Lab6Main.item :=
  (seqZ 0 Y ≫= fun j =>
     [ Lab6Main.Number (default f32_zero (v !! Z.to_nat (i * Y + j)));
       Lab6Main.Text "   " ])
  ++ [Lab6Main.Endl].

Definition matrix_items (v : list float32) (X Y : Z) : list Lab6Main.item :=
  Lab6Main.Text ("[-] Vector elements: " +:+ newline)
    :: (seqZ 0 X ≫= row_items v Y).

(** What the two programs of Lab 5 print: the matrices [a], [b] and their
    sum. *)
Definition lab5_text : list string :=
  matrix_text (seqZ 0 16) 4 4 ++ matrix_text (seqZ 16 16) 4 4
  ++ matrix_text ((fun k => 16 + 2 * k) <$> seqZ 0 16) 4 4.


(** * Properties *)

(** ** Machine integers and floats *)

Lemma to_uint_small z : 0 <= z < 2 ^ 32 -> to_uint z = z.
Proof. intros H. unfold to_uint. apply Z.mod_small. exact H. Qed.

Lemma to_int_small z : - 2 ^ 31 <= z < 2 ^ 31 -> to_int z = z.
Proof. intros H. unfold to_int. rewrite Z.mod_small; lia. Qed.

Lemma valA_bits : valA = S754_finite false 8388608 (-23).
Proof. reflexivity. Qed.

Lemma valB_bits : valB = S754_finite false 10737418 (-30).
Proof. reflexivity. Qed.

Lemma f32_sum_n_S count x s :
  f32_sum_n (S count) x s = f32_add (f32_sum_n count x s) x.
Proof.
  revert s. induction count as [|c IH]; intros s; [reflexivity|].
  change (f32_sum_n (S (S c)) x s) with (f32_sum_n (S c) x (f32_add s x)).
  rewrite IH. reflexivity.
Qed.

(** ** Buffers *)

Section BufferFacts.
Context {T : Type}.
Implicit Types (v : list T) (i : Z) (x : T).

Lemma buf_get_lookup v i x :
  0 <= i -> v !! Z.to_nat i = Some x -> buf_get v i = Some x.
Proof. intros Hi Hx. unfold buf_get. rewrite bool_decide_eq_true_2; done. Qed.

Lemma buf_get_Some v i x :
  buf_get v i = Some x <-> 0 <= i /\ v !! Z.to_nat i = Some x.
Proof.
  unfold buf_get. case_bool_decide; split; try done; intros []; try done.
Qed.

Lemma buf_get_replicate (k : nat) x i :
  0 <= i < Z.of_nat k -> buf_get (replicate k x) i = Some x.
Proof.
  intros Hi. apply buf_get_lookup; [lia|].
  apply lookup_replicate_2. lia.
Qed.

Lemma buf_set_Some v i x :
  0 <= i < Z.of_nat (length v) ->
  buf_set v i x = Some (<[Z.to_nat i := x]> v).
Proof. intros Hi. unfold buf_set. rewrite bool_decide_eq_true_2; done. Qed.

(** A buffer whose [k] cells all hold [x]. *)
Lemma all_cells_replicate v (k : nat) x :
  length v = k -> (forall j, (j < k)%nat -> v !! j = Some x) ->
  v = replicate k x.
Proof.
  intros Hlen Hall. apply list_eq. intros j.
  destruct (decide (j < k)%nat) as [Hj|Hj].
  - rewrite Hall by done. symmetry. apply lookup_replicate_2. done.
  - rewrite !lookup_ge_None_2; [done| |]; rewrite ?length_replicate; lia.
Qed.
End BufferFacts.

(** ** Loops *)

Section LoopFacts.
Context {St : Type}.
Implicit Types (body : Z -> St -> option St) (s : St).

Lemma for_range_empty lo hi body s :
  hi <= lo -> for_range lo hi body s = Some s.
Proof.
  intros H. unfold for_range. replace (Z.to_nat (hi - lo)) with O by lia.
  reflexivity.
Qed.

(** The invariant rule: [P i s] holds of the state before the iteration
    [i]. *)
Lemma for_loop_inv (P : Z -> St -> Prop) count lo body s :
  P lo s ->
  (forall i s, lo <= i < lo + Z.of_nat count -> P i s ->
     exists s', body i s = Some s' /\ P (i + 1) s') ->
  exists s', for_loop count lo body s = Some s' /\ P (lo + Z.of_nat count) s'.
Proof.
  revert lo s. induction count as [|c IH]; intros lo s H0 Hstep.
  - exists s. split; [reflexivity|]. replace (lo + Z.of_nat 0) with lo by lia.
    exact H0.
  - destruct (Hstep lo s) as (s1 & Hb & H1); [lia|done|].
    destruct (IH (lo + 1) s1) as (s2 & Hl & H2); [done| |].
    + intros i s' Hi. apply Hstep. lia.
    + exists s2. split.
      * cbn [for_loop]. rewrite Hb. exact Hl.
      * replace (lo + Z.of_nat (S c)) with (lo + 1 + Z.of_nat c) by lia.
        exact H2.
Qed.

Lemma for_range_inv (P : Z -> St -> Prop) lo hi body s :
  lo <= hi -> P lo s ->
  (forall i s, lo <= i < hi -> P i s ->
     exists s', body i s = Some s' /\ P (i + 1) s') ->
  exists s', for_range lo hi body s = Some s' /\ P hi s'.
Proof.
  intros Hle H0 Hstep. unfold for_range.
  destruct (for_loop_inv P (Z.to_nat (hi - lo)) lo body s) as (s' & Hl & HP).
  - exact H0.
  - intros i s1 Hi. apply Hstep. lia.
  - exists s'. split; [exact Hl|].
    replace (lo + Z.of_nat (Z.to_nat (hi - lo))) with hi in HP by lia.
    exact HP.
Qed.
End LoopFacts.

(** ** The data initializer *)

Lemma constantInit_full (data : list float32) (size : Z) (val : float32) :
  size = Z.of_nat (length data) ->
  constantInit data size val = Some (replicate (length data) val).
Proof.
  intros Hsz. unfold constantInit.
  destruct (for_range_inv
    (fun i d => length d = length data /\
                forall j, (Z.of_nat j < i) -> d !! j = Some val)
    0 size (fun i d => buf_set d i val) data) as (d & Hd & Hlen & Hall).
  - lia.
  - split; [done|]. intros j Hj. lia.
  - intros i d Hi [Hlen Hall]. eexists. split.
    + apply buf_set_Some. lia.
    + split; [by rewrite length_insert|].
      intros j Hj. destruct (decide (j = Z.to_nat i)) as [->|Hne].
      * apply list_lookup_insert_eq. lia.
      * rewrite list_lookup_insert_ne by done. apply Hall. lia.
  - rewrite Hd. f_equal. apply all_cells_replicate; [done|].
    intros j Hj. apply Hall. lia.
Qed.

(** ** The checker *)

Lemma check_cols_scan v value matSizeY i count j log :
  check_cols v value matSizeY i count j log
  = scan v value count (i * matSizeY + j) log.
Proof.
  revert j log. induction count as [|c IH]; intros j log; [reflexivity|].
  cbn [check_cols scan]. destruct (buf_get v (i * matSizeY + j)); [|done].
  cbn. destruct (f32_neb f value); [done|].
  rewrite IH. f_equal. lia.
Qed.

Lemma scan_app v value c1 c2 k log :
  scan v value (c1 + c2) k log
  = '(returned, log') ← scan v value c1 k log;
    if (returned : bool) then Some (true, log')
    else scan v value c2 (k + Z.of_nat c1) log'.
Proof.
  revert k log. induction c1 as [|c IH]; intros k log.
  - cbn. f_equal. lia.
  - cbn [Nat.add scan]. destruct (buf_get v k); [|done].
    cbn. destruct (f32_neb f value); [done|].
    rewrite IH. replace (k + 1 + Z.of_nat c) with (k + Z.of_nat (S c)) by lia.
    done.
Qed.

Lemma check_rows_scan v value matSizeY count i log :
  check_rows v value matSizeY count i log
  = scan v value (count * Z.to_nat matSizeY) (i * matSizeY) log.
Proof.
  revert i log. induction count as [|c IH]; intros i log; [reflexivity|].
  cbn [check_rows Nat.mul]. rewrite scan_app, check_cols_scan.
  replace (i * matSizeY + 0) with (i * matSizeY) by lia.
  destruct (scan v value (Z.to_nat matSizeY) (i * matSizeY) log)
    as [[[] log']|]; [done| |done].
  cbn. rewrite IH.
  destruct (decide (0 <= matSizeY)) as [Hy|Hy].
  - f_equal. lia.
  - replace (Z.to_nat matSizeY) with O by lia.
    rewrite Nat.mul_0_r. done.
Qed.

(** The checker is a row-major scan of the first
    [matSizeX * matSizeY] cells against [v[0]]. *)
Lemma checkCorrectness_scan v matSizeX matSizeY :
  checkCorrectness v matSizeX matSizeY
  = value ← buf_get v 0;
    '(returned, log) ← scan v value (Z.to_nat matSizeX * Z.to_nat matSizeY) 0 [0];
    Some (if (returned : bool) then msg_wrong else msg_right, log).
Proof.
  unfold checkCorrectness. destruct (buf_get v 0); [|done].
  cbn. rewrite check_rows_scan. done.
Qed.

(** No cell differs: the scan reads them all and does not return early. *)
Lemma scan_clean v value count k log :
  0 <= k ->
  (forall d, (d < count)%nat ->
     exists x, v !! (Z.to_nat k + d)%nat = Some x /\ f32_neb x value = false) ->
  scan v value count k log = Some (false, log ++ seqZ k (Z.of_nat count)).
Proof.
  revert k log. induction count as [|c IH]; intros k log Hk Hall.
  - cbn. by rewrite app_nil_r.
  - destruct (Hall O) as (x & Hx & Hnx); [lia|].
    rewrite Nat.add_0_r in Hx.
    cbn [scan]. rewrite (buf_get_lookup _ _ _ Hk Hx). cbn. rewrite Hnx.
    rewrite IH; [|lia|].
    + rewrite <- app_assoc. cbn [app].
      replace (Z.of_nat (S c)) with (Z.succ (Z.of_nat c)) by lia.
      rewrite (seqZ_cons k) by lia.
      replace (Z.succ k) with (k + 1) by lia.
      replace (Z.pred (Z.succ (Z.of_nat c))) with (Z.of_nat c) by lia.
      done.
    + intros d Hd. destruct (Hall (S d)) as (y & Hy & Hny); [lia|].
      exists y. split; [|done]. rewrite <- Hy. f_equal. lia.
Qed.

(** The first differing cell is [m] cells further: the scan reads up to
    that cell and returns there. *)
Lemma scan_first_mismatch v value count k log (m : nat) :
  0 <= k -> (m < count)%nat ->
  (forall d, (d < m)%nat ->
     exists x, v !! (Z.to_nat k + d)%nat = Some x /\ f32_neb x value = false) ->
  (exists x, v !! (Z.to_nat k + m)%nat = Some x /\ f32_neb x value = true) ->
  scan v value count k log = Some (true, log ++ seqZ k (Z.of_nat m + 1)).
Proof.
  revert k log m. induction count as [|c IH]; intros k log m Hk Hm Hall Hbad;
    [lia|].
  destruct m as [|m].
  - destruct Hbad as (x & Hx & Hnx). rewrite Nat.add_0_r in Hx.
    cbn [scan]. rewrite (buf_get_lookup _ _ _ Hk Hx). cbn. rewrite Hnx.
    done.
  - destruct (Hall O) as (x & Hx & Hnx); [lia|].
    rewrite Nat.add_0_r in Hx.
    cbn [scan]. rewrite (buf_get_lookup _ _ _ Hk Hx). cbn. rewrite Hnx.
    rewrite (IH (k + 1) _ m); [|lia|lia| |].
    + rewrite <- app_assoc. cbn [app].
      rewrite (seqZ_cons k (Z.of_nat (S m) + 1)) by lia.
      replace (Z.succ k) with (k + 1) by lia.
      replace (Z.pred (Z.of_nat (S m) + 1)) with (Z.of_nat m + 1) by lia.
      done.
    + intros d Hd. destruct (Hall (S d)) as (y & Hy & Hny); [lia|].
      exists y. split; [|done]. rewrite <- Hy. f_equal. lia.
    + destruct Hbad as (y & Hy & Hny).
      exists y. split; [|done]. rewrite <- Hy. f_equal. lia.
Qed.

(** Over cells that exist the scan either finds no differing cell or stops
    at the first one. *)
Lemma scan_cases (v : list float32) value count k :
  0 <= k -> (Z.to_nat k + count <= length v)%nat ->
  (forall d, (d < count)%nat ->
     exists x, v !! (Z.to_nat k + d)%nat = Some x /\ f32_neb x value = false)
  \/ exists m, (m < count)%nat /\
       (forall d, (d < m)%nat ->
          exists x, v !! (Z.to_nat k + d)%nat = Some x
                    /\ f32_neb x value = false) /\
       exists x, v !! (Z.to_nat k + m)%nat = Some x /\ f32_neb x value = true.
Proof.
  intros Hk. induction count as [|c IH]; intros Hlen.
  - left. intros d Hd. lia.
  - destruct IH as [Hall|(m & Hm & Hall & Hbad)]; [lia| |].
    + destruct (lookup_lt_is_Some_2 v (Z.to_nat k + c)%nat) as [x Hx]; [lia|].
      destruct (f32_neb x value) eqn:Hnx.
      * right. exists c. split; [lia|]. split; [done|]. by exists x.
      * left. intros d Hd. destruct (decide (d = c)) as [->|Hne].
        -- by exists x.
        -- apply Hall. lia.
    + right. exists m. split; [lia|]. done.
Qed.

Lemma f32_neb_refl (c : float32) : c <> S754_nan -> f32_neb c c = false.
Proof.
  intros Hc. unfold f32_neb, SFeqb.
  destruct c as [s|s| |s m e]; cbn; try done; try (by destruct s).
  destruct s; rewrite Z.compare_refl, Pos.compare_cont_refl; done.
Qed.

Lemma msg_right_wrong : msg_right <> msg_wrong.
Proof. discriminate. Qed.

(** Cells by row and column, cells by position. *)
Lemma cells_by_position (Q : nat -> Prop) (X Y : Z) :
  0 <= X -> 0 <= Y ->
  (forall d, (d < Z.to_nat X * Z.to_nat Y)%nat -> Q d)
  <-> (forall i j, 0 <= i < X -> 0 <= j < Y -> Q (Z.to_nat (i * Y + j))).
Proof.
  intros HX HY. split.
  - intros H i j Hi Hj. apply H. nia.
  - intros H d Hd.
    assert (0 < Y) as HY' by nia.
    specialize (H (Z.of_nat d / Y) (Z.of_nat d mod Y)).
    pose proof (Z.div_mod (Z.of_nat d) Y ltac:(lia)) as Hdm.
    pose proof (Z.mod_pos_bound (Z.of_nat d) Y HY') as Hm.
    assert (0 <= Z.of_nat d / Y) as Hq by (apply Z.div_pos; lia).
    replace (Z.to_nat (Z.of_nat d / Y * Y + Z.of_nat d mod Y)) with d in H by lia.
    apply H; [|lia]. split; [lia|].
    apply Z.div_lt_upper_bound; nia.
Qed.

Lemma cell_by_position (Q : nat -> Prop) (X Y : Z) :
  0 <= X -> 0 <= Y ->
  (exists d, (d < Z.to_nat X * Z.to_nat Y)%nat /\ Q d)
  <-> (exists i j, 0 <= i < X /\ 0 <= j < Y /\ Q (Z.to_nat (i * Y + j))).
Proof.
  intros HX HY. split.
  - intros (d & Hd & HQ).
    assert (0 < Y) as HY' by nia.
    pose proof (Z.div_mod (Z.of_nat d) Y ltac:(lia)) as Hdm.
    pose proof (Z.mod_pos_bound (Z.of_nat d) Y HY') as Hm.
    assert (0 <= Z.of_nat d / Y) as Hq by (apply Z.div_pos; lia).
    exists (Z.of_nat d / Y), (Z.of_nat d mod Y).
    split; [|split; [lia|]].
    + split; [lia|]. apply Z.div_lt_upper_bound; nia.
    + replace (Z.to_nat (Z.of_nat d / Y * Y + Z.of_nat d mod Y)) with d by lia.
      exact HQ.
  - intros (i & j & Hi & Hj & HQ). eexists. split; [|exact HQ]. nia.
Qed.

(** C2, as the code has it: the checker takes no expected value.  It
    compares every cell, row by row, with the first cell [v[0]]; it prints
    the success message exactly when no cell differs from [v[0]] and the
    failure message exactly when some cell does. *)
Theorem checkCorrectness_verdict (v : list float32) (X Y : Z) (value : float32) :
  0 <= X -> 0 <= Y -> X * Y <= Z.of_nat (length v) ->
  buf_get v 0 = Some value ->
  exists msg log,
    checkCorrectness v X Y = Some (msg, log) /\
    (msg = msg_right <->
       forall i j, 0 <= i < X -> 0 <= j < Y ->
         exists x, buf_get v (i * Y + j) = Some x /\ f32_neb x value = false) /\
    (msg = msg_wrong <->
       exists i j, 0 <= i < X /\ 0 <= j < Y /\
         exists x, buf_get v (i * Y + j) = Some x /\ f32_neb x value = true).
Proof.
  intros HX HY Hlen Hv0. rewrite checkCorrectness_scan, Hv0. cbn.
  set (count := (Z.to_nat X * Z.to_nat Y)%nat).
  assert (forall (b : bool) i j, 0 <= i -> 0 <= j ->
            (exists x, buf_get v (i * Y + j) = Some x /\ f32_neb x value = b)
            <-> (exists x, v !! (Z.to_nat 0 + Z.to_nat (i * Y + j))%nat = Some x
                           /\ f32_neb x value = b)) as Hcell.
  { intros b i j Hi Hj. cbn. split; intros (x & Hx & Hb); exists x.
    - apply buf_get_Some in Hx. tauto.
    - split; [|done]. apply buf_get_lookup; [nia|done]. }
  destruct (scan_cases v value count 0) as [Hall|(m & Hm & Hall & Hbad)];
    [lia|subst count; nia| |].
  - rewrite scan_clean by (done || lia). cbn.
    eexists _, _. split; [done|]. split.
    + split; [intros _|done]. intros i j Hi Hj. apply Hcell; [lia..|].
      revert i j Hi Hj.
      apply (proj1 (cells_by_position
        (fun d => exists x, v !! (Z.to_nat 0 + d)%nat = Some x
                            /\ f32_neb x value = false) X Y HX HY)).
      exact Hall.
    + split; [intros H; by destruct msg_right_wrong|].
      intros (i & j & Hi & Hj & Hx). apply Hcell in Hx; [|lia..].
      destruct Hx as (x & Hx & Hb).
      destruct (Hall (Z.to_nat (i * Y + j))) as (y & Hy & Hb'); [subst count; nia|].
      congruence.
  - rewrite (scan_first_mismatch v value count 0 [0] m) by (done || lia). cbn.
    eexists _, _. split; [done|]. split.
    + split; [intros H; by destruct msg_right_wrong|].
      intros Hno. exfalso. destruct Hbad as (x & Hx & Hb).
      assert (exists y, v !! (Z.to_nat 0 + m)%nat = Some y
                        /\ f32_neb y value = false) as (y & Hy & Hb').
      { apply (proj2 (cells_by_position
          (fun d => exists x, v !! (Z.to_nat 0 + d)%nat = Some x
                              /\ f32_neb x value = false) X Y HX HY));
          [|exact Hm].
        intros i j Hi Hj. apply Hcell; [lia..|]. by apply Hno. }
      congruence.
    + split; [intros _|done].
      destruct (proj1 (cell_by_position
        (fun d => exists x, v !! (Z.to_nat 0 + d)%nat = Some x
                            /\ f32_neb x value = true) X Y HX HY))
        as (i & j & Hi & Hj & Hx); [by exists m|].
      exists i, j. split; [done|]. split; [done|]. apply Hcell; [lia..|done].
Qed.

Lemma checkCorrectness_verdict_witness :
  exists msg log,
    checkCorrectness (replicate 4 valB) 2 2 = Some (msg, log) /\
    (msg = msg_right <->
       forall i j, 0 <= i < 2 -> 0 <= j < 2 ->
         exists x, buf_get (replicate 4 valB) (i * 2 + j) = Some x
                   /\ f32_neb x valB = false) /\
    (msg = msg_wrong <->
       exists i j, 0 <= i < 2 /\ 0 <= j < 2 /\
         exists x, buf_get (replicate 4 valB) (i * 2 + j) = Some x
                   /\ f32_neb x valB = true).
Proof.
  apply (checkCorrectness_verdict (replicate 4 valB) 2 2 valB);
    [lia | lia | cbn; lia | reflexivity].
Defined.

(** C2, counterexample: the 2 x 2 matrix filled with 7.  No cell holds the
    expected value [valA * valB * 2], and the checker prints the success
    message. *)
Lemma checkCorrectness_accepts_wrong_constant :
  let v := replicate 4 (f32_of_int 7) in
  (forall x, x ∈ v -> f32_neb x (expected_value valA valB 2) = true) /\
  checkCorrectness v 2 2 = Some (msg_right, [0; 0; 1; 2; 3]).
Proof.
  split; [|reflexivity].
  intros x Hx. apply elem_of_replicate in Hx as [-> _]. reflexivity.
Qed.

(** C6, as the code has it: a mismatch is a cell that differs from [v[0]].
    When the first such cell in row-major order is at position [m], the
    checker prints the failure message and the cells it has read are
    [v[0]] (for [value]) and then the positions 0, 1, ..., [m], in this
    order: no cell after position [m] is read.  A single corrupted cell put
    at a position [p > 0] of a matrix filled with a constant is such a first
    mismatch, so the scan stops at that cell. *)
Theorem checkCorrectness_fail_fast :
  (forall (v : list float32) (X Y m : Z) (value : float32),
     0 <= X -> 0 <= Y -> X * Y <= Z.of_nat (length v) -> 0 <= m < X * Y ->
     buf_get v 0 = Some value ->
     (forall k, 0 <= k < m ->
        exists x, buf_get v k = Some x /\ f32_neb x value = false) ->
     (exists x, buf_get v m = Some x /\ f32_neb x value = true) ->
     checkCorrectness v X Y = Some (msg_wrong, 0 :: seqZ 0 (m + 1)))
  /\
  (forall (X Y p : Z) (c bad : float32),
     0 <= X -> 0 <= Y -> 0 < p < X * Y ->
     c <> S754_nan -> f32_neb bad c = true ->
     checkCorrectness (<[Z.to_nat p := bad]> (replicate (Z.to_nat (X * Y)) c)) X Y
     = Some (msg_wrong, 0 :: seqZ 0 (p + 1))).
Proof.
  assert (forall (v : list float32) (X Y m : Z) (value : float32),
     0 <= X -> 0 <= Y -> X * Y <= Z.of_nat (length v) -> 0 <= m < X * Y ->
     buf_get v 0 = Some value ->
     (forall k, 0 <= k < m ->
        exists x, buf_get v k = Some x /\ f32_neb x value = false) ->
     (exists x, buf_get v m = Some x /\ f32_neb x value = true) ->
     checkCorrectness v X Y = Some (msg_wrong, 0 :: seqZ 0 (m + 1))) as Hgen.
  { intros v X Y m value HX HY Hlen Hm Hv0 Hall Hbad.
    rewrite checkCorrectness_scan, Hv0. cbn.
    rewrite (scan_first_mismatch v value _ 0 [0] (Z.to_nat m)); [|lia|nia| |].
    - cbn. replace (Z.of_nat (Z.to_nat m) + 1) with (m + 1) by lia. done.
    - intros d Hd. destruct (Hall (Z.of_nat d)) as (x & Hx & Hb); [lia|].
      exists x. split; [|done]. apply buf_get_Some in Hx as [_ Hx].
      rewrite <- Hx. f_equal. lia.
    - destruct Hbad as (x & Hx & Hb). exists x. split; [|done].
      apply buf_get_Some in Hx as [_ Hx]. rewrite <- Hx. f_equal. }
  split; [exact Hgen|].
  intros X Y p c bad HX HY Hp Hc Hbad.
  apply (Hgen _ X Y p c); try done.
  - rewrite length_insert, length_replicate. lia.
  - lia.
  - apply buf_get_lookup; [lia|]. rewrite list_lookup_insert_ne by lia.
    apply lookup_replicate_2. lia.
  - intros k Hk. exists c. split; [|by apply f32_neb_refl].
    apply buf_get_lookup; [lia|]. rewrite list_lookup_insert_ne by lia.
    apply lookup_replicate_2. lia.
  - exists bad. split; [|done]. apply buf_get_lookup; [lia|].
    apply list_lookup_insert_eq. rewrite length_replicate. lia.
Qed.

Lemma checkCorrectness_fail_fast_witness :
  checkCorrectness [valB; valB; valA; valB] 2 2 = Some (msg_wrong, [0; 0; 1; 2])
  /\ checkCorrectness (<[2%nat := valA]> (replicate 4 valB)) 2 2
     = Some (msg_wrong, [0; 0; 1; 2]).
Proof.
  split.
  - apply (proj1 checkCorrectness_fail_fast [valB; valB; valA; valB] 2 2 2 valB);
      [lia | lia | cbn; lia | lia | reflexivity | | ].
    + intros k Hk. exists valB. split; [|reflexivity].
      assert (k = 0 \/ k = 1) as [-> | ->] by lia; reflexivity.
    + exists valA. split; reflexivity.
  - apply (proj2 checkCorrectness_fail_fast 2 2 2 valB valA);
      [lia | lia | lia | discriminate | reflexivity].
Defined.

(** C6, counterexample: the corrupted cell is the first one.  In a 2 x 2
    matrix of [valB] whose cell 0 is overwritten with 7, the failure is
    found at cell 1, which is a correct cell, not at the corrupted cell; in
    a 1 x 1 matrix the corrupted cell is not found at all. *)
Lemma checkCorrectness_corrupt_first_cell :
  checkCorrectness (<[0%nat := f32_of_int 7]> (replicate 4 valB)) 2 2
  = Some (msg_wrong, [0; 0; 1])
  /\ checkCorrectness (<[0%nat := f32_of_int 7]> (replicate 1 valB)) 1 1
     = Some (msg_right, [0; 0]).
Proof. split; reflexivity. Qed.

(** C10, as the code has it: the checker prints the success message for
    every matrix whose cells all compare equal to [v[0]] with the equality
    of floats, whatever that value is; a matrix filled with one constant
    that is not a NaN passes. *)
Theorem checkCorrectness_uniform_passes :
  (forall (v : list float32) (X Y : Z) (value : float32),
     0 <= X -> 0 <= Y -> X * Y <= Z.of_nat (length v) ->
     buf_get v 0 = Some value ->
     (forall i j, 0 <= i < X -> 0 <= j < Y ->
        exists x, buf_get v (i * Y + j) = Some x /\ SFeqb x value = true) ->
     checkCorrectness v X Y = Some (msg_right, 0 :: seqZ 0 (X * Y)))
  /\
  (forall (X Y : Z) (c : float32),
     0 < X -> 0 < Y -> c <> S754_nan ->
     checkCorrectness (replicate (Z.to_nat (X * Y)) c) X Y
     = Some (msg_right, 0 :: seqZ 0 (X * Y))).
Proof.
  assert (forall (v : list float32) (X Y : Z) (value : float32),
     0 <= X -> 0 <= Y -> X * Y <= Z.of_nat (length v) ->
     buf_get v 0 = Some value ->
     (forall i j, 0 <= i < X -> 0 <= j < Y ->
        exists x, buf_get v (i * Y + j) = Some x /\ SFeqb x value = true) ->
     checkCorrectness v X Y = Some (msg_right, 0 :: seqZ 0 (X * Y))) as Hgen.
  { intros v X Y value HX HY Hlen Hv0 Hall.
    rewrite checkCorrectness_scan, Hv0. cbn.
    rewrite scan_clean; [|lia|].
    - replace (Z.of_nat (Z.to_nat X * Z.to_nat Y)) with (X * Y) by nia.
      done.
    - apply (proj2 (cells_by_position
        (fun d => exists x, v !! (Z.to_nat 0 + d)%nat = Some x
                            /\ f32_neb x value = false) X Y HX HY)).
      intros i j Hi Hj. destruct (Hall i j Hi Hj) as (x & Hx & Heq).
      exists x. apply buf_get_Some in Hx as [_ Hx]. split; [done|].
      unfold f32_neb. by rewrite Heq. }
  split; [exact Hgen|].
  intros X Y c HX HY Hc.
  assert (forall k, 0 <= k < X * Y ->
            buf_get (replicate (Z.to_nat (X * Y)) c) k = Some c) as Hget.
  { intros k Hk. apply buf_get_replicate. lia. }
  apply (Hgen _ X Y c); [lia|lia| | |].
  - rewrite length_replicate. lia.
  - apply Hget. nia.
  - intros i j Hi Hj. exists c. split; [apply Hget; nia|].
    pose proof (f32_neb_refl c Hc) as Hr. unfold f32_neb in Hr.
    by destruct (SFeqb c c).
Qed.

Lemma checkCorrectness_uniform_passes_witness :
  checkCorrectness (replicate 4 (f32_of_int 7)) 2 2
  = Some (msg_right, [0; 0; 1; 2; 3])
  /\ checkCorrectness (replicate (Z.to_nat (2 * 2)) valB) 2 2
     = Some (msg_right, [0; 0; 1; 2; 3]).
Proof.
  split.
  - apply (proj1 checkCorrectness_uniform_passes
             (replicate 4 (f32_of_int 7)) 2 2 (f32_of_int 7));
      [lia | lia | cbn; lia | reflexivity | ].
    intros i j Hi Hj. exists (f32_of_int 7). split; [|reflexivity].
    apply buf_get_replicate. lia.
  - apply (proj2 checkCorrectness_uniform_passes 2 2 valB);
      [lia | lia | discriminate].
Defined.

(** C10, counterexample: a matrix filled with one constant, a NaN.  Every
    cell holds the value of [v[0]], and the checker prints the failure
    message at the first comparison, since a NaN differs from itself. *)
Lemma checkCorrectness_rejects_nan_fill :
  let v := replicate 4 S754_nan in
  (forall x, x ∈ v -> Some x = buf_get v 0) /\
  checkCorrectness v 2 2 = Some (msg_wrong, [0; 0]).
Proof.
  split; [|reflexivity].
  intros x Hx. apply elem_of_replicate in Hx as [-> _]. reflexivity.
Qed.

(** ** The fill routine *)

(** One call of [fillMat] writes the values [L], [L+1], ... in row-major
    order and leaves the counter at [L + matSizeX * matSizeY]. *)
Lemma fillMat_spec (L : Z) (v : list Z) (X Y : Z) :
  0 <= X -> 0 <= Y -> X * Y <= Z.of_nat (length v) ->
  - 2 ^ 31 <= L -> L + X * Y <= INT_MAX ->
  exists v', fillMat L v X Y = Some (L + X * Y, v') /\
    length v' = length v /\
    (forall k, 0 <= k < X * Y -> v' !! Z.to_nat k = Some (L + k)) /\
    (forall k, X * Y <= Z.of_nat k -> v' !! k = v !! k).
Proof.
  intros HX HY Hlen HL Hmax. unfold INT_MAX in Hmax.
  set (Inv := fun (pos : Z) (st : Z * list Z) =>
    fst st = L + pos /\ length (snd st) = length v /\
    (forall k, 0 <= k < pos -> snd st !! Z.to_nat k = Some (L + k)) /\
    (forall k, pos <= Z.of_nat k -> snd st !! k = v !! k)).
  unfold fillMat.
  destruct (for_range_inv (fun i st => Inv (i * Y) st) 0 X
    (fun i st => for_range 0 Y (fun j '(L, v) =>
       v' ← buf_set v (i * Y + j) L; Some (to_int (L + 1), v')) st) (L, v))
    as ([L' v'] & Hrun & HL' & Hlen' & Hlo & Hhi).
  - lia.
  - repeat split; cbn; [lia|intros; lia].
  - intros i st Hi HP.
    destruct (for_range_inv (fun j st => Inv (i * Y + j) st) 0 Y
      (fun j '(L, v) =>
         v' ← buf_set v (i * Y + j) L; Some (to_int (L + 1), v')) st)
      as (st' & Hrun & HQ).
    + lia.
    + by rewrite Z.add_0_r.
    + intros j [L1 v1] Hj (HL1 & Hlen1 & Hlo & Hhi). cbn in *.
      rewrite buf_set_Some by nia. cbn. eexists. split; [done|].
      repeat split; cbn.
      * rewrite to_int_small by nia. lia.
      * by rewrite length_insert.
      * intros k Hk. destruct (decide (k = i * Y + j)) as [->|Hne].
        -- rewrite list_lookup_insert_eq by nia. f_equal. lia.
        -- rewrite list_lookup_insert_ne by lia. apply Hlo. lia.
      * intros k Hk. rewrite list_lookup_insert_ne by lia. apply Hhi. lia.
    + exists st'. split; [done|].
      replace ((i + 1) * Y) with (i * Y + Y) by lia. done.
  - cbn in *. subst L'. exists v'. rewrite Hrun. done.
Qed.

(** C9: in [main] the two calls [fillMat(a, 4, 4); fillMat(b, 4, 4)] have
    equal size arguments, and every cell of [b] is the cell of [a] plus
    [matSizeX * matSizeY]: the counter persists across the calls.  The
    results differ even when the two buffers start with the same content,
    so the result is not a function of the arguments. *)
Theorem main_fill_second_offset (a0 b0 : list Z) :
  length a0 = 16%nat -> length b0 = 16%nat ->
  exists a b,
    main_fill a0 b0 = Some (a, b) /\
    length a = 16%nat /\ length b = 16%nat /\
    (forall k x, a !! k = Some x -> b !! k = Some (x + 4 * 4)) /\
    (forall k, (k < 16)%nat -> a !! k = Some (Z.of_nat k)) /\
    a <> b.
Proof.
  intros Ha Hb. unfold main_fill.
  destruct (fillMat_spec 0 a0 4 4) as (a & Hfa & Hla & Hlo_a & _);
    [lia | lia | lia | lia | unfold INT_MAX; lia |].
  rewrite Hfa. cbn.
  destruct (fillMat_spec 16 b0 4 4) as (b & Hfb & Hlb & Hlo_b & _);
    [lia | lia | lia | lia | unfold INT_MAX; lia |].
  replace (0 + 4 * 4) with 16 in * by lia.
  rewrite Hfb. cbn. exists a, b. split; [done|].
  assert (forall k, (k < 16)%nat -> a !! k = Some (Z.of_nat k)) as Hcells.
  { intros k Hk. specialize (Hlo_a (Z.of_nat k)).
    rewrite Nat2Z.id in Hlo_a. rewrite Hlo_a by lia. f_equal. }
  split; [lia|]. split; [lia|]. split; [|split; [exact Hcells|]].
  - intros k x Hx.
    assert (k < 16)%nat as Hk by (apply lookup_lt_Some in Hx; lia).
    rewrite Hcells in Hx by done. injection Hx as <-.
    specialize (Hlo_b (Z.of_nat k)). rewrite Nat2Z.id in Hlo_b.
    rewrite Hlo_b by lia. f_equal. lia.
  - intros Heq. subst b.
    specialize (Hlo_b 0 ltac:(lia)). change (Z.to_nat 0) with O in Hlo_b.
    rewrite (Hcells O) in Hlo_b by lia. discriminate.
Qed.

Lemma main_fill_second_offset_witness :
  exists a b,
    main_fill (replicate 16 0) (replicate 16 0) = Some (a, b) /\
    length a = 16%nat /\ length b = 16%nat /\
    (forall k x, a !! k = Some x -> b !! k = Some (x + 4 * 4)) /\
    (forall k, (k < 16)%nat -> a !! k = Some (Z.of_nat k)) /\
    a <> b.
Proof.
  apply (main_fill_second_offset (replicate 16 0) (replicate 16 0));
    reflexivity.
Defined.

(** ** The product of two constant matrices *)

Section ConstantProduct.
Variables (n : Z) (a b : float32).
Hypothesis n_pos : 0 < n.

Let A : list float32 := replicate (Z.to_nat (n * n)) a.
Let B : list float32 := replicate (Z.to_nat (n * n)) b.

Lemma constant_A_cell row k :
  0 <= row < n -> 0 <= k < n -> buf_get A (row * n + k) = Some a.
Proof. intros Hr Hk. apply buf_get_replicate. nia. Qed.

Lemma constant_B_cell k col :
  0 <= k < n -> 0 <= col < n -> buf_get B (k * n + col) = Some b.
Proof. intros Hk Hc. apply buf_get_replicate. nia. Qed.

(** The reduction loop over [k], the same in the kernel and in
    [serialMultiply]. *)
Lemma dot_loop row col :
  0 <= row < n -> 0 <= col < n ->
  for_range 0 n (fun k acc =>
      x ← buf_get A (row * n + k);
      y ← buf_get B (k * n + col);
      Some (f32_add acc (f32_mul x y))) f32_zero
  = Some (dot_const n a b).
Proof.
  intros Hr Hc.
  destruct (for_range_inv
    (fun k acc => acc = f32_sum_n (Z.to_nat k) (f32_mul a b) f32_zero)
    0 n (fun k acc =>
      x ← buf_get A (row * n + k);
      y ← buf_get B (k * n + col);
      Some (f32_add acc (f32_mul x y))) f32_zero) as (acc & Hrun & Hacc).
  - lia.
  - reflexivity.
  - intros k acc Hk ->. rewrite constant_A_cell, constant_B_cell by lia.
    cbn. eexists. split; [done|].
    replace (Z.to_nat (k + 1)) with (S (Z.to_nat k)) by lia.
    by rewrite f32_sum_n_S.
  - rewrite Hrun, Hacc. done.
Qed.

(** One thread of the kernel writes the cell of its row and column. *)
Lemma matrixMulCUDA_thread (bs gs : Z) (C : list float32) bx by_ bz tx ty tz :
  0 < bs -> 0 < gs -> n = bs * gs -> n < 2 ^ 31 ->
  0 <= bx < gs -> 0 <= by_ < gs -> 0 <= tx < bs -> 0 <= ty < bs ->
  Z.of_nat (length C) = n * n ->
  matrixMulCUDA (Dim3 bx by_ bz) (Dim3 bs bs 1) (Dim3 tx ty tz) C A B n
  = Some (<[Z.to_nat ((by_ * bs + ty) * n + (bx * bs + tx)) := dot_const n a b]> C).
Proof.
  intros Hbs Hgs Hn Hmax Hbx Hby Htx Hty Hlen.
  unfold matrixMulCUDA. cbn [dx dy].
  assert (0 <= by_ * bs + ty < n) as Hrow by nia.
  assert (0 <= bx * bs + tx < n) as Hcol by nia.
  rewrite !to_uint_small by lia. rewrite !to_int_small by lia.
  rewrite dot_loop by done. cbn.
  apply buf_set_Some. nia.
Qed.

(** Writing one value at the cells of a list of positions. *)
Lemma foldl_insert_lookup {T I} (idx : I -> nat) (d : T) (L : list I)
    (C : list T) (k : nat) :
  (k < length C)%nat ->
  C !! k = Some d \/ (exists t, t ∈ L /\ idx t = k) ->
  foldl (fun C t => <[idx t := d]> C) C L !! k = Some d.
Proof.
  revert C. induction L as [|t L IH]; intros C Hk H.
  - destruct H as [H|(t & Ht & _)]; [done|]. by apply elem_of_nil in Ht.
  - cbn. apply IH; [by rewrite length_insert|].
    destruct (decide (idx t = k)) as [<-|Hne].
    + left. by apply list_lookup_insert_eq.
    + destruct H as [H|(t' & Ht' & Hi)].
      * left. by rewrite list_lookup_insert_ne.
      * right. exists t'. split; [|done].
        apply elem_of_cons in Ht' as [->|Ht']; done.
Qed.

Lemma foldl_insert_length {T I} (idx : I -> nat) (d : T) (L : list I)
    (C : list T) :
  length (foldl (fun C t => <[idx t := d]> C) C L) = length C.
Proof.
  revert C. induction L as [|t L IH]; intros C; [done|].
  cbn. by rewrite IH, length_insert.
Qed.

Lemma launch_threads_elem (grid threads : dim3) (bi ti : dim3) :
  (bi, ti) ∈ launch_threads grid threads <->
  (0 <= dx bi < dx grid /\ 0 <= dy bi < dy grid /\ 0 <= dz bi < dz grid) /\
  (0 <= dx ti < dx threads /\ 0 <= dy ti < dy threads
   /\ 0 <= dz ti < dz threads).
Proof.
  unfold launch_threads. destruct bi as [bx by_ bz], ti as [tx ty tz].
  cbn [dx dy dz].
  repeat setoid_rewrite list_elem_of_bind.
  setoid_rewrite list_elem_of_singleton.
  repeat setoid_rewrite elem_of_seqZ.
  split.
  - intros (bz' & (by' & (bx' & (tz' & (ty' & (tx' & Heq & ?) & ?) & ?) & ?)
             & ?) & ?).
    injection Heq as -> -> -> -> -> ->. lia.
  - intros [(? & ? & ?) (? & ? & ?)].
    exists bz. split; [|lia]. exists by_. split; [|lia].
    exists bx. split; [|lia]. exists tz. split; [|lia].
    exists ty. split; [|lia]. exists tx. split; [done|lia].
Qed.

Lemma launch_matrixMulCUDA_fold (bs gs : Z) (L : list (dim3 * dim3))
    (C : list float32) :
  0 < bs -> 0 < gs -> n = bs * gs -> n < 2 ^ 31 ->
  (forall bt, bt ∈ L -> bt ∈ launch_threads (Dim3 gs gs 1) (Dim3 bs bs 1)) ->
  Z.of_nat (length C) = n * n ->
  foldl (fun om bt =>
           m ← om; matrixMulCUDA (fst bt) (Dim3 bs bs 1) (snd bt) m A B n)
        (Some C) L
  = Some (foldl (fun C bt => <[thread_cell n bs bt := dot_const n a b]> C) C L).
Proof.
  intros Hbs Hgs Hn Hmax. revert C. induction L as [|[bi ti] L IH];
    intros C HL Hlen; [done|].
  cbn [foldl]. cbn [mbind option_bind fst snd].
  assert ((bi, ti) ∈ launch_threads (Dim3 gs gs 1) (Dim3 bs bs 1)) as Hin
    by (apply HL; left).
  apply launch_threads_elem in Hin. cbn in Hin.
  destruct bi as [bx by_ bz], ti as [tx ty tz]. cbn in Hin.
  rewrite (matrixMulCUDA_thread bs gs) by (done || lia).
  apply IH.
  - intros bt Hbt. apply HL. by right.
  - by rewrite length_insert.
Qed.

(** The grid of [grid_size] x [grid_size] blocks of [block_size] x
    [block_size] threads fills [C] with the repeated sum. *)
Lemma launch_matrixMulCUDA (bs gs : Z) (C : list float32) :
  0 < bs -> 0 < gs -> n = bs * gs -> n < 2 ^ 31 ->
  Z.of_nat (length C) = n * n ->
  launch (fun bi bd ti C => matrixMulCUDA bi bd ti C A B n)
         (Dim3 gs gs 1) (Dim3 bs bs 1) C
  = Some (replicate (Z.to_nat (n * n)) (dot_const n a b)).
Proof.
  intros Hbs Hgs Hn Hmax Hlen. unfold launch.
  rewrite (launch_matrixMulCUDA_fold bs gs) by done.
  f_equal. apply all_cells_replicate.
  - rewrite foldl_insert_length. lia.
  - intros k Hk. apply foldl_insert_lookup; [lia|]. right.
    set (row := Z.of_nat k / n). set (col := Z.of_nat k mod n).
    pose proof (Z.div_mod (Z.of_nat k) n ltac:(lia)) as Hk'.
    pose proof (Z.mod_pos_bound (Z.of_nat k) n n_pos) as Hcol.
    assert (0 <= row < n) as Hrow.
    { split; [apply Z.div_pos; lia|]. apply Z.div_lt_upper_bound; nia. }
    fold row col in Hk', Hcol.
    pose proof (Z.div_mod row bs ltac:(lia)) as Hr.
    pose proof (Z.mod_pos_bound row bs Hbs) as Hr'.
    pose proof (Z.div_mod col bs ltac:(lia)) as Hc.
    pose proof (Z.mod_pos_bound col bs Hbs) as Hc'.
    assert (0 <= row / bs < gs) as Hby.
    { split; [apply Z.div_pos; lia|]. apply Z.div_lt_upper_bound; nia. }
    assert (0 <= col / bs < gs) as Hbx.
    { split; [apply Z.div_pos; lia|]. apply Z.div_lt_upper_bound; nia. }
    exists (Dim3 (col / bs) (row / bs) 0, Dim3 (col mod bs) (row mod bs) 0).
    split.
    + apply launch_threads_elem. cbn. lia.
    + unfold thread_cell. cbn [fst snd dx dy].
      replace (row / bs * bs + row mod bs) with row by lia.
      replace (col / bs * bs + col mod bs) with col by lia.
      lia.
Qed.

(** The three loops of [serialMultiply] fill [h_C] with the same sum. *)
Lemma serial_loops_constant (h_C : list float32) :
  Z.of_nat (length h_C) = n * n ->
  serial_loops A B h_C n = Some (replicate (Z.to_nat (n * n)) (dot_const n a b)).
Proof.
  intros Hlen. unfold serial_loops.
  set (Inv := fun (pos : Z) (C : list float32) =>
    length C = length h_C /\
    forall k, (Z.of_nat k < pos) -> C !! k = Some (dot_const n a b)).
  destruct (for_range_inv (fun i C => Inv (i * n) C) 0 n
    (fun i h_C => for_range 0 n (fun j h_C =>
       sum ← for_range 0 n (fun k sum =>
                x ← buf_get A (i * n + k);
                y ← buf_get B (k * n + j);
                Some (f32_add sum (f32_mul x y))) f32_zero;
       buf_set h_C (i * n + j) sum) h_C) h_C) as (C & Hrun & HlenC & Hall).
  - lia.
  - split; [done|]. intros k Hk. lia.
  - intros i C0 Hi HP.
    destruct (for_range_inv (fun j C => Inv (i * n + j) C) 0 n
      (fun j h_C =>
         sum ← for_range 0 n (fun k sum =>
                  x ← buf_get A (i * n + k);
                  y ← buf_get B (k * n + j);
                  Some (f32_add sum (f32_mul x y))) f32_zero;
         buf_set h_C (i * n + j) sum) C0) as (C1 & Hrun & HQ).
    + lia.
    + by rewrite Z.add_0_r.
    + intros j C1 Hj [Hlen1 Hall1]. rewrite dot_loop by lia. cbn.
      rewrite buf_set_Some by nia. eexists. split; [done|]. split.
      * by rewrite length_insert.
      * intros k Hk. destruct (decide (k = Z.to_nat (i * n + j))) as [->|Hne].
        -- apply list_lookup_insert_eq. nia.
        -- rewrite list_lookup_insert_ne by done. apply Hall1. lia.
    + exists C1. split; [done|].
      replace ((i + 1) * n) with (i * n + n) by lia. done.
  - rewrite Hrun. f_equal. apply all_cells_replicate; [lia|].
    intros k Hk. apply Hall. nia.
Qed.
End ConstantProduct.

(** ** Kernels on device memory *)

(** After a fault the remaining threads change nothing. *)
Ltac fold_after_fault L :=
  match goal with
  | _ : context [foldl ?f None L] |- _ =>
      let HN := fresh "HN" in
      assert (forall L0, foldl f None L0 = None) as HN
        by (intros L0; induction L0 as [|? L0 IH0];
            [reflexivity | exact IH0]);
      rewrite HN in *
  | |- context [foldl ?f None L] =>
      let HN := fresh "HN" in
      assert (forall L0, foldl f None L0 = None) as HN
        by (intros L0; induction L0 as [|? L0 IH0];
            [reflexivity | exact IH0]);
      rewrite !HN
  end.

(** A kernel that keeps the set of live buffers keeps it over a launch. *)
Lemma launch_dom {T}
    (kernel : dim3 -> dim3 -> dim3 -> gmap nat (list T) ->
              option (gmap nat (list T)))
    (grid threads : dim3) (m m' : gmap nat (list T)) :
  (forall bi bd ti m m', kernel bi bd ti m = Some m' -> dom m' = dom m) ->
  launch kernel grid threads m = Some m' -> dom m' = dom m.
Proof.
  intros Hk. unfold launch. generalize (launch_threads grid threads).
  intros L. revert m. induction L as [|bt L IH]; intros m Hrun.
  - cbn in Hrun. by injection Hrun as <-.
  - cbn [foldl] in Hrun. cbn [mbind option_bind] in Hrun.
    destruct (kernel (fst bt) threads (snd bt) m) as [m1|] eqn:Hm1.
    + rewrite (IH m1 Hrun). by eapply Hk.
    + fold_after_fault L. discriminate Hrun.
Qed.

Lemma matrixMulCUDA_on_dom d_C d_A d_B n bi bd ti
    (m m' : gmap nat (list float32)) :
  Lab6.matrixMulCUDA_on d_C d_A d_B n bi bd ti m = Some m' -> dom m' = dom m.
Proof.
  unfold Lab6.matrixMulCUDA_on. intros H.
  destruct (m !! d_C) as [C|] eqn:HC; [|done].
  destruct (m !! d_A) as [A|]; [|done].
  destruct (m !! d_B) as [B|]; [|done]. cbn in H.
  destruct (matrixMulCUDA bi bd ti C A B n) as [C'|]; [|done].
  cbn in H. injection H as <-. apply dom_insert_lookup_L. by eexists.
Qed.

Lemma addKernel_dom c a b bi bd ti (m m' : gmap nat (list Z)) :
  Lab5.addKernel c a b bi bd ti m = Some m' -> dom m' = dom m.
Proof.
  unfold Lab5.addKernel. intros H.
  destruct (m !! a) as [va|]; [|done].
  destruct (m !! b) as [vb|]; [|done].
  destruct (m !! c) as [vc|] eqn:Hc; [|done]. cbn in H.
  destruct (buf_get va _) as [x|]; [|done].
  destruct (buf_get vb _) as [y|]; [|done]. cbn in H.
  destruct (buf_set vc _ _) as [vc'|]; [|done].
  cbn in H. injection H as <-. apply dom_insert_lookup_L. by eexists.
Qed.

(** The launch of [matrixMulCUDA] on device memory is the launch on the
    three buffers. *)
Lemma launch_matrixMulCUDA_on d_C d_A d_B n grid threads
    (m : gmap nat (list float32)) (C A B : list float32) :
  m !! d_C = Some C -> m !! d_A = Some A -> m !! d_B = Some B ->
  d_C <> d_A -> d_C <> d_B ->
  launch (Lab6.matrixMulCUDA_on d_C d_A d_B n) grid threads m
  = C' ← launch (fun bi bd ti C => matrixMulCUDA bi bd ti C A B n)
                grid threads C;
    Some (<[d_C := C']> m).
Proof.
  intros HC HA HB HCA HCB. unfold launch.
  generalize (launch_threads grid threads). intros L.
  revert m C HC HA HB. induction L as [|bt L IH]; intros m C HC HA HB.
  - cbn. by rewrite insert_id.
  - cbn [foldl]. cbn [mbind option_bind].
    unfold Lab6.matrixMulCUDA_on at 2. rewrite HC, HA, HB.
    cbn [mbind option_bind].
    destruct (matrixMulCUDA (fst bt) threads (snd bt) C A B n) as [C1|].
    + cbn [mbind option_bind]. rewrite (IH (<[d_C := C1]> m) C1).
      * destruct (foldl _ (Some C1) L); [|done]. cbn.
        by rewrite insert_insert_eq.
      * apply lookup_insert_eq.
      * by rewrite lookup_insert_ne.
      * by rewrite lookup_insert_ne.
    + cbn [mbind option_bind]. do 2 fold_after_fault L. reflexivity.
Qed.

(** ** Running programs of the monad *)

Lemma new_handle_fresh {T} (m : gmap nat (list T)) :
  new_handle m ∉ dom m /\ new_handle m <> 0%nat.
Proof.
  unfold new_handle.
  pose proof (is_fresh ({[0%nat]} ∪ dom m)) as H. set_solver.
Qed.

Section Exec.
Context {T : Type} (E : env T).
Implicit Types (w : world T).

Lemma exec_bind {A B} (m : M T A) (k : A -> M T B) w :
  (m ≫= k) w = match m w with
               | (Ret a, w1) => k a w1
               | (Exit s, w1) => (Exit s, w1)
               | (Fault, w1) => (Fault, w1)
               end.
Proof. reflexivity. Qed.

Lemma exec_mret {A} (a : A) w : (mret a : M T A) w = (Ret a, w).
Proof. reflexivity. Qed.

Lemma exec_emit {B} (c : call) (k : unit -> M T B) w :
  (emit c ≫= k) w = k tt (log c w).
Proof. reflexivity. Qed.

Lemma exec_printf {B} (msg : string) (k : unit -> M T B) w :
  (printf msg ≫= k) w = k tt (log (Output msg) w).
Proof. reflexivity. Qed.

Lemma exec_free {B} (k : unit -> M T B) w :
  (free ≫= k) w = k tt (log Free w).
Proof. reflexivity. Qed.

Lemma exec_exit {A B} (s : Z) (k : A -> M T B) w :
  (exit s ≫= k) w = (Exit s, w).
Proof. reflexivity. Qed.

Lemma exec_exit_last {A} (s : Z) w : (exit s : M T A) w = (Exit s, w).
Proof. reflexivity. Qed.

Lemma exec_lift {A B} (o : option A) (k : A -> M T B) w :
  (lift o ≫= k) w = match o with Some a => k a w | None => (Fault, w) end.
Proof. by destruct o. Qed.

Lemma exec_malloc {B} (bytes : Z) (k : option (list T) -> M T B) w :
  (malloc E bytes ≫= k) w
  = k (if malloc_null E (mallocs w) then None
       else Some (host_garbage E (mallocs w) <$> seq 0 (cells_of bytes)))
      (World (calls w) (S (mallocs w)) (clock_reads w) (last_error w)
             (dmem w) (trace w ++ [Malloc bytes])).
Proof.
  rewrite exec_bind. unfold malloc. by destruct (malloc_null E (mallocs w)).
Qed.

Lemma exec_cuda_call {B} (c : call) (k : cudaError_t -> M T B) w :
  (cuda_call E c ≫= k) w
  = k (cuda_result E (calls w))
      (World (S (calls w)) (mallocs w) (clock_reads w) (last_error w)
             (dmem w) (trace w ++ [c])).
Proof. reflexivity. Qed.

Lemma exec_exit_on_error {B} (error : cudaError_t) (msg : string)
    (k : unit -> M T B) w :
  (exit_on_error error msg ≫= k) w
  = if bool_decide (error = cudaSuccess) then k tt w
    else (Exit EXIT_FAILURE, log (Output msg) w).
Proof.
  rewrite exec_bind. unfold exit_on_error.
  destruct (decide (error = cudaSuccess)) as [He|He].
  - by rewrite bool_decide_eq_false_2, bool_decide_eq_true_2 by auto.
  - by rewrite bool_decide_eq_true_2, bool_decide_eq_false_2 by auto.
Qed.

Lemma exec_cudaMalloc {B} (ptr : nat) (bytes : Z)
    (k : cudaError_t * nat -> M T B) w :
  (cudaMalloc E ptr bytes ≫= k) w
  = let w1 := World (S (calls w)) (mallocs w) (clock_reads w) (last_error w)
                    (dmem w) (trace w ++ [CudaMalloc bytes]) in
    if bool_decide (cuda_result E (calls w) = cudaSuccess) then
      let h := new_handle (dmem w) in
      k (cuda_result E (calls w), h)
        (set_dmem (<[h := device_garbage E (calls w) <$> seq 0 (cells_of bytes)]>
                     (dmem w)) w1)
    else k (cuda_result E (calls w), ptr) w1.
Proof.
  rewrite exec_bind. unfold cudaMalloc, cuda_call. cbn.
  by destruct (bool_decide (cuda_result E (calls w) = cudaSuccess)).
Qed.

Lemma exec_cudaFree {B} (ptr : nat) (k : cudaError_t -> M T B) w :
  (cudaFree E ptr ≫= k) w
  = k (cuda_result E (calls w))
      (World (S (calls w)) (mallocs w) (clock_reads w) (last_error w)
             (if bool_decide (ptr = 0%nat) then dmem w
              else delete ptr (dmem w))
             (trace w ++ [CudaFree ptr])).
Proof. reflexivity. Qed.

Lemma exec_cudaMemcpyHtoD {B} (dst : nat) (src : list T) (bytes : Z)
    (k : cudaError_t -> M T B) w :
  (cudaMemcpyHtoD E dst src bytes ≫= k) w
  = let w1 := World (S (calls w)) (mallocs w) (clock_reads w) (last_error w)
                    (dmem w) (trace w ++ [CudaMemcpyHostToDevice dst bytes]) in
    if bool_decide (cuda_result E (calls w) = cudaSuccess) then
      match old ← dmem w !! dst; copy_cells old src bytes with
      | Some new =>
          k (cuda_result E (calls w)) (set_dmem (<[dst := new]> (dmem w)) w1)
      | None => (Fault, w1)
      end
    else k (cuda_result E (calls w)) w1.
Proof.
  rewrite exec_bind. unfold cudaMemcpyHtoD, bind, cuda_call. cbn.
  destruct (bool_decide (cuda_result E (calls w) = cudaSuccess)); [|done].
  by destruct (dmem w !! dst ≫= _).
Qed.

Lemma exec_cudaMemcpyDtoH {B} (dst : list T) (src : nat) (bytes : Z)
    (k : cudaError_t * list T -> M T B) w :
  (cudaMemcpyDtoH E dst src bytes ≫= k) w
  = let w1 := World (S (calls w)) (mallocs w) (clock_reads w) (last_error w)
                    (dmem w) (trace w ++ [CudaMemcpyDeviceToHost src bytes]) in
    if bool_decide (cuda_result E (calls w) = cudaSuccess) then
      match dev ← dmem w !! src; copy_cells dst dev bytes with
      | Some new => k (cuda_result E (calls w), new) w1
      | None => (Fault, w1)
      end
    else k (cuda_result E (calls w), dst) w1.
Proof.
  rewrite exec_bind. unfold cudaMemcpyDtoH, bind, cuda_call. cbn.
  destruct (bool_decide (cuda_result E (calls w) = cudaSuccess)); [|done].
  by destruct (dmem w !! src ≫= _).
Qed.

Lemma exec_kernel_launch {B} kernel (grid threads : dim3)
    (k : unit -> M T B) w :
  (kernel_launch E kernel grid threads ≫= k) w
  = let w1 := World (S (calls w)) (mallocs w) (clock_reads w)
                    (cuda_result E (calls w)) (dmem w)
                    (trace w ++ [KernelLaunch grid threads]) in
    if bool_decide (cuda_result E (calls w) = cudaSuccess) then
      match launch kernel grid threads (dmem w) with
      | Some m => k tt (set_dmem m w1)
      | None => (Fault, w1)
      end
    else k tt w1.
Proof.
  rewrite exec_bind. unfold kernel_launch, bind, cuda_call. cbn.
  destruct (bool_decide (cuda_result E (calls w) = cudaSuccess)); [|done].
  by destruct (launch kernel grid threads (dmem w)).
Qed.

Lemma exec_cudaGetLastError {B} (k : cudaError_t -> M T B) w :
  (cudaGetLastError ≫= k) w
  = k (last_error w)
      (World (calls w) (mallocs w) (clock_reads w) cudaSuccess (dmem w)
             (trace w ++ [CudaGetLastError])).
Proof. reflexivity. Qed.

Lemma exec_cudaEventElapsedTime {B} (e1 e2 : cudaEvent)
    (k : cudaError_t * float32 -> M T B) w :
  (cudaEventElapsedTime E e1 e2 ≫= k) w
  = k (cuda_result E (calls w), event_msec E (calls w))
      (World (S (calls w)) (mallocs w) (clock_reads w) (last_error w)
             (dmem w) (trace w ++ [CudaEventElapsedTime e1 e2])).
Proof. reflexivity. Qed.

Lemma exec_steady_clock_now {B} (k : Z -> M T B) w :
  (steady_clock_now E ≫= k) w
  = k (steady_clock E (clock_reads w))
      (World (calls w) (mallocs w) (S (clock_reads w)) (last_error w)
             (dmem w) (trace w ++ [SteadyClockNow])).
Proof. reflexivity. Qed.
End Exec.

(** One statement of the program in the goal is run. *)
Ltac exec_head :=
  lazymatch goal with
  | |- (?m ≫= _) _ = _ -> _ =>
      lazymatch m with
      | printf _ => rewrite exec_printf
      | emit _ => rewrite exec_emit
      | free => rewrite exec_free
      | exit _ => rewrite exec_exit
      | lift _ => rewrite exec_lift
      | malloc _ _ => rewrite exec_malloc
      | cuda_call _ _ => rewrite exec_cuda_call
      | exit_on_error _ _ => rewrite exec_exit_on_error
      | cudaMalloc _ _ _ => rewrite exec_cudaMalloc
      | cudaFree _ _ => rewrite exec_cudaFree
      | cudaMemcpyHtoD _ _ _ _ => rewrite exec_cudaMemcpyHtoD
      | cudaMemcpyDtoH _ _ _ _ => rewrite exec_cudaMemcpyDtoH
      | kernel_launch _ _ _ _ => rewrite exec_kernel_launch
      | cudaGetLastError => rewrite exec_cudaGetLastError
      | cudaEventElapsedTime _ _ _ => rewrite exec_cudaEventElapsedTime
      | steady_clock_now _ => rewrite exec_steady_clock_now
      end
  | |- mret _ _ = _ -> _ => rewrite exec_mret
  | |- exit _ _ = _ -> _ => rewrite exec_exit_last
  end.

(** The device pointer that [cudaMalloc] returns is given a name; what is
    kept about it is that it was not live and is not the null pointer. *)
Ltac name_handles :=
  repeat match goal with
         | |- context [new_handle ?m] =>
             let h := fresh "h" in
             let Hh := fresh "Hh" in
             pose proof (new_handle_fresh m) as Hh;
             generalize dependent (new_handle m); intros h Hh
         end.

Ltac exec_simpl :=
  cbv beta iota zeta; unfold log, set_dmem;
  cbn [calls mallocs clock_reads last_error dmem trace].

(** One statement of the program in the goal is run. *)
Ltac exec_step :=
  lazymatch goal with
  | |- (?m ≫= _) _ = _ -> _ =>
      lazymatch m with
      | printf _ => rewrite exec_printf; exec_simpl
      | emit _ => rewrite exec_emit; exec_simpl
      | free => rewrite exec_free; exec_simpl
      | exit _ => rewrite exec_exit; exec_simpl
      | lift _ => rewrite exec_lift; exec_simpl
      | malloc _ _ => rewrite exec_malloc; exec_simpl
      | cuda_call _ _ => rewrite exec_cuda_call; exec_simpl
      | exit_on_error _ _ => rewrite exec_exit_on_error; exec_simpl
      | cudaMalloc _ _ _ => rewrite exec_cudaMalloc; exec_simpl; name_handles
      | cudaFree _ _ => rewrite exec_cudaFree; exec_simpl
      | cudaMemcpyHtoD _ _ _ _ => rewrite exec_cudaMemcpyHtoD; exec_simpl
      | cudaMemcpyDtoH _ _ _ _ => rewrite exec_cudaMemcpyDtoH; exec_simpl
      | kernel_launch _ _ _ _ => rewrite exec_kernel_launch; exec_simpl
      | cudaGetLastError => rewrite exec_cudaGetLastError; exec_simpl
      | cudaEventElapsedTime _ _ _ =>
          rewrite exec_cudaEventElapsedTime; exec_simpl
      | steady_clock_now _ => rewrite exec_steady_clock_now; exec_simpl
      end
  | |- mret _ _ = _ -> _ => rewrite exec_mret
  | |- exit _ _ = _ -> _ => rewrite exec_exit_last
  end.

(** A test of the program in the goal is decided, from the context when it
    is known there, by cases otherwise. *)
Ltac exec_decide P :=
  first
    [ rewrite (bool_decide_eq_true_2 P) by assumption
    | rewrite (bool_decide_eq_false_2 P) by assumption
    | let Hd := fresh "Hd" in
      destruct (decide P) as [Hd|Hd];
      [ rewrite (bool_decide_eq_true_2 P Hd)
      | rewrite (bool_decide_eq_false_2 P Hd) ];
      try contradiction ].

Ltac exec_branch :=
  lazymatch goal with
  | |- (if bool_decide ?P then _ else _) = _ -> _ => exec_decide P
  | |- (if bool_decide ?P then _ else _) _ = _ -> _ => exec_decide P
  | |- (if ?c then _ else _) = _ -> _ =>
      let Hc := fresh "Hc" in destruct c eqn:Hc
  | |- match ?o with Some _ => _ | None => _ end = _ -> _ =>
      let Ho := fresh "Ho" in destruct o eqn:Ho
  | |- (match (if ?c then _ else _) with Some _ => _ | None => _ end) _ = _
       -> _ =>
      let Hc := fresh "Hc" in destruct c eqn:Hc
  | |- (match ?o with Some _ => _ | None => _ end) _ = _ -> _ =>
      let Ho := fresh "Ho" in destruct o eqn:Ho
  | |- (let '(_, _) := ?p in _) _ = _ -> _ => destruct p
  end;
  cbv beta iota.

Ltac exec := repeat first [exec_step | exec_branch].

Lemma pair_inj {A B} (a c : A) (b d : B) : (a, b) = (c, d) -> a = c /\ b = d.
Proof. intros H. split; [exact (f_equal fst H) | exact (f_equal snd H)]. Qed.

(** At the end of a run: the outcome [o] and the final state [w'] of the
    statement are the ones that were computed. *)
Ltac exec_end :=
  lazymatch goal with
  | |- _ = (?o, ?w') -> _ =>
      let H := fresh "Hrun" in
      intros H; apply pair_inj in H as [? ?]; subst o w'
  end.


(** ** The calls of the accelerated multiplier *)

Ltac script_at k :=
  exists k; first
    [ exists []; split; [reflexivity|]; split; [by left|]
    | exists [Output ""]; split; [reflexivity|]; split; [by right|] ];
  split; [lia|];
  split; [ intros ? [= <-]; split; [reflexivity|lia] | intros ? [=] ].

Ltac script_ret :=
  exists 26%nat, []; split; [reflexivity|]; split; [by left|];
  split; [lia|]; split; [ intros ? [=] | done ].

Ltac script_fault k :=
  exists k, []; split; [reflexivity|]; split; [by left|];
  split; [lia|]; split; [ intros ? [=] | intros ? [=] ].

Ltac script_from k :=
  first [ script_at k | script_fault k
        | lazymatch k with
          | 30%nat => fail
          | _ => script_from constr:(S k)
          end ].

(** Whatever the environment answers, the calls of [matrixMultiply] are a
    prefix of the script, followed by the message of the error when the run
    ends in [exit]. *)
Lemma matrixMultiply_calls E b g n (w w' : world float32) o :
  Lab6.matrixMultiply E b g n w = (o, w') ->
  exists seg, trace w' = trace w ++ seg /\
  exists (k : nat) extra,
    erase <$> seg = take k matrixMultiply_script ++ extra /\
    (extra = [] \/ extra = [Output ""]) /\
    (2 <= k)%nat /\
    (forall s, o = Exit s -> s = EXIT_FAILURE /\ (k <= 19)%nat) /\
    (forall r, o = Ret r -> k = 26%nat /\ extra = []).
Proof.
  unfold Lab6.matrixMultiply. cbv beta zeta. exec.
  all: exec_end; cbn [trace].
  all: eexists; (split; [rewrite <- ?app_assoc; reflexivity|]).
  all: first [script_ret | script_from 0%nat].
Qed.

(** ** Live device buffers *)

Lemma dom_copy_insert {T} (m : gmap nat (list T)) (h : nat) (src new : list T)
    (bytes : Z) :
  (old ← m !! h; copy_cells old src bytes) = Some new ->
  dom (<[h := new]> m) = dom m.
Proof.
  intros H. destruct (m !! h) as [old|] eqn:Hh; [|done].
  apply dom_insert_lookup_L. by eexists.
Qed.

Lemma dom_cudaFree {T} (m : gmap nat (list T)) (p : nat) :
  dom (if bool_decide (p = 0%nat) then m else delete p m)
  = dom m ∖ ({[p]} ∖ {[0%nat]}).
Proof.
  case_bool_decide; [set_solver|]. rewrite dom_delete_L. set_solver.
Qed.

(** What the context says about the live buffers is put in terms of the
    buffers live at the start and of the new pointers. *)
Ltac dom_facts :=
  repeat match goal with
         | H : launch (Lab6.matrixMulCUDA_on _ _ _ _) _ _ _ = Some _ |- _ =>
             apply (launch_dom _ _ _ _ _
                      (matrixMulCUDA_on_dom _ _ _ _)) in H
         | H : launch (Lab5.addKernel _ _ _) _ _ _ = Some _ |- _ =>
             apply (launch_dom _ _ _ _ _ (addKernel_dom _ _ _)) in H
         | H : (_ ← _ !! _; copy_cells _ _ _) = Some _ |- _ =>
             apply dom_copy_insert in H
         end;
  rewrite ?dom_cudaFree;
  repeat match goal with
         | H : dom _ = _ |- _ => rewrite H; clear H
         end;
  repeat match goal with
         | H : _ ∉ dom _ /\ _ |- _ =>
             rewrite ?dom_insert_L in H; destruct H
         end;
  rewrite ?dom_insert_L.

(** [matrixMultiply]: a run that returns has released the three buffers; a
    run that ends in [exit] has released none. *)
Lemma matrixMultiply_dom E b g n (w w' : world float32) o :
  Lab6.matrixMultiply E b g n w = (o, w') ->
  (forall r, o = Ret r -> dom (dmem w') = dom (dmem w)) /\
  (forall s, o = Exit s -> dom (dmem w) ⊆ dom (dmem w')).
Proof.
  unfold Lab6.matrixMultiply. cbv beta zeta. exec.
  all: exec_end; cbn [dmem].
  all: split; [intros ? [=] | intros ? [=]].
  all: dom_facts; set_solver.
Qed.

(** ** [addWithCuda]: what is live at the label [Error] *)

(** When the label [Error] is reached, the live buffers are those of the
    start and the buffers of the three pointers that are not null, none of
    which was live at the start. *)
Lemma addWithCuda_body_dom E c a b X Y (w w' : world Z) o :
  Lab5.addWithCuda_body E c a b X Y w = (o, w') ->
  (forall s, o <> Exit s) /\
  (forall st da db dc c', o = Ret (st, da, db, dc, c') ->
     dom (dmem w') = dom (dmem w) ∪ ({[dc; da; db]} ∖ {[0%nat]}) /\
     (forall x, x ∈ ({[dc; da; db]} : gset nat) -> x <> 0%nat ->
                x ∉ dom (dmem w))).
Proof.
  unfold Lab5.addWithCuda_body. cbv beta zeta. exec.
  all: exec_end; cbn [dmem].
  all: split; [done|].
  all: intros st da db dc c' Heq; try discriminate Heq.
  all: injection Heq as <- <- <- <- <-.
  all: dom_facts.
  all: set_solver.
Qed.

(** [addWithCuda] never ends in [exit], and when it returns the live
    buffers are those of the start. *)
Lemma addWithCuda_dom E c a b X Y (w w' : world Z) o :
  Lab5.addWithCuda E c a b X Y w = (o, w') ->
  (forall s, o <> Exit s) /\
  (forall r, o = Ret r -> dom (dmem w') = dom (dmem w)).
Proof.
  unfold Lab5.addWithCuda. rewrite exec_bind.
  destruct (Lab5.addWithCuda_body E c a b X Y w) as [o1 w1] eqn:Hbody.
  apply addWithCuda_body_dom in Hbody as [Hexit Hret].
  destruct o1 as [[[[[st da] db] dc] c']|s|]; [|by destruct (Hexit s)|].
  - destruct (Hret st da db dc c' eq_refl) as [Hdom Hnew].
    cbv beta iota. exec. exec_end. cbn [dmem].
    split; [done|]. intros r _.
    rewrite !dom_cudaFree, Hdom. set_solver.
  - intros [= <- <-]. split; done.
Qed.

(** ** Runs of the multipliers on valid shapes *)

Lemma valid_launch_sizes (bs gs n : Z) :
  valid_launch bs gs n ->
  0 < n /\ n < 2 ^ 31 /\
  to_uint bs = bs /\ to_uint gs = gs /\
  to_uint (n * n) = n * n /\ to_int (n * n) = n * n /\
  to_uint (sizeof_float * (n * n)) = 4 * (n * n) /\
  to_uint (n * n * sizeof_float) = 4 * (n * n) /\
  cells_of (4 * (n * n)) = Z.to_nat (n * n).
Proof.
  intros (Hbs & Hgs & Hn & Hmax). unfold sizeof_float, cells_of.
  assert (0 < n) as Hpos by nia.
  assert (n < 2 ^ 15) as Hn15 by nia.
  assert (bs <= n) by nia. assert (gs <= n) by nia.
  split; [lia|]. split; [lia|].
  split; [apply to_uint_small; lia|].
  split; [apply to_uint_small; lia|].
  split; [apply to_uint_small; lia|].
  split; [apply to_int_small; lia|].
  split; [apply to_uint_small; lia|].
  split; [rewrite to_uint_small; lia|].
  f_equal. rewrite Z.mul_comm. apply Z.div_mul. lia.
Qed.

Lemma constantInit_nil (size : Z) (val : float32) :
  0 < size -> constantInit [] size val = None.
Proof.
  intros H. unfold constantInit, for_range.
  destruct (Z.to_nat (size - 0)) as [|c] eqn:Hc; [lia|]. reflexivity.
Qed.

Lemma copy_cells_full {T} (dst src : list T) (bytes : Z) :
  length src = cells_of bytes -> length dst = cells_of bytes ->
  copy_cells dst src bytes = Some src.
Proof.
  intros Hs Hd. unfold copy_cells.
  rewrite !bool_decide_eq_true_2 by lia. cbn.
  rewrite <- Hs at 1. rewrite firstn_all, drop_ge by lia.
  by rewrite app_nil_r.
Qed.

Lemma checkCorrectness_defined (v : list float32) (X Y : Z) :
  0 <= X -> 0 <= Y -> X * Y <= Z.of_nat (length v) -> (0 < length v)%nat ->
  is_Some (checkCorrectness v X Y).
Proof.
  intros HX HY Hlen Hne. rewrite checkCorrectness_scan.
  destruct v as [|value v']; [cbn in Hne; lia|].
  change (buf_get (value :: v') 0) with (Some value). cbn [mbind option_bind].
  destruct (scan_cases (value :: v') value (Z.to_nat X * Z.to_nat Y) 0)
    as [Hall|(m & Hm & Hall & Hbad)]; [lia|nia| |].
  - rewrite scan_clean by (done || lia). by eexists.
  - rewrite (scan_first_mismatch _ _ _ 0 [0] m) by (done || lia). by eexists.
Qed.
Lemma deref_Some {T} (v : list T) : deref (Some v) = v.
Proof. reflexivity. Qed.
Lemma deref_None {T} : deref (None : option (list T)) = [].
Proof. reflexivity. Qed.

(** A run that has met a failure of the environment does not return. *)
Ltac dead_leaf :=
  exec_end;
  split;
  [ intros ? ? [=]
  | intros [Hcu Hma]; exfalso;
    first
      [ match goal with
        | H : cuda_result _ ?k <> cudaSuccess |- _ => exact (H (Hcu k))
        end
      | match goal with
        | H : malloc_null _ ?k = true |- _ =>
            rewrite Hma in H; discriminate H
        end ] ].

Ltac kill_dead :=
  try (lazymatch goal with
       | H : cuda_result _ _ <> cudaSuccess |- _ => idtac
       | H : malloc_null _ _ = true |- _ => idtac
       end; exec; dead_leaf).

(** Tests on the answers of the environment only. *)
Ltac env_branch :=
  lazymatch goal with
  | |- (if bool_decide ?P then _ else _) = _ -> _ => exec_decide P
  | |- (if bool_decide ?P then _ else _) _ = _ -> _ => exec_decide P
  | |- (match (if ?c then _ else _) with Some _ => _ | None => _ end) _ = _
       -> _ =>
      let Hc := fresh "Hc" in destruct c eqn:Hc
  end;
  cbv beta iota.

Ltac run_env := repeat (first [exec_step | env_branch]; kill_dead).

Lemma matrixMultiply_valid E bs gs n (w w' : world float32) o :
  valid_launch bs gs n ->
  Lab6.matrixMultiply E bs gs n w = (o, w') ->
  (forall t C, o = Ret (t, C) ->
     C = replicate (Z.to_nat (n * n)) (dot_const n valA valB)) /\
  (cooperative E -> exists r, o = Ret r).
Proof.
  intros Hvalid.
  destruct (valid_launch_sizes bs gs n Hvalid)
    as (Hn & Hn31 & Hbs & Hgs & Hu & Hi & Hm1 & Hm2 & Hcells).
  destruct Hvalid as (Hbs0 & Hgs0 & Hprod & Hmax).
  unfold Lab6.matrixMultiply. cbv beta zeta.
  rewrite Hbs, Hgs, Hu, Hi, Hm1, Hm2.
  set (N := Z.to_nat (n * n)) in *.
  exec_step. exec_step. rewrite Hcells.
  destruct (malloc_null E (mallocs w)) eqn:HnA;
    rewrite ?deref_Some, ?deref_None.
  { rewrite constantInit_nil by lia. exec. dead_leaf. }
  rewrite (constantInit_full (host_garbage E (mallocs w) <$> seq 0 N))
    by (rewrite length_fmap, length_seq; lia).
  rewrite length_fmap, length_seq. exec_step.
  destruct (malloc_null E (S (mallocs w))) eqn:HnB;
    rewrite ?deref_Some, ?deref_None.
  { rewrite constantInit_nil by lia. exec. dead_leaf. }
  rewrite (constantInit_full (host_garbage E (S (mallocs w)) <$> seq 0 N))
    by (rewrite length_fmap, length_seq; lia).
  rewrite length_fmap, length_seq. exec_step.
  run_env.
  rewrite ?Hcells in *.
  assert (h0 <> h) as Hne0.
  { intros ->. apply (proj1 Hh0). rewrite dom_insert_L. set_solver. }
  assert (h1 <> h0 /\ h1 <> h) as [Hne1 Hne2].
  { split; intros ->; apply (proj1 Hh1); rewrite !dom_insert_L; set_solver. }
  clear Hh Hh0 Hh1.
  set (gA := device_garbage E (calls w) <$> seq 0 N).
  set (gB := device_garbage E (S (calls w)) <$> seq 0 N).
  set (gC := device_garbage E (S (S (calls w))) <$> seq 0 N).
  assert (length gA = N /\ length gB = N /\ length gC = N) as (HgA & HgB & HgC)
    by (subst gA gB gC; rewrite !length_fmap, !length_seq; done).
  (* the copy of A *)
  rewrite lookup_insert_ne, lookup_insert_ne, lookup_insert_eq by done.
  cbn [mbind option_bind].
  rewrite copy_cells_full by (rewrite ?length_replicate, ?Hcells; done).
  cbv beta iota.
  run_env.
  (* the copy of B *)
  rewrite lookup_insert_ne, lookup_insert_ne, lookup_insert_eq by done.
  cbn [mbind option_bind].
  rewrite copy_cells_full by (rewrite ?length_replicate, ?Hcells; done).
  cbv beta iota.
  run_env.
  (* the kernel *)
  subst N.
  rewrite (launch_matrixMulCUDA_on h1 h h0 n _ _ _ gC
             (replicate (Z.to_nat (n * n)) valA)
             (replicate (Z.to_nat (n * n)) valB));
    [ | rewrite lookup_insert_ne, lookup_insert_ne, lookup_insert_eq by done;
        done
      | rewrite lookup_insert_ne, lookup_insert_eq by done; done
      | rewrite lookup_insert_eq; done
      | done | done ].
  rewrite (launch_matrixMulCUDA n valA valB Hn bs gs gC) by (done || lia).
  cbn [mbind option_bind]. cbv beta iota.
  run_env.
  (* the copy of C *)
  rewrite lookup_insert_eq. cbn [mbind option_bind].
  rewrite copy_cells_full
    by (rewrite ?length_replicate, ?length_fmap, ?length_seq, ?Hcells; done).
  cbv beta iota.
  run_env.
  (* the check *)
  destruct (checkCorrectness_defined
              (replicate (Z.to_nat (n * n)) (dot_const n valA valB)) n n)
    as [[msg lg] Hcheck];
    [lia | lia | rewrite length_replicate; lia
    | rewrite length_replicate; lia |].
  rewrite Hcheck. cbv beta iota.
  run_env.
  exec_end. split.
  - intros t C [= _ <-]. reflexivity.
  - intros _. eexists. reflexivity.
Qed.
Lemma for_range_first_None {St} lo hi (body : Z -> St -> option St) s :
  lo < hi -> body lo s = None -> for_range lo hi body s = None.
Proof.
  intros Hlt Hb. unfold for_range.
  destruct (Z.to_nat (hi - lo)) as [|c] eqn:Hc; [lia|].
  cbn [for_loop]. by rewrite Hb.
Qed.

Lemma serial_loops_nil (n : Z) (a b : float32) :
  0 < n ->
  serial_loops (replicate (Z.to_nat (n * n)) a) (replicate (Z.to_nat (n * n)) b)
               [] n = None.
Proof.
  intros Hn. unfold serial_loops.
  apply for_range_first_None; [done|].
  apply for_range_first_None; [done|].
  rewrite (dot_loop n a b Hn 0 0) by lia. reflexivity.
Qed.

Lemma serialMultiply_valid E n (w w' : world float32) o :
  0 < n -> n * n < 2 ^ 30 ->
  Lab6.serialMultiply E n w = (o, w') ->
  (forall t C, o = Ret (t, C) ->
     C = replicate (Z.to_nat (n * n)) (dot_const n valA valB)) /\
  (cooperative E -> exists r, o = Ret r).
Proof.
  intros Hn Hmax.
  destruct (valid_launch_sizes n 1 n)
    as (_ & Hn31 & _ & _ & Hu & Hi & Hm1 & Hm2 & Hcells);
    [unfold valid_launch; lia|].
  unfold Lab6.serialMultiply. cbv beta zeta.
  rewrite Hu, Hi, Hm1, Hm2.
  exec_step. exec_step. rewrite Hcells.
  destruct (malloc_null E (mallocs w)) eqn:HnA;
    rewrite ?deref_Some, ?deref_None.
  { rewrite constantInit_nil by lia. exec. dead_leaf. }
  rewrite (constantInit_full
             (host_garbage E (mallocs w) <$> seq 0 (Z.to_nat (n * n))))
    by (rewrite length_fmap, length_seq; lia).
  rewrite length_fmap, length_seq. exec_step.
  destruct (malloc_null E (S (mallocs w))) eqn:HnB;
    rewrite ?deref_Some, ?deref_None.
  { rewrite constantInit_nil by lia. exec. dead_leaf. }
  rewrite (constantInit_full
             (host_garbage E (S (mallocs w)) <$> seq 0 (Z.to_nat (n * n))))
    by (rewrite length_fmap, length_seq; lia).
  rewrite length_fmap, length_seq. exec_step.
  exec_step. exec_step. rewrite Hcells.
  destruct (malloc_null E (S (S (mallocs w)))) eqn:HnC;
    rewrite ?deref_Some, ?deref_None.
  { rewrite serial_loops_nil by lia. exec. dead_leaf. }
  rewrite (serial_loops_constant n valA valB Hn)
    by (rewrite length_fmap, length_seq; lia).
  destruct (checkCorrectness_defined
              (replicate (Z.to_nat (n * n)) (dot_const n valA valB)) n n)
    as [[msg lg] Hcheck];
    [lia | lia | rewrite length_replicate; lia
    | rewrite length_replicate; lia |].
  exec_step. exec_step. exec_step. rewrite Hcheck. exec.
  exec_end. split.
  - intros t C [= _ <-]. reflexivity.
  - intros _. eexists. reflexivity.
Qed.

(** The calls of [serialMultiply] are added to the trace. *)
Lemma serialMultiply_calls E n (w w' : world float32) o :
  Lab6.serialMultiply E n w = (o, w') ->
  exists seg, trace w' = trace w ++ seg.
Proof.
  unfold Lab6.serialMultiply. cbv beta zeta. exec.
  all: exec_end; cbn [trace].
  all: eexists; rewrite <- ?app_assoc; reflexivity.
Qed.

(** ** The driver *)

(** The calls of the driver are added to the trace. *)
Lemma main_loop_calls E inputs bs (w w' : world float32) o :
  Lab6.main_loop E inputs bs w = (o, w') ->
  exists seg, trace w' = trace w ++ seg.
Proof.
  revert bs w. induction inputs as [|[b g] inputs IH]; intros bs w.
  - cbn [Lab6.main_loop]. exec.
    all: exec_end; cbn [trace]; eexists; rewrite <- ?app_assoc;
      try reflexivity.
    by rewrite app_nil_r.
  - cbn [Lab6.main_loop]. cbv beta zeta. exec_branch.
    + exec. rewrite exec_bind.
      match goal with
      | |- context [Lab6.matrixMultiply E b g ?n ?w0] =>
          destruct (Lab6.matrixMultiply E b g n w0) as [o1 w1] eqn:Hmm
      end.
      apply matrixMultiply_calls in Hmm as (seg1 & Htr1 & _).
      cbn [trace] in Htr1.
      destruct o1 as [r1| |].
      * rewrite exec_bind.
        match goal with
        | |- context [Lab6.serialMultiply E ?n ?w0] =>
            destruct (Lab6.serialMultiply E n w0) as [o2 w2] eqn:Hsm
        end.
        apply serialMultiply_calls in Hsm as (seg2 & Htr2).
        destruct o2 as [r2| |].
        -- exec_step. intros Hrest. apply IH in Hrest as (seg3 & Htr3).
           cbn [trace] in Htr3. rewrite Htr3, Htr2, Htr1.
           eexists. rewrite <- !app_assoc. reflexivity.
        -- exec_end. rewrite Htr2, Htr1.
           eexists. rewrite <- !app_assoc. reflexivity.
        -- exec_end. rewrite Htr2, Htr1.
           eexists. rewrite <- !app_assoc. reflexivity.
      * exec_end. rewrite Htr1. eexists. rewrite <- !app_assoc. reflexivity.
      * exec_end. rewrite Htr1. eexists. rewrite <- !app_assoc. reflexivity.
    + exec. exec_end. eexists. by rewrite app_nil_r.
Qed.

(** An iteration of the loop reads the two shapes and goes on to the
    accelerated multiplier, whose first calls are the allocations of [h_A]
    and [h_B]: the shapes are not examined before. *)
Lemma main_loop_iteration E b g inputs bs (w w' : world float32) o :
  0 < bs ->
  Lab6.main_loop E ((b, g) :: inputs) bs w = (o, w') ->
  exists m1 m2 tl,
    trace w' = trace w ++
      [ Output "[-] Block Size = "; Scanf b; Output "[-] Grid Size = "; Scanf g;
        Output "Tile Width: 32"; Output "MatrixA(%d,%d), MatrixB(%d,%d)";
        Malloc m1; Malloc m2 ] ++ tl.
Proof.
  intros Hbs. cbn [Lab6.main_loop]. cbv beta zeta.
  rewrite (bool_decide_eq_true_2 (bs > 0)) by lia.
  exec. rewrite exec_bind.
  match goal with
  | |- context [Lab6.matrixMultiply E b g ?n ?w0] =>
      destruct (Lab6.matrixMultiply E b g n w0) as [o1 w1] eqn:Hmm
  end.
  pose proof Hmm as Hshape.
  apply matrixMultiply_calls in Hshape
    as (seg1 & Htr1 & k & extra & Hshape & _ & Hk & _).
  cbn [trace] in Htr1.
  assert (exists m1 m2 tl1, seg1 = Malloc m1 :: Malloc m2 :: tl1)
    as (m1 & m2 & tl1 & ->).
  { destruct k as [|[|k]]; [lia|lia|].
    destruct seg1 as [|c1 [|c2 tl1]]; try discriminate Hshape.
    cbn in Hshape. injection Hshape as H1 H2 _.
    destruct c1; try discriminate H1. destruct c2; try discriminate H2.
    by eexists _, _, _. }
  assert (forall o' w'', (o', w'') = (o, w') ->
            (exists seg, trace w'' = trace w1 ++ seg) ->
            exists m1 m2 tl,
              trace w' = trace w ++
                [ Output "[-] Block Size = "; Scanf b; Output "[-] Grid Size = ";
                  Scanf g; Output "Tile Width: 32";
                  Output "MatrixA(%d,%d), MatrixB(%d,%d)";
                  Malloc m1; Malloc m2 ] ++ tl) as Hfin.
  { intros o' w'' [= _ <-] (seg & Hseg). rewrite Hseg, Htr1.
    exists m1, m2, (tl1 ++ seg). rewrite <- !app_assoc. reflexivity. }
  destruct o1 as [r1| |].
  - rewrite exec_bind.
    match goal with
    | |- context [Lab6.serialMultiply E ?n ?w0] =>
        destruct (Lab6.serialMultiply E n w0) as [o2 w2] eqn:Hsm
    end.
    apply serialMultiply_calls in Hsm as (seg2 & Htr2).
    destruct o2 as [r2| |].
    + exec_step. intros Hrest.
      apply main_loop_calls in Hrest as (seg3 & Htr3). cbn [trace] in Htr3.
      apply (Hfin o w' eq_refl). rewrite Htr3, Htr2.
      eexists. rewrite <- !app_assoc. reflexivity.
    + intros Heq. apply (Hfin _ _ Heq). by eexists.
    + intros Heq. apply (Hfin _ _ Heq). by eexists.
  - intros Heq. apply (Hfin _ _ Heq). exists []. by rewrite app_nil_r.
  - intros Heq. apply (Hfin _ _ Heq). exists []. by rewrite app_nil_r.
Qed.
Lemma serialMultiply_no_exit E n (w w' : world float32) o :
  Lab6.serialMultiply E n w = (o, w') -> forall s, o <> Exit s.
Proof.
  unfold Lab6.serialMultiply. cbv beta zeta. exec.
  all: exec_end; done.
Qed.

(** The [exit(0)] that follows the loop is reached only when the last
    worker-group shape that was read is not positive. *)
Lemma main_loop_normal_exit E inputs bs (w w' : world float32) o :
  Lab6.main_loop E inputs bs w = (o, w') -> o = Exit EXIT_SUCCESS ->
  bs <= 0 \/ exists pre b g post, inputs = pre ++ (b, g) :: post /\ b <= 0.
Proof.
  revert bs w w' o. induction inputs as [|[b g] inputs IH]; intros bs w w' o.
  - cbn [Lab6.main_loop]. exec_branch.
    + exec. exec_end. discriminate.
    + exec. exec_end. intros _. left. lia.
  - cbn [Lab6.main_loop]. cbv beta zeta. exec_branch.
    + exec. rewrite exec_bind.
      match goal with
      | |- context [Lab6.matrixMultiply E b g ?n ?w0] =>
          destruct (Lab6.matrixMultiply E b g n w0) as [o1 w1] eqn:Hmm
      end.
      apply matrixMultiply_calls in Hmm
        as (seg1 & _ & k & extra & _ & _ & _ & Hk & _).
      destruct o1 as [r1|s1|].
      * rewrite exec_bind.
        match goal with
        | |- context [Lab6.serialMultiply E ?n ?w0] =>
            destruct (Lab6.serialMultiply E n w0) as [o2 w2] eqn:Hsm
        end.
        pose proof (serialMultiply_no_exit _ _ _ _ _ Hsm) as Hne.
        destruct o2 as [r2|s2|].
        -- exec_step. intros Hrest Ho. right.
           destruct (IH _ _ _ _ Hrest Ho)
             as [Hb|(pre & b' & g' & post & -> & Hb')].
           ++ by exists [], b, g, inputs.
           ++ by exists ((b, g) :: pre), b', g', post.
        -- by destruct (Hne s2).
        -- exec_end. discriminate.
      * exec_end. intros [= ->]. by destruct (Hk _ eq_refl).
      * exec_end. discriminate.
    + exec. exec_end. intros _. left. lia.
Qed.

(** ** The order of the calls of the accelerated multiplier *)

Lemma erase_print c : erase c = Output "" -> exists msg, c = Output msg.
Proof. destruct c; try discriminate. by eexists. Qed.

(** A call of a run that is not a message is at its place in the script. *)
Lemma script_lookup (seg : list call) (k : nat) extra (i : nat) (c : call) :
  erase <$> seg = take k matrixMultiply_script ++ extra ->
  extra = [] \/ extra = [Output ""] ->
  seg !! i = Some c -> (forall msg, c <> Output msg) ->
  (i < k)%nat /\ matrixMultiply_script !! i = Some (erase c).
Proof.
  intros Hshape Hextra Hi Hc.
  assert ((erase <$> seg) !! i = Some (erase c)) as He
    by (rewrite list_lookup_fmap, Hi; done).
  rewrite Hshape in He. apply lookup_app_Some in He as [He|[Hlen He]].
  - apply lookup_take_Some in He as [He Hik]. done.
  - destruct Hextra as [-> | ->].
    + by rewrite lookup_nil in He.
    + apply list_lookup_singleton_Some in He as [_ He].
      symmetry in He. apply erase_print in He as [msg ->].
      by destruct (Hc msg).
Qed.

(** The places of the script below [k] are calls of the run. *)
Lemma script_lookup_inv (seg : list call) (k : nat) extra (i : nat) (e : call) :
  erase <$> seg = take k matrixMultiply_script ++ extra ->
  (i < k)%nat -> matrixMultiply_script !! i = Some e ->
  exists c, seg !! i = Some c /\ erase c = e.
Proof.
  intros Hshape Hik He.
  assert ((erase <$> seg) !! i = Some e) as Hl.
  { rewrite Hshape. apply lookup_app_l_Some. by rewrite lookup_take_lt. }
  rewrite list_lookup_fmap in Hl.
  destruct (seg !! i) as [c|]; [|done]. injection Hl as <-. by exists c.
Qed.

(** The places of a call in the script. *)
Lemma script_places (i : nat) (e : call) :
  matrixMultiply_script !! i = Some e ->
  In (i, e) (combine (seq 0 26) matrixMultiply_script).
Proof.
  unfold matrixMultiply_script. intros H.
  do 26 (destruct i as [|i];
         [ injection H as <-; cbn; repeat first [left; reflexivity | right]
         | cbn in H ]).
  discriminate H.
Qed.

Ltac script_place H :=
  apply script_places in H; cbn in H;
  decompose [or] H; clear H; try contradiction; simplify_eq.

(** A run of [matrixMultiply] that returns has made all the calls of the
    script, and the time it returns is what the environment answered at the
    query of the elapsed time, the twelfth call of the runtime in the run
    (the launch is counted, [cudaGetLastError], which reports the status of
    the launch, is not). *)
Lemma matrixMultiply_complete_run E b g n (w w' : world float32) o :
  Lab6.matrixMultiply E b g n w = (o, w') ->
  forall t C, o = Ret (t, C) ->
    t = event_msec E (11 + calls w) /\
    exists sA sB sC dA dB dC msg,
      trace w' = trace w ++
        [ Malloc sA; Malloc sB; Malloc sC;
          CudaMalloc sA; CudaMalloc sB; CudaMalloc sC;
          CudaMemcpyHostToDevice dA sA; CudaMemcpyHostToDevice dB sB;
          Output "Computing result using CUDA Kernel...";
          CudaEventCreate ev_start; CudaEventCreate ev_stop;
          CudaEventRecord ev_start;
          KernelLaunch (Dim3 (to_uint g) (to_uint g) 1)
                       (Dim3 (to_uint b) (to_uint b) 1);
          CudaGetLastError;
          CudaEventRecord ev_stop;
          CudaEventSynchronize ev_stop;
          CudaEventElapsedTime ev_start ev_stop;
          Output "CUDA elapsed time in msec = %f";
          CudaMemcpyDeviceToHost dC sC;
          Output msg;
          Free; Free; Free;
          CudaFree dA; CudaFree dB; CudaFree dC ].
Proof.
  unfold Lab6.matrixMultiply. cbv beta zeta. exec.
  all: exec_end; intros t C Hret; try discriminate Hret.
  all: injection Hret as <- <-; split; [reflexivity|].
  all: cbn [trace]; do 7 eexists; rewrite <- ?app_assoc; reflexivity.
Qed.

(** C7: the time that [matrixMultiply] reports is the time between a
    start event recorded directly before the launch of the kernel and a stop
    event recorded after it, and no transfer falls in between.

    Every run that returns (with valid shapes and a cooperative environment
    the run does return) has made exactly the calls listed below, in this
    order: both copies to the device, then the record of the start event,
    the launch as the very next call, the query of its status, the record
    of the stop event, the wait for it, the query of the time elapsed
    between the two events, and only then the copy of the result to the
    host.  The time returned is the answer of the runtime to that query,
    the twelfth call of the runtime in the run.

    In every run, whatever the environment answers and however far the run
    goes, the calls [seg] that the run adds to the trace are such that
    - the kernel launch is the call that follows the record of the start
      event;
    - the record of the stop event comes after the launch;
    - the elapsed time is asked between the start and the stop event, after
      the stop event was recorded;
    - when the start event is recorded both copies to the device have been
      made, and there is no other copy to the device;
    - the copy of the result to the host comes after the record of the stop
      event. *)
Theorem matrixMultiply_timed_interval E bs gs n (w : world float32) :
  exists seg,
    trace (snd (Lab6.matrixMultiply E bs gs n w)) = trace w ++ seg /\
    (forall j grid threads,
       seg !! j = Some (KernelLaunch grid threads) ->
       exists i, j = S i /\ seg !! i = Some (CudaEventRecord ev_start)) /\
    (forall s,
       seg !! s = Some (CudaEventRecord ev_stop) ->
       exists j grid threads,
         (j < s)%nat /\ seg !! j = Some (KernelLaunch grid threads)) /\
    (forall q e1 e2,
       seg !! q = Some (CudaEventElapsedTime e1 e2) ->
       e1 = ev_start /\ e2 = ev_stop /\
       exists s, (s < q)%nat /\ seg !! s = Some (CudaEventRecord ev_stop)) /\
    (forall i,
       seg !! i = Some (CudaEventRecord ev_start) ->
       exists ja jb dA sA dB sB,
         (ja < jb < i)%nat /\
         seg !! ja = Some (CudaMemcpyHostToDevice dA sA) /\
         seg !! jb = Some (CudaMemcpyHostToDevice dB sB) /\
         forall j d s, seg !! j = Some (CudaMemcpyHostToDevice d s) ->
                       j = ja \/ j = jb) /\
    (forall j d s,
       seg !! j = Some (CudaMemcpyDeviceToHost d s) ->
       exists p, (p < j)%nat /\ seg !! p = Some (CudaEventRecord ev_stop)) /\
    (forall t C,
       fst (Lab6.matrixMultiply E bs gs n w) = Ret (t, C) ->
       t = event_msec E (11 + calls w) /\
       exists sA sB sC dA dB dC msg,
         seg =
           [ Malloc sA; Malloc sB; Malloc sC;
             CudaMalloc sA; CudaMalloc sB; CudaMalloc sC;
             CudaMemcpyHostToDevice dA sA; CudaMemcpyHostToDevice dB sB;
             Output "Computing result using CUDA Kernel...";
             CudaEventCreate ev_start; CudaEventCreate ev_stop;
             CudaEventRecord ev_start;
             KernelLaunch (Dim3 (to_uint gs) (to_uint gs) 1)
                          (Dim3 (to_uint bs) (to_uint bs) 1);
             CudaGetLastError;
             CudaEventRecord ev_stop;
             CudaEventSynchronize ev_stop;
             CudaEventElapsedTime ev_start ev_stop;
             Output "CUDA elapsed time in msec = %f";
             CudaMemcpyDeviceToHost dC sC;
             Output msg;
             Free; Free; Free;
             CudaFree dA; CudaFree dB; CudaFree dC ]) /\
    (valid_launch bs gs n -> cooperative E ->
       exists r, fst (Lab6.matrixMultiply E bs gs n w) = Ret r).
Proof.
  destruct (Lab6.matrixMultiply E bs gs n w) as [o w'] eqn:Hrun.
  pose proof (matrixMultiply_complete_run _ _ _ _ _ _ _ Hrun) as Hdone.
  pose proof (fun Hv => proj2 (matrixMultiply_valid _ _ _ _ _ _ _ Hv Hrun))
    as Hreturns.
  apply matrixMultiply_calls in Hrun
    as (seg & Htr & k & extra & Hshape & Hextra & _).
  exists seg. split; [exact Htr|]. cbn [fst snd].
  pose proof (fun i c => script_lookup seg k extra i c Hshape Hextra) as Hat.
  pose proof (fun i e => script_lookup_inv seg k extra i e Hshape) as Hinv.
  assert (forall i, (i < k)%nat ->
            forall e, matrixMultiply_script !! i = Some e ->
                      (forall c, erase c = e -> c = e) ->
                      seg !! i = Some e) as Hfix.
  { intros i Hik e He Hsame. destruct (Hinv i e Hik He) as (c & Hc & Hec).
    by rewrite (Hsame c Hec) in Hc. }
  assert (forall c, erase c = CudaEventRecord ev_start ->
                    c = CudaEventRecord ev_start) as Hstart
    by (intros c; destruct c; cbn; congruence).
  assert (forall c, erase c = CudaEventRecord ev_stop ->
                    c = CudaEventRecord ev_stop) as Hstop
    by (intros c; destruct c; cbn; congruence).
  assert (forall c, erase c = CudaMemcpyHostToDevice 0 0 ->
                    exists d s, c = CudaMemcpyHostToDevice d s) as Hhtod
    by (intros c; destruct c; try discriminate; by eexists _, _).
  assert (forall c, erase c = KernelLaunch (Dim3 0 0 0) (Dim3 0 0 0) ->
                    exists grid threads, c = KernelLaunch grid threads)
    as Hlaunch
    by (intros c; destruct c; try discriminate; by eexists _, _).
  split; [|split; [|split; [|split; [|split; [|split]]]]];
    [ | | | | | intros t C Hret;
              destruct (Hdone t C Hret)
                as (Ht & sA & sB & sC & dA & dB & dC & msg & Hall);
              split; [exact Ht|];
              exists sA, sB, sC, dA, dB, dC, msg;
              rewrite Htr in Hall; exact (app_inv_head _ _ _ Hall)
          | intros Hv Hco; exact (Hreturns Hv Hco) ].
  - intros j grid threads Hj.
    destruct (Hat j _ Hj ltac:(discriminate)) as [Hjk Hs]. cbn in Hs.
    script_place Hs. exists 11%nat. split; [done|].
    apply Hfix; [lia|done|exact Hstart].
  - intros s Hs.
    destruct (Hat s _ Hs ltac:(discriminate)) as [Hsk Hp]. cbn in Hp.
    script_place Hp.
    destruct (Hinv 12%nat _ ltac:(lia) eq_refl) as (c & Hc & Hec).
    apply Hlaunch in Hec as (grid & threads & ->).
    exists 12%nat, grid, threads. split; [lia|done].
  - intros q e1 e2 Hq.
    destruct (Hat q _ Hq ltac:(discriminate)) as [Hqk Hp]. cbn in Hp.
    script_place Hp. split; [done|]. split; [done|].
    exists 14%nat. split; [lia|].
    apply Hfix; [lia|done|exact Hstop].
  - intros i Hi.
    destruct (Hat i _ Hi ltac:(discriminate)) as [Hik Hp]. cbn in Hp.
    script_place Hp.
    destruct (Hinv 6%nat _ ltac:(lia) eq_refl) as (cA & HcA & HeA).
    destruct (Hinv 7%nat _ ltac:(lia) eq_refl) as (cB & HcB & HeB).
    apply Hhtod in HeA as (dA & sA & ->).
    apply Hhtod in HeB as (dB & sB & ->).
    exists 6%nat, 7%nat, dA, sA, dB, sB.
    split; [lia|]. split; [done|]. split; [done|].
    intros j d s Hj.
    destruct (Hat j _ Hj ltac:(discriminate)) as [Hjk Hq]. cbn in Hq.
    script_place Hq; [by left | by right].
  - intros j d s Hj.
    destruct (Hat j _ Hj ltac:(discriminate)) as [Hjk Hp]. cbn in Hp.
    script_place Hp. exists 14%nat. split; [lia|].
    apply Hfix; [lia|done|exact Hstop].
Qed.

(** Shapes 2 and 2 in the quiet environment: the run returns, and what it
    returns as its time is the answer to the twelfth call. *)
Lemma matrixMultiply_timed_interval_witness :
  exists C,
    fst (Lab6.matrixMultiply quiet_env 2 2 4 initial_world)
    = Ret (event_msec quiet_env 11, C).
Proof.
  destruct (matrixMultiply_timed_interval quiet_env 2 2 4 initial_world)
    as (seg & _ & _ & _ & _ & _ & _ & Hret & Hreturns).
  destruct Hreturns as [[t C] Hr].
  - unfold valid_launch. lia.
  - split; intros k; reflexivity.
  - exists C. rewrite Hr. destruct (Hret t C Hr) as [-> _]. reflexivity.
Defined.


(** ** The multipliers *)

Lemma quiet_env_cooperative : cooperative quiet_env.
Proof. split; intros k; reflexivity. Qed.

Lemma valid_launch_2_2_4 : valid_launch 2 2 4.
Proof. unfold valid_launch. lia. Qed.

(** C1, as the code has it: both multipliers fill [C] with one value, the
    sum [dot_const n valA valB] of [n] copies of [valA * valB] added one
    after the other in single precision, starting from 0.  This holds
    - of the kernel as launched, for [A] filled with 1.0 as in the source
      and [B] filled with any constant (the product by 1.0 is exact, so the
      value is the same whether or not the compiler fuses the multiplication
      and the addition of the kernel into one operation);
    - of the three loops of the host, for any constant fills;
    - of every run of [matrixMultiply] and [serialMultiply] that returns, on
      valid shapes; with a cooperative environment both return.
    For [n = 4] the value is 0.04, the float nearest to 4/100, which is
    there also [valA * valB * 4]. *)
Theorem multipliers_constant_product :
  (forall (n bs gs : Z) (b : float32) (C0 : list float32),
     valid_launch bs gs n -> Z.of_nat (length C0) = n * n ->
     launch (fun bi bd ti C =>
               matrixMulCUDA bi bd ti C (replicate (Z.to_nat (n * n)) valA)
                             (replicate (Z.to_nat (n * n)) b) n)
            (Dim3 gs gs 1) (Dim3 bs bs 1) C0
     = Some (replicate (Z.to_nat (n * n)) (dot_const n valA b))) /\
  (forall (n : Z) (a b : float32) (C0 : list float32),
     0 < n -> Z.of_nat (length C0) = n * n ->
     serial_loops (replicate (Z.to_nat (n * n)) a)
                  (replicate (Z.to_nat (n * n)) b) C0 n
     = Some (replicate (Z.to_nat (n * n)) (dot_const n a b))) /\
  (forall (E : env float32) (bs gs n : Z) (w : world float32),
     valid_launch bs gs n ->
     (forall t C, fst (Lab6.matrixMultiply E bs gs n w) = Ret (t, C) ->
        C = replicate (Z.to_nat (n * n)) (dot_const n valA valB)) /\
     (forall t C, fst (Lab6.serialMultiply E n w) = Ret (t, C) ->
        C = replicate (Z.to_nat (n * n)) (dot_const n valA valB)) /\
     (cooperative E ->
        (exists r, fst (Lab6.matrixMultiply E bs gs n w) = Ret r) /\
        (exists r, fst (Lab6.serialMultiply E n w) = Ret r))) /\
  (dot_const 4 valA valB = f32_lit 4 100 /\
   expected_value valA valB 4 = f32_lit 4 100).
Proof.
  split; [|split; [|split; [|split; reflexivity]]].
  - intros n bs gs b C0 Hvalid Hlen.
    destruct (valid_launch_sizes bs gs n Hvalid) as (Hn & Hn31 & _).
    destruct Hvalid as (Hbs & Hgs & Hprod & _).
    by apply launch_matrixMulCUDA.
  - intros n a b C0 Hn Hlen. by apply serial_loops_constant.
  - intros E bs gs n w Hvalid.
    destruct (valid_launch_sizes bs gs n Hvalid) as (Hn & _).
    pose proof Hvalid as (_ & _ & _ & Hmax).
    destruct (Lab6.matrixMultiply E bs gs n w) as [o1 w1] eqn:Hmm.
    destruct (Lab6.serialMultiply E n w) as [o2 w2] eqn:Hsm.
    apply (matrixMultiply_valid E bs gs n w w1 o1 Hvalid) in Hmm as [Hm1 Hm2].
    apply (serialMultiply_valid E n w w2 o2 Hn Hmax) in Hsm as [Hs1 Hs2].
    cbn [fst]. split; [exact Hm1|]. split; [exact Hs1|].
    intros Hcoop. split; [by apply Hm2 | by apply Hs2].
Qed.

Lemma multipliers_constant_product_witness :
  launch (fun bi bd ti C =>
            matrixMulCUDA bi bd ti C (replicate (Z.to_nat (4 * 4)) valA)
                          (replicate (Z.to_nat (4 * 4)) valB) 4)
         (Dim3 2 2 1) (Dim3 2 2 1) (replicate 16 f32_zero)
  = Some (replicate (Z.to_nat (4 * 4)) (dot_const 4 valA valB))
  /\ serial_loops (replicate (Z.to_nat (4 * 4)) valA)
                  (replicate (Z.to_nat (4 * 4)) valB) (replicate 16 f32_zero) 4
     = Some (replicate (Z.to_nat (4 * 4)) (dot_const 4 valA valB))
  /\ (exists r, fst (Lab6.matrixMultiply quiet_env 2 2 4 initial_world) = Ret r)
  /\ (exists r, fst (Lab6.serialMultiply quiet_env 4 initial_world) = Ret r).
Proof.
  split; [|split].
  - apply (proj1 multipliers_constant_product 4 2 2 valB
             (replicate 16 f32_zero)); [unfold valid_launch; lia | reflexivity].
  - apply (proj1 (proj2 multipliers_constant_product) 4 valA valB
             (replicate 16 f32_zero)); [lia | reflexivity].
  - apply (proj1 (proj2 (proj2 multipliers_constant_product))
             quiet_env 2 2 4 initial_world).
    + unfold valid_launch. lia.
    + split; intros k; reflexivity.
Defined.

(** C1, counterexample: worker-group shape 3 and group-count shape 2, so
    [n = 6], with the fills of the source.  Every cell of both outputs is
    16106126 * 2^-28; [valA * valB * 6] is 16106127 * 2^-28, which is also
    the float nearest to 6/100. *)
Lemma constant_product_not_closed_form :
  let x := S754_finite false 16106126 (-28) in
  fst (Lab6.matrixMultiply quiet_env 3 2 6 initial_world)
  = Ret (f32_zero, replicate 36 x)
  /\ fst (Lab6.serialMultiply quiet_env 6 initial_world)
     = Ret (f32_of_int 1, replicate 36 x)
  /\ expected_value valA valB 6 = S754_finite false 16106127 (-28)
  /\ f32_lit 6 100 = S754_finite false 16106127 (-28)
  /\ f32_neb x (expected_value valA valB 6) = true.
Proof. vm_compute. repeat split. Qed.

(** C8: on valid shapes the output matrix of a run that returns does not
    depend on the environment (what fresh memory contains, what the clock
    and the events report) nor on the state left by earlier runs (counters,
    live buffers, trace): two runs with the same shapes give the same
    matrix, for the accelerated and for the sequential multiplier. *)
Theorem multipliers_deterministic (E1 E2 : env float32)
    (w1 w2 : world float32) (bs gs n : Z) :
  valid_launch bs gs n ->
  (forall t1 C1 t2 C2,
     fst (Lab6.matrixMultiply E1 bs gs n w1) = Ret (t1, C1) ->
     fst (Lab6.matrixMultiply E2 bs gs n w2) = Ret (t2, C2) -> C1 = C2) /\
  (forall t1 C1 t2 C2,
     fst (Lab6.serialMultiply E1 n w1) = Ret (t1, C1) ->
     fst (Lab6.serialMultiply E2 n w2) = Ret (t2, C2) -> C1 = C2).
Proof.
  intros Hvalid.
  destruct (valid_launch_sizes bs gs n Hvalid) as (Hn & _).
  pose proof Hvalid as (_ & _ & _ & Hmax).
  split; intros t1 C1 t2 C2 H1 H2.
  - destruct (Lab6.matrixMultiply E1 bs gs n w1) as [o1 w1'] eqn:Hr1.
    destruct (Lab6.matrixMultiply E2 bs gs n w2) as [o2 w2'] eqn:Hr2.
    cbn [fst] in H1, H2.
    apply (matrixMultiply_valid _ _ _ _ _ _ _ Hvalid) in Hr1 as [Hr1 _].
    apply (matrixMultiply_valid _ _ _ _ _ _ _ Hvalid) in Hr2 as [Hr2 _].
    rewrite (Hr1 t1 C1 H1), (Hr2 t2 C2 H2). reflexivity.
  - destruct (Lab6.serialMultiply E1 n w1) as [o1 w1'] eqn:Hr1.
    destruct (Lab6.serialMultiply E2 n w2) as [o2 w2'] eqn:Hr2.
    cbn [fst] in H1, H2.
    apply (serialMultiply_valid _ _ _ _ _ Hn Hmax) in Hr1 as [Hr1 _].
    apply (serialMultiply_valid _ _ _ _ _ Hn Hmax) in Hr2 as [Hr2 _].
    rewrite (Hr1 t1 C1 H1), (Hr2 t2 C2 H2). reflexivity.
Qed.

(** The second run starts in the state that the first run leaves, in
    another environment. *)
Lemma multipliers_deterministic_witness :
  let x := S754_finite false 10737418 (-28) in
  let w1 := snd (Lab6.serialMultiply quiet_env 4
                   (snd (Lab6.matrixMultiply quiet_env 2 2 4 initial_world))) in
  fst (Lab6.matrixMultiply quiet_env 2 2 4 initial_world)
  = Ret (f32_zero, replicate 16 x)
  /\ fst (Lab6.matrixMultiply other_env 2 2 4 w1) = Ret (valB, replicate 16 x)
  /\ fst (Lab6.serialMultiply quiet_env 4 initial_world)
     = Ret (f32_of_int 1, replicate 16 x)
  /\ fst (Lab6.serialMultiply other_env 4 w1)
     = Ret (f32_of_int 7, replicate 16 x)
  /\ replicate 16 x = replicate 16 x.
Proof.
  intros x w1.
  assert (fst (Lab6.matrixMultiply quiet_env 2 2 4 initial_world)
          = Ret (f32_zero, replicate 16 x)) as H1 by (vm_compute; reflexivity).
  assert (fst (Lab6.matrixMultiply other_env 2 2 4 w1)
          = Ret (valB, replicate 16 x)) as H2 by (vm_compute; reflexivity).
  assert (fst (Lab6.serialMultiply quiet_env 4 initial_world)
          = Ret (f32_of_int 1, replicate 16 x)) as H3
    by (vm_compute; reflexivity).
  assert (fst (Lab6.serialMultiply other_env 4 w1)
          = Ret (f32_of_int 7, replicate 16 x)) as H4
    by (vm_compute; reflexivity).
  split; [exact H1|]. split; [exact H2|]. split; [exact H3|].
  split; [exact H4|].
  apply (proj1 (multipliers_deterministic quiet_env other_env
                  initial_world w1 2 2 4 valid_launch_2_2_4)
           f32_zero (replicate 16 x) valB (replicate 16 x) H1 H2).
Defined.

(** ** The driver *)

(** C4, as the code has it: the driver does not examine the pair.  In every
    iteration, for every pair with a positive worker-group shape (the
    group-count shape and the product [n] may be 0) and every environment,
    the two shapes are read and the next calls are the host allocations of
    [matrixMultiply]; such a pair is refused only by the runtime, in a later
    call. *)
Theorem main_loop_allocates_first (E : env float32) (b g : Z)
    (inputs : list (Z * Z)) (bs : Z) (w : world float32) :
  0 < bs -> 0 < b ->
  exists m1 m2 tl,
    trace (snd (Lab6.main_loop E ((b, g) :: inputs) bs w))
    = trace w ++
      [ Output "[-] Block Size = "; Scanf b; Output "[-] Grid Size = ";
        Scanf g; Output "Tile Width: 32";
        Output "MatrixA(%d,%d), MatrixB(%d,%d)";
        Malloc m1; Malloc m2 ] ++ tl.
Proof.
  intros Hbs _.
  destruct (Lab6.main_loop E ((b, g) :: inputs) bs w) as [o w'] eqn:Hrun.
  exact (main_loop_iteration E b g inputs bs w w' o Hbs Hrun).
Qed.

Lemma main_loop_allocates_first_witness :
  exists m1 m2 tl,
    trace (snd (Lab6.main_loop quiet_env [(5, 0)] 1 initial_world))
    = trace (initial_world : world float32) ++
      [ Output "[-] Block Size = "; Scanf 5; Output "[-] Grid Size = ";
        Scanf 0; Output "Tile Width: 32";
        Output "MatrixA(%d,%d), MatrixB(%d,%d)";
        Malloc m1; Malloc m2 ] ++ tl.
Proof.
  apply (main_loop_allocates_first quiet_env 5 0 [] 1 initial_world); lia.
Defined.

(** C4, counterexample: the operator enters the shapes 5 and 0, so [n = 0].
    The pair is not refused: the three host buffers and the three device
    buffers are allocated and both copies to the device are made before the
    launch (of a grid without blocks) is refused by the runtime. *)
Lemma main_allocates_for_empty_matrix :
  let r := Lab6.main_driver refusing_env [(5, 0)] initial_world in
  fst r = Exit EXIT_FAILURE
  /\ trace (snd r)
     = [ Output "[-] Block Size = "; Scanf 5; Output "[-] Grid Size = ";
         Scanf 0; Output "Tile Width: 32";
         Output "MatrixA(%d,%d), MatrixB(%d,%d)";
         Malloc 0; Malloc 0; Malloc 0;
         CudaMalloc 0; CudaMalloc 0; CudaMalloc 0;
         CudaMemcpyHostToDevice 1 0; CudaMemcpyHostToDevice 2 0;
         Output "Computing result using CUDA Kernel...";
         CudaEventCreate ev_start; CudaEventCreate ev_stop;
         CudaEventRecord ev_start;
         KernelLaunch (Dim3 0 0 1) (Dim3 5 5 1);
         CudaGetLastError;
         Output "Failed to launch kernel!" ].
Proof. vm_compute. repeat split. Qed.

(** C5 at the input 0 for the worker-group shape (and 1 for the group-count
    shape): the test [block_size > 0] is made before the shapes are read, so
    the iteration that reads the 0 is run.  In every environment the
    multiplier is entered and allocates; with a runtime that refuses the
    launch of a block without threads the process ends with [EXIT_FAILURE]
    after the allocations, the copies, the events and the launch, and not by
    the [exit(0)] that follows the loop.  What holds of the claim: the
    [exit(0)] is reached only after a worker-group shape that is not
    positive was read. *)
Theorem main_runs_sentinel_iteration :
  (forall (E : env float32) (g : Z) (inputs : list (Z * Z))
          (w : world float32),
     exists m1 m2 tl,
       trace (snd (Lab6.main_driver E ((0, g) :: inputs) w))
       = trace w ++
         [ Output "[-] Block Size = "; Scanf 0; Output "[-] Grid Size = ";
           Scanf g; Output "Tile Width: 32";
           Output "MatrixA(%d,%d), MatrixB(%d,%d)"; Malloc m1; Malloc m2 ]
         ++ tl)
  /\
  (let r := Lab6.main_driver refusing_env [(0, 1)] initial_world in
   fst r = Exit EXIT_FAILURE
   /\ trace (snd r)
      = [ Output "[-] Block Size = "; Scanf 0; Output "[-] Grid Size = ";
          Scanf 1; Output "Tile Width: 32";
          Output "MatrixA(%d,%d), MatrixB(%d,%d)";
          Malloc 0; Malloc 0; Malloc 0;
          CudaMalloc 0; CudaMalloc 0; CudaMalloc 0;
          CudaMemcpyHostToDevice 1 0; CudaMemcpyHostToDevice 2 0;
          Output "Computing result using CUDA Kernel...";
          CudaEventCreate ev_start; CudaEventCreate ev_stop;
          CudaEventRecord ev_start;
          KernelLaunch (Dim3 1 1 1) (Dim3 0 0 1);
          CudaGetLastError;
          Output "Failed to launch kernel!" ])
  /\
  (forall (E : env float32) (inputs : list (Z * Z)) (w : world float32),
     fst (Lab6.main_driver E inputs w) = Exit EXIT_SUCCESS ->
     exists pre b g post, inputs = pre ++ (b, g) :: post /\ b <= 0).
Proof.
  split; [|split].
  - intros E g inputs w. unfold Lab6.main_driver.
    destruct (Lab6.main_loop E ((0, g) :: inputs) 1 w) as [o w'] eqn:Hrun.
    exact (main_loop_iteration E 0 g inputs 1 w w' o ltac:(lia) Hrun).
  - vm_compute. repeat split.
  - intros E inputs w. unfold Lab6.main_driver.
    destruct (Lab6.main_loop E inputs 1 w) as [o w'] eqn:Hrun.
    cbn [fst]. intros Ho.
    destruct (main_loop_normal_exit E inputs 1 w w' o Hrun Ho) as [H|H];
      [lia|exact H].
Qed.

(** ** The functions and programs beside the ones above *)

(** ** More on loops: splitting, flattening, partial correctness *)

Section LoopTools.
Context {St : Type}.
Implicit Types (body : Z -> St -> option St) (s : St).

Lemma for_loop_app c1 c2 i body s :
  for_loop (c1 + c2) i body s
  = s' ← for_loop c1 i body s; for_loop c2 (i + Z.of_nat c1) body s'.
Proof.
  revert i s. induction c1 as [|c1 IH]; intros i s.
  - cbn. by rewrite Z.add_0_r.
  - cbn [for_loop Nat.add]. destruct (body i s) as [s1|]; cbn; [|done].
    rewrite IH.
    replace (i + 1 + Z.of_nat c1) with (i + Z.of_nat (S c1)) by lia. done.
Qed.

Lemma for_range_split lo m hi body s :
  lo <= m <= hi ->
  for_range lo hi body s = s' ← for_range lo m body s; for_range m hi body s'.
Proof.
  intros H. unfold for_range.
  replace (Z.to_nat (hi - lo))
    with (Z.to_nat (m - lo) + Z.to_nat (hi - m))%nat by lia.
  rewrite for_loop_app.
  replace (lo + Z.of_nat (Z.to_nat (m - lo))) with m by lia. done.
Qed.

(** What a loop that has completed has established: [P] is kept by every
    iteration that completes. *)
Lemma for_loop_post (P : Z -> St -> Prop) count lo body s s' :
  for_loop count lo body s = Some s' -> P lo s ->
  (forall i s s', lo <= i < lo + Z.of_nat count -> P i s ->
     body i s = Some s' -> P (i + 1) s') ->
  P (lo + Z.of_nat count) s'.
Proof.
  revert lo s. induction count as [|c IH]; intros lo s Hrun H0 Hstep.
  - cbn in Hrun. injection Hrun as <-. by rewrite Z.add_0_r.
  - cbn [for_loop] in Hrun. destruct (body lo s) as [s1|] eqn:Hb; [|done].
    cbn in Hrun.
    replace (lo + Z.of_nat (S c)) with (lo + 1 + Z.of_nat c) by lia.
    apply (IH (lo + 1) s1 Hrun).
    + apply (Hstep lo s s1); [lia|done|done].
    + intros i t t' Hi. apply Hstep. lia.
Qed.

Lemma for_range_post (P : Z -> St -> Prop) lo hi body s s' :
  lo <= hi -> for_range lo hi body s = Some s' -> P lo s ->
  (forall i s s', lo <= i < hi -> P i s -> body i s = Some s' -> P (i + 1) s') ->
  P hi s'.
Proof.
  intros Hle Hrun H0 Hstep. unfold for_range in Hrun.
  replace hi with (lo + Z.of_nat (Z.to_nat (hi - lo))) by lia.
  apply (for_loop_post P _ lo body s s' Hrun H0).
  intros i t t' Hi. apply Hstep. lia.
Qed.

Lemma for_loop_ext count lo body body' s :
  (forall i s, lo <= i < lo + Z.of_nat count -> body i s = body' i s) ->
  for_loop count lo body s = for_loop count lo body' s.
Proof.
  revert lo s. induction count as [|c IH]; intros lo s Heq; [done|].
  cbn [for_loop]. rewrite <- Heq by lia.
  destruct (body lo s) as [s1|]; cbn; [|done].
  apply IH. intros i t Hi. apply Heq. lia.
Qed.

Lemma for_range_ext lo hi body body' s :
  (forall i s, lo <= i < hi -> body i s = body' i s) ->
  for_range lo hi body s = for_range lo hi body' s.
Proof.
  intros Heq. apply for_loop_ext. intros i t Hi. apply Heq. lia.
Qed.

Lemma for_loop_shift count lo off body s :
  for_loop count lo (fun j s => body (off + j) s) s
  = for_loop count (off + lo) body s.
Proof.
  revert lo s. induction count as [|c IH]; intros lo s; [done|].
  cbn [for_loop]. destruct (body (off + lo) s) as [s1|]; cbn; [|done].
  rewrite IH. by rewrite Z.add_assoc.
Qed.

(** Two nested loops over the rows and the columns of a matrix stored row
    after row are one loop over its cells. *)
Lemma for_loop_flatten cx cy i0 body s :
  for_loop cx i0
    (fun i s => for_loop cy 0 (fun j s => body (i * Z.of_nat cy + j) s) s) s
  = for_loop (cx * cy) (i0 * Z.of_nat cy) body s.
Proof.
  revert i0 s. induction cx as [|cx IH]; intros i0 s; [done|].
  cbn [for_loop Nat.mul]. rewrite for_loop_app.
  rewrite (for_loop_shift cy 0 (i0 * Z.of_nat cy) body s), Z.add_0_r.
  destruct (for_loop cy (i0 * Z.of_nat cy) body s) as [s1|]; cbn; [|done].
  rewrite IH. f_equal. lia.
Qed.

Lemma for_range_flatten X Y body s :
  0 <= X -> 0 <= Y ->
  for_range 0 X (fun i s => for_range 0 Y (fun j s => body (i * Y + j) s) s) s
  = for_range 0 (X * Y) body s.
Proof.
  intros HX HY. unfold for_range. rewrite !Z.sub_0_r.
  replace (Z.to_nat (X * Y)) with (Z.to_nat X * Z.to_nat Y)%nat by nia.
  change 0 with (0 * Z.of_nat (Z.to_nat Y)) at 3.
  rewrite <- (for_loop_flatten (Z.to_nat X) (Z.to_nat Y) 0 body s).
  apply for_loop_ext. intros i t Hi. apply for_loop_ext. intros j u Hj.
  by rewrite Z2Nat.id.
Qed.
End LoopTools.

(** A loop that writes the cell [k] of a buffer at the iteration [k], with
    a value that does not depend on the buffer. *)
Section WriteCells.
Context {T : Type}.
Implicit Types (val : Z -> option T) (v : list T).

Lemma write_cells_Some val (f : Z -> T) (N : Z) v :
  N <= Z.of_nat (length v) ->
  (forall k, 0 <= k < N -> val k = Some (f k)) ->
  for_range 0 N (fun k v => x ← val k; buf_set v k x) v
  = Some ((f <$> seqZ 0 N) ++ drop (Z.to_nat N) v).
Proof.
  intros Hlen Hval. destruct (decide (N <= 0)) as [Hneg|Hpos].
  { rewrite for_range_empty by done.
    replace (Z.to_nat N) with O by lia. rewrite drop_0.
    unfold seqZ. replace (Z.to_nat N) with O by lia. done. }
  destruct (for_range_inv
    (fun i d => d = (f <$> seqZ 0 i) ++ drop (Z.to_nat i) v)
    0 N (fun k v => x ← val k; buf_set v k x) v) as (d & Hd & ->);
    [lia|done| |done].
  intros i d Hi ->. rewrite Hval by lia. cbn.
  assert (Hl : length ((f <$> seqZ 0 i) ++ drop (Z.to_nat i) v) = length v).
  { rewrite length_app, length_fmap, length_seqZ, length_drop. lia. }
  rewrite buf_set_Some by lia. eexists. split; [done|].
  replace (Z.to_nat i) with (length (f <$> seqZ 0 i) + 0)%nat at 1
    by (rewrite length_fmap, length_seqZ; lia).
  rewrite insert_app_r.
  destruct (lookup_lt_is_Some_2 v (Z.to_nat i)) as [y Hy]; [lia|].
  rewrite (drop_S v y (Z.to_nat i) Hy). cbn [insert list_insert].
  rewrite (seqZ_app 0 i 1) by lia.
  rewrite fmap_app, <- app_assoc. cbn. rewrite Z.add_0_l.
  do 3 f_equal. lia.
Qed.

Lemma write_cells_inv val (N : Z) v v' :
  for_range 0 N (fun k v => x ← val k; buf_set v k x) v = Some v' ->
  0 <= N ->
  N <= Z.of_nat (length v) /\ forall k, 0 <= k < N -> is_Some (val k).
Proof.
  intros Hrun HN.
  apply (for_range_post
    (fun i d => length d = length v /\ i <= Z.of_nat (length v) /\
                forall k, 0 <= k < i -> is_Some (val k))
    0 N _ v v' HN Hrun).
  - split; [done|]. split; [lia|]. intros k Hk. lia.
  - intros i d d' Hi (Hl & Hle & Hall) Hb.
    destruct (val i) as [x|] eqn:Hx; [|done]. cbn in Hb.
    unfold buf_set in Hb. case_bool_decide as Hin; [|done].
    injection Hb as <-. rewrite length_insert. split; [done|].
    split; [lia|]. intros k Hk. destruct (decide (k = i)) as [->|Hne].
    + by rewrite Hx.
    + apply Hall. lia.
Qed.

Lemma write_cells_None val (N : Z) v :
  0 <= N ->
  Z.of_nat (length v) < N \/ (exists k, 0 <= k < N /\ val k = None) ->
  for_range 0 N (fun k v => x ← val k; buf_set v k x) v = None.
Proof.
  intros HN Hbad.
  destruct (for_range 0 N _ v) as [v'|] eqn:Hrun; [|done].
  destruct (write_cells_inv val N v v' Hrun HN) as [Hlen Hall].
  destruct Hbad as [Hlt|(k & Hk & Hnone)]; [lia|].
  destruct (Hall k Hk) as [x Hx]. congruence.
Qed.
End WriteCells.

(** ** The data initializer, the fill routine and the sequential adder on
    buffers of any size *)

Lemma fmap_const_seqZ {T} (c : T) (N : Z) :
  (fun _ => c) <$> seqZ 0 N = replicate (Z.to_nat N) c.
Proof.
  apply list_eq. intros i. rewrite list_lookup_fmap.
  destruct (decide (Z.of_nat i < N)) as [Hlt|Hge].
  - rewrite lookup_seqZ_lt by done. cbn. symmetry.
    apply lookup_replicate_2. lia.
  - rewrite lookup_seqZ_ge by lia. cbn. symmetry.
    apply lookup_replicate_None. lia.
Qed.

(** [fillMat] as one loop over the cells. *)
Lemma fillMat_flat (L : Z) (v : list Z) (X Y : Z) :
  0 <= X -> 0 <= Y ->
  fillMat L v X Y
  = for_range 0 (X * Y) (fun k '(L, v) =>
      v' ← buf_set v k L; Some (to_int (L + 1), v')) (L, v).
Proof.
  intros HX HY.
  exact (for_range_flatten X Y (fun k '(L, v) =>
           v' ← buf_set v k L; Some (to_int (L + 1), v')) (L, v) HX HY).
Qed.

(** [addMat] as one loop over the cells. *)
Lemma addMat_flat (a b c : list Z) (X Y : Z) :
  0 <= X -> 0 <= Y ->
  Lab5Serial.addMat a b c X Y
  = for_range 0 (X * Y) (fun k c =>
      z ← (x ← buf_get a k; y ← buf_get b k; Some (to_int (x + y)));
      buf_set c k z) c.
Proof.
  intros HX HY. unfold Lab5Serial.addMat.
  etransitivity.
  - exact (for_range_flatten X Y (fun k c =>
             x ← buf_get a k; y ← buf_get b k; buf_set c k (to_int (x + y)))
             c HX HY).
  - apply for_range_ext. intros k d _.
    destruct (buf_get a k); cbn; [|done]. by destruct (buf_get b k).
Qed.

Lemma buf_get_None {T} (v : list T) (i : Z) :
  Z.of_nat (length v) <= i -> buf_get v i = None.
Proof.
  intros H. unfold buf_get. case_bool_decide; [|done].
  apply lookup_ge_None_2. lia.
Qed.

Lemma buf_get_is_Some {T} (v : list T) (i : Z) :
  0 <= i < Z.of_nat (length v) -> is_Some (buf_get v i).
Proof.
  intros H. unfold buf_get. rewrite bool_decide_eq_true_2 by lia.
  apply lookup_lt_is_Some_2. lia.
Qed.

(** X1: [constantInit] writes [val] into the first [size] cells and leaves
    the others as they were (none is written when [size] is not positive);
    when [size] exceeds the buffer the function writes outside of it. *)
Theorem constantInit_prefix (data : list float32) (size : Z) (val : float32) :
  (size <= Z.of_nat (length data) ->
     constantInit data size val
     = Some (replicate (Z.to_nat size) val ++ drop (Z.to_nat size) data)) /\
  (Z.of_nat (length data) < size -> constantInit data size val = None).
Proof.
  split; intros Hsz.
  - rewrite <- fmap_const_seqZ.
    exact (write_cells_Some (fun _ => Some val) (fun _ => val) size data
             Hsz (fun _ _ => eq_refl)).
  - apply (write_cells_None (fun _ => Some val) size data); [lia|].
    by left.
Qed.

Lemma constantInit_prefix_witness :
  constantInit [valB; valB; valB] 2 valA = Some [valA; valA; valB]
  /\ constantInit [valB] 2 valA = None.
Proof.
  split.
  - apply (proj1 (constantInit_prefix [valB; valB; valB] 2 valA)). cbn. lia.
  - apply (proj2 (constantInit_prefix [valB] 2 valA)). cbn. lia.
Defined.

(** The buffer after one call of [fillMat], in closed form. *)
Lemma fillMat_closed (L : Z) (v : list Z) (X Y : Z) :
  0 <= X -> 0 <= Y -> X * Y <= Z.of_nat (length v) ->
  - 2 ^ 31 <= L -> L + X * Y <= INT_MAX ->
  fillMat L v X Y
  = Some (L + X * Y, seqZ L (X * Y) ++ drop (Z.to_nat (X * Y)) v).
Proof.
  intros HX HY Hlen HL Hmax.
  destruct (fillMat_spec L v X Y HX HY Hlen HL Hmax)
    as (v' & -> & Hl & Hlo & Hhi).
  do 2 f_equal. apply list_eq. intros i.
  destruct (decide (Z.of_nat i < X * Y)) as [Hlt|Hge].
  - rewrite lookup_app_l by (rewrite length_seqZ; lia).
    rewrite lookup_seqZ_lt by done.
    rewrite <- (Nat2Z.id i). rewrite Hlo by lia. by rewrite Nat2Z.id.
  - rewrite lookup_app_r by (rewrite length_seqZ; lia).
    rewrite length_seqZ, lookup_drop, Hhi by lia. f_equal. lia.
Qed.

(** X2: [fillMat] numbers the first [matSizeX * matSizeY] cells [L], [L+1],
    ... in row-major order, leaves the other cells alone and hands back the
    counter advanced by the number of cells; with an empty shape it does
    nothing; when the buffer is shorter than the matrix it writes outside
    of the buffer. *)
Theorem fillMat_row_major (L : Z) (v : list Z) (X Y : Z) :
  (0 <= X -> 0 <= Y -> X * Y <= Z.of_nat (length v) ->
   - 2 ^ 31 <= L -> L + X * Y <= INT_MAX ->
   fillMat L v X Y
   = Some (L + X * Y, seqZ L (X * Y) ++ drop (Z.to_nat (X * Y)) v)) /\
  (X <= 0 \/ Y <= 0 -> fillMat L v X Y = Some (L, v)) /\
  (0 < X -> 0 < Y -> Z.of_nat (length v) < X * Y -> fillMat L v X Y = None).
Proof.
  split; [|split].
  - apply fillMat_closed.
  - intros [HX|HY]; unfold fillMat; [by apply for_range_empty|].
    destruct (decide (X <= 0)) as [HX|HX]; [by apply for_range_empty|].
    destruct (for_range_inv (fun _ st => st = (L, v)) 0 X
      (fun i st => for_range 0 Y (fun j '(L, v) =>
         v' ← buf_set v (i * Y + j) L; Some (to_int (L + 1), v')) st) (L, v))
      as (st & -> & ->); [lia|done| |done].
    intros i st _ ->. exists (L, v). split; [|done].
    by apply for_range_empty.
  - intros HX HY Hlen. rewrite fillMat_flat by lia.
    destruct (for_range 0 (X * Y) _ (L, v)) as [st|] eqn:Hrun; [|done].
    exfalso.
    assert (length (snd st) = length v /\ X * Y <= Z.of_nat (length v))
      as [_ Hle]; [|lia].
    refine (for_range_post
      (fun k st => length (snd st) = length v /\ k <= Z.of_nat (length v))
      _ _ _ _ _ _ Hrun _ _); [nia|cbn; lia|].
    intros k [L1 v1] st' Hk [Hl Hle] Hb. cbn in *.
    unfold buf_set in Hb. case_bool_decide as Hin; [|done].
    cbn in Hb. injection Hb as <-. cbn. rewrite length_insert. lia.
Qed.

Lemma fillMat_row_major_witness :
  fillMat 5 [0; 0; 0; 0; 0; 0; 9] 2 3 = Some (11, [5; 6; 7; 8; 9; 10; 9])
  /\ fillMat 5 [0; 0] 0 3 = Some (5, [0; 0])
  /\ fillMat 5 [0; 0] 2 3 = None.
Proof.
  split; [|split].
  - apply (proj1 (fillMat_row_major 5 [0; 0; 0; 0; 0; 0; 9] 2 3));
      unfold INT_MAX; cbn; lia.
  - apply (proj1 (proj2 (fillMat_row_major 5 [0; 0] 0 3))). left. lia.
  - apply (proj2 (proj2 (fillMat_row_major 5 [0; 0] 2 3))); cbn; lia.
Defined.

(** The buffer [c] after [addMat], in closed form. *)
Lemma addMat_Some (a b c : list Z) (X Y : Z) :
  0 <= X -> 0 <= Y ->
  X * Y <= Z.of_nat (length a) -> X * Y <= Z.of_nat (length b) ->
  X * Y <= Z.of_nat (length c) ->
  Lab5Serial.addMat a b c X Y
  = Some (add_cells (take (Z.to_nat (X * Y)) a) (take (Z.to_nat (X * Y)) b)
          ++ drop (Z.to_nat (X * Y)) c).
Proof.
  intros HX HY Ha Hb Hc. rewrite addMat_flat by done.
  set (f := fun k : Z => to_int (default 0 (a !! Z.to_nat k)
                                + default 0 (b !! Z.to_nat k))).
  rewrite (write_cells_Some _ f); [|done|].
  - do 2 f_equal. apply list_eq. intros i. unfold add_cells.
    rewrite list_lookup_fmap, lookup_zip_with, !lookup_take.
    destruct (decide (Z.of_nat i < X * Y)) as [Hlt|Hge].
    + rewrite lookup_seqZ_lt by done. cbn.
      rewrite !decide_True by lia.
      destruct (lookup_lt_is_Some_2 a i) as [x Hx]; [lia|].
      destruct (lookup_lt_is_Some_2 b i) as [y Hy]; [lia|].
      unfold f. rewrite Z.add_0_l, Nat2Z.id, Hx, Hy. reflexivity.
    + rewrite lookup_seqZ_ge by lia. cbn.
      rewrite !decide_False by lia. done.
  - intros k Hk.
    destruct (lookup_lt_is_Some_2 a (Z.to_nat k)) as [x Hx]; [lia|].
    destruct (lookup_lt_is_Some_2 b (Z.to_nat k)) as [y Hy]; [lia|].
    rewrite (buf_get_lookup a k x), (buf_get_lookup b k y) by (done || lia).
    unfold f. rewrite Hx, Hy. reflexivity.
Qed.

(** X3: [addMat] stores in the first [matSizeX * matSizeY] cells of [c] the
    sums (as [int]s) of the cells of [a] and [b] at the same place and
    leaves the other cells of [c] alone; when one of the three buffers is
    shorter than the matrix it reads or writes outside of it. *)
Theorem addMat_cells (a b c : list Z) (X Y : Z) :
  (0 <= X -> 0 <= Y ->
   X * Y <= Z.of_nat (length a) -> X * Y <= Z.of_nat (length b) ->
   X * Y <= Z.of_nat (length c) ->
   Lab5Serial.addMat a b c X Y
   = Some (add_cells (take (Z.to_nat (X * Y)) a) (take (Z.to_nat (X * Y)) b)
           ++ drop (Z.to_nat (X * Y)) c)) /\
  (0 < X -> 0 < Y ->
   Z.of_nat (length a) < X * Y \/ Z.of_nat (length b) < X * Y
   \/ Z.of_nat (length c) < X * Y ->
   Lab5Serial.addMat a b c X Y = None).
Proof.
  split; [apply addMat_Some|].
  intros HX HY Hshort. rewrite addMat_flat by lia.
  apply write_cells_None; [nia|].
  destruct (decide (Z.of_nat (length c) < X * Y)) as [Hc|Hc]; [by left|].
  right. destruct Hshort as [Ha|[Hb|?]]; [| |lia].
  - exists (Z.of_nat (length a)). split; [lia|].
    rewrite (buf_get_None a) by lia. reflexivity.
  - exists (Z.of_nat (length b)). split; [lia|].
    rewrite (buf_get_None b) by lia. destruct (buf_get a _); reflexivity.
Qed.

Lemma addMat_cells_witness :
  Lab5Serial.addMat [1; 2; 3] [10; 20; 30] [0; 0; 7] 1 2 = Some [11; 22; 7]
  /\ Lab5Serial.addMat [1; 2] [10] [0; 0] 1 2 = None.
Proof.
  split.
  - apply (proj1 (addMat_cells [1; 2; 3] [10; 20; 30] [0; 0; 7] 1 2));
      cbn; lia.
  - apply (proj2 (addMat_cells [1; 2] [10] [0; 0] 1 2)); cbn; lia.
Defined.

(** ** The checker on degenerate matrices *)

(** X4: [checkCorrectness] reads [v[0]] before it looks at the shape: on an
    empty buffer it reads outside of it, whatever the shape.  With a shape
    that has no cell it prints the success message after that single read.
    When the matrix is larger than a buffer whose cells all compare equal
    to the first, the scan leaves the buffer. *)
Theorem checkCorrectness_degenerate (v : list float32) (X Y : Z) :
  (v = [] -> checkCorrectness v X Y = None) /\
  (forall x, buf_get v 0 = Some x -> X <= 0 \/ Y <= 0 ->
     checkCorrectness v X Y = Some (msg_right, [0])) /\
  (forall x, buf_get v 0 = Some x -> 0 <= X -> 0 <= Y ->
     Z.of_nat (length v) < X * Y ->
     (forall y, y ∈ v -> f32_neb y x = false) ->
     checkCorrectness v X Y = None).
Proof.
  split; [|split].
  - intros ->. reflexivity.
  - intros x Hx Hshape. rewrite checkCorrectness_scan, Hx. cbn.
    replace (Z.to_nat X * Z.to_nat Y)%nat with O by lia. reflexivity.
  - intros x Hx HX HY Hlen Hall. rewrite checkCorrectness_scan, Hx. cbn.
    replace (Z.to_nat X * Z.to_nat Y)%nat
      with (length v + (Z.to_nat (X * Y) - length v))%nat by nia.
    rewrite scan_app, (scan_clean v x (length v) 0 [0]); [|lia|].
    + cbn. destruct (Z.to_nat (X * Y) - length v)%nat as [|c] eqn:Hc; [lia|].
      cbn. by rewrite buf_get_None by lia.
    + intros d Hd. destruct (lookup_lt_is_Some_2 v d Hd) as [y Hy].
      exists y. split; [done|]. apply Hall. by eapply list_elem_of_lookup_2.
Qed.

Lemma checkCorrectness_degenerate_witness :
  checkCorrectness [] 2 2 = None
  /\ checkCorrectness [valB; valA] 0 2 = Some (msg_right, [0])
  /\ checkCorrectness [valB; valB; valB] 2 2 = None.
Proof.
  split; [|split].
  - apply (proj1 (checkCorrectness_degenerate [] 2 2)). reflexivity.
  - apply (proj1 (proj2 (checkCorrectness_degenerate [valB; valA] 0 2)) valB);
      [reflexivity | left; lia].
  - apply (proj2 (proj2 (checkCorrectness_degenerate [valB; valB; valB] 2 2))
             valB); [reflexivity | lia | lia | cbn; lia | ].
    intros y Hy. change [valB; valB; valB] with (replicate 3 valB) in Hy.
    apply elem_of_replicate in Hy as [-> _]. reflexivity.
Defined.

(** ** The product of two matrices of any content *)

Section Product.
Variables (n : Z) (A B : list float32).
Hypothesis n_pos : 0 < n.
Hypothesis A_len : Z.of_nat (length A) = n * n.
Hypothesis B_len : Z.of_nat (length B) = n * n.

(** The reduction loop over [k] of the kernel and of [serialMultiply]. *)
Lemma dot_loop_any row col :
  0 <= row < n -> 0 <= col < n ->
  for_range 0 n (fun k acc =>
      x ← buf_get A (row * n + k);
      y ← buf_get B (k * n + col);
      Some (f32_add acc (f32_mul x y))) f32_zero
  = Some (dot A B n row col).
Proof.
  intros Hr Hc. unfold dot.
  set (step := fun s k =>
    f32_add s (f32_mul (default f32_zero (A !! Z.to_nat (row * n + k)))
                       (default f32_zero (B !! Z.to_nat (k * n + col))))).
  destruct (for_range_inv
    (fun k acc => acc = foldl step f32_zero (seqZ 0 k))
    0 n (fun k acc =>
      x ← buf_get A (row * n + k);
      y ← buf_get B (k * n + col);
      Some (f32_add acc (f32_mul x y))) f32_zero) as (acc & -> & ->);
    [lia|reflexivity| |reflexivity].
  intros k acc Hk ->.
  destruct (lookup_lt_is_Some_2 A (Z.to_nat (row * n + k))) as [x Hx]; [nia|].
  destruct (lookup_lt_is_Some_2 B (Z.to_nat (k * n + col))) as [y Hy]; [nia|].
  rewrite (buf_get_lookup A _ x), (buf_get_lookup B _ y) by (done || nia).
  cbn. eexists. split; [done|].
  rewrite (seqZ_app 0 k 1), foldl_app, Z.add_0_l by lia.
  change (seqZ k 1) with [k]. cbn [foldl].
  subst step. cbn beta. rewrite Hx, Hy. reflexivity.
Qed.

(** One thread of the kernel, at a row and a column of the matrix, writes
    one cell: the cell of its row and column. *)
Lemma matrixMulCUDA_thread_any (bs : Z) (C : list float32)
    bx by_ bz tx ty tz :
  0 <= by_ * bs + ty < n -> 0 <= bx * bs + tx < n -> n < 2 ^ 31 ->
  Z.of_nat (length C) = n * n ->
  matrixMulCUDA (Dim3 bx by_ bz) (Dim3 bs bs 1) (Dim3 tx ty tz) C A B n
  = Some (<[thread_cell n bs (Dim3 bx by_ bz, Dim3 tx ty tz)
            := dot A B n (by_ * bs + ty) (bx * bs + tx)]> C).
Proof.
  intros Hrow Hcol Hmax Hlen. unfold matrixMulCUDA. cbn [dx dy].
  rewrite !to_uint_small by lia. rewrite !to_int_small by lia.
  rewrite dot_loop_any by done. cbn.
  apply buf_set_Some. nia.
Qed.

Lemma thread_cell_value (bs : Z) bx by_ bz tx ty tz :
  0 <= by_ * bs + ty < n -> 0 <= bx * bs + tx < n ->
  product_cell A B n (thread_cell n bs (Dim3 bx by_ bz, Dim3 tx ty tz))
  = dot A B n (by_ * bs + ty) (bx * bs + tx).
Proof.
  intros Hrow Hcol. unfold product_cell, thread_cell. cbn [fst snd dx dy].
  rewrite Z2Nat.id by nia. f_equal.
  - rewrite Z.div_add_l by lia. rewrite Z.div_small by lia. lia.
  - rewrite Z.add_comm, Z.mod_add by lia. apply Z.mod_small. lia.
Qed.

Lemma launch_fold_any (bs : Z) (L : list (dim3 * dim3)) (C : list float32) :
  n < 2 ^ 31 ->
  (forall bt, bt ∈ L ->
     0 <= dy (fst bt) * bs + dy (snd bt) < n /\
     0 <= dx (fst bt) * bs + dx (snd bt) < n) ->
  Z.of_nat (length C) = n * n ->
  foldl (fun om bt =>
           m ← om; matrixMulCUDA (fst bt) (Dim3 bs bs 1) (snd bt) m A B n)
        (Some C) L
  = Some (foldl (fun C bt =>
                   <[thread_cell n bs bt
                     := product_cell A B n (thread_cell n bs bt)]> C) C L).
Proof.
  intros Hmax. revert C. induction L as [|[bi ti] L IH];
    intros C HL Hlen; [done|].
  cbn [foldl]. cbn [mbind option_bind fst snd].
  destruct (HL (bi, ti)) as [Hrow Hcol]; [left|].
  destruct bi as [bx by_ bz], ti as [tx ty tz]. cbn [fst snd dx dy] in *.
  rewrite (matrixMulCUDA_thread_any bs) by (done || lia).
  rewrite <- (thread_cell_value bs bx by_ bz tx ty tz) by done.
  apply IH.
  - intros bt Hbt. apply HL. by right.
  - by rewrite length_insert.
Qed.

Lemma product_lookup (c : nat) :
  Z.of_nat c < n * n -> product A B n !! c = Some (product_cell A B n c).
Proof.
  intros Hc. unfold product. rewrite list_lookup_fmap.
  rewrite lookup_seq_lt by lia. done.
Qed.

Lemma product_length : length (product A B n) = Z.to_nat (n * n).
Proof. unfold product. by rewrite length_fmap, length_seq. Qed.
End Product.

(** Writing at the cells of a list of positions, each with the value of
    its position. *)
Lemma foldl_insert_lookup_at {T I} (idx : I -> nat) (F : nat -> T)
    (L : list I) (C : list T) (k : nat) :
  (k < length C)%nat ->
  C !! k = Some (F k) \/ (exists t, t ∈ L /\ idx t = k) ->
  foldl (fun C t => <[idx t := F (idx t)]> C) C L !! k = Some (F k).
Proof.
  revert C. induction L as [|t L IH]; intros C Hk H.
  - destruct H as [H|(t & Ht & _)]; [done|]. by apply elem_of_nil in Ht.
  - cbn. apply IH; [by rewrite length_insert|].
    destruct (decide (idx t = k)) as [<-|Hne].
    + left. by apply list_lookup_insert_eq.
    + destruct H as [H|(t' & Ht' & Hi)].
      * left. by rewrite list_lookup_insert_ne.
      * right. exists t'. split; [|done].
        apply elem_of_cons in Ht' as [->|Ht']; done.
Qed.

Lemma foldl_insert_lookup_ne {T I} (idx : I -> nat) (F : nat -> T)
    (L : list I) (C : list T) (k : nat) :
  (forall t, t ∈ L -> idx t <> k) ->
  foldl (fun C t => <[idx t := F (idx t)]> C) C L !! k = C !! k.
Proof.
  revert C. induction L as [|t L IH]; intros C H; [done|].
  cbn. rewrite IH by (intros t' Ht'; apply H; by right).
  apply list_lookup_insert_ne. apply H. left.
Qed.

Lemma foldl_insert_length_at {T I} (idx : I -> nat) (F : nat -> T)
    (L : list I) (C : list T) :
  length (foldl (fun C t => <[idx t := F (idx t)]> C) C L) = length C.
Proof.
  revert C. induction L as [|t L IH]; intros C; [done|].
  cbn. by rewrite IH, length_insert.
Qed.

(** Once a thread has left its buffers, the launch has. *)
Lemma foldl_option_fault {S I} (f : I -> S -> option S) (L : list I)
    (os : option S) (t : I) :
  t ∈ L -> (forall s, f t s = None) ->
  foldl (fun os t => s ← os; f t s) os L = None.
Proof.
  intros Ht Hf. revert os. induction L as [|u L IH]; intros os.
  - by apply elem_of_nil in Ht.
  - cbn [foldl]. apply elem_of_cons in Ht as [<-|Ht].
    + replace (s ← os; f t s) with (@None S)
        by (destruct os; [symmetry; apply Hf|done]).
      clear. induction L as [|u L IH]; [done|exact IH].
    + by apply IH.
Qed.

(** A cell has one row and one column. *)
Lemma row_major_inj (n r1 c1 r2 c2 : Z) :
  0 <= c1 < n -> 0 <= c2 < n -> r1 * n + c1 = r2 * n + c2 ->
  r1 = r2 /\ c1 = c2.
Proof.
  intros H1 H2 Heq.
  assert (r1 = (r1 * n + c1) / n) as Hr1
    by (rewrite Z.div_add_l, Z.div_small by lia; lia).
  assert (r2 = (r2 * n + c2) / n) as Hr2
    by (rewrite Z.div_add_l, Z.div_small by lia; lia).
  rewrite Heq, <- Hr2 in Hr1. subst r1. lia.
Qed.

(** The cell of a position of the grid: which thread writes it. *)
Lemma thread_of_cell (n bs gs : Z) (k : nat) :
  0 < bs -> 0 < gs -> n = bs * gs -> Z.of_nat k < n * n ->
  exists bt, bt ∈ launch_threads (Dim3 gs gs 1) (Dim3 bs bs 1)
             /\ thread_cell n bs bt = k.
Proof.
  intros Hbs Hgs Hn Hk. assert (0 < n) as n_pos by nia.
  set (row := Z.of_nat k / n). set (col := Z.of_nat k mod n).
  pose proof (Z.div_mod (Z.of_nat k) n ltac:(lia)) as Hk'.
  pose proof (Z.mod_pos_bound (Z.of_nat k) n n_pos) as Hcol.
  assert (0 <= row < n) as Hrow.
  { split; [apply Z.div_pos; lia|]. apply Z.div_lt_upper_bound; nia. }
  fold row col in Hk', Hcol.
  pose proof (Z.div_mod row bs ltac:(lia)) as Hr.
  pose proof (Z.mod_pos_bound row bs Hbs) as Hr'.
  pose proof (Z.div_mod col bs ltac:(lia)) as Hc.
  pose proof (Z.mod_pos_bound col bs Hbs) as Hc'.
  assert (0 <= row / bs < gs) as Hby.
  { split; [apply Z.div_pos; lia|]. apply Z.div_lt_upper_bound; nia. }
  assert (0 <= col / bs < gs) as Hbx.
  { split; [apply Z.div_pos; lia|]. apply Z.div_lt_upper_bound; nia. }
  exists (Dim3 (col / bs) (row / bs) 0, Dim3 (col mod bs) (row mod bs) 0).
  split.
  - apply launch_threads_elem. cbn. lia.
  - unfold thread_cell. cbn [fst snd dx dy].
    replace (row / bs * bs + row mod bs) with row by lia.
    replace (col / bs * bs + col mod bs) with col by lia.
    lia.
Qed.

Lemma thread_in_matrix (n bs gs : Z) (bt : dim3 * dim3) :
  0 < bs -> 0 < gs ->
  bt ∈ launch_threads (Dim3 gs gs 1) (Dim3 bs bs 1) ->
  0 <= dy (fst bt) * bs + dy (snd bt) < bs * gs /\
  0 <= dx (fst bt) * bs + dx (snd bt) < bs * gs.
Proof.
  intros Hbs Hgs Hin. destruct bt as [bi ti].
  apply launch_threads_elem in Hin. cbn in *. nia.
Qed.

Lemma length_bind_const {A B} (f : A -> list B) (l : list A) (c : nat) :
  (forall x, x ∈ l -> length (f x) = c) ->
  length (l ≫= f) = (length l * c)%nat.
Proof.
  induction l as [|x l IH]; intros Hf; [done|].
  rewrite bind_cons, length_app, Hf by left.
  rewrite IH by (intros y Hy; apply Hf; by right). done.
Qed.

Lemma launch_threads_length (grid threads : dim3) :
  length (launch_threads grid threads)
  = (Z.to_nat (dz grid) * (Z.to_nat (dy grid) * (Z.to_nat (dx grid) *
     (Z.to_nat (dz threads) * (Z.to_nat (dy threads) *
      (Z.to_nat (dx threads) * 1))))))%nat.
Proof.
  unfold launch_threads.
  repeat (erewrite length_bind_const; [rewrite length_seqZ; f_equal|];
          intros ? _).
  reflexivity.
Qed.

(** The launch of [matrixMultiply] and the loops of [serialMultiply] on the
    same inputs. *)
Lemma launch_matrixMulCUDA_any (n bs gs : Z) (A B C : list float32) :
  0 < bs -> 0 < gs -> n = bs * gs -> n < 2 ^ 31 ->
  Z.of_nat (length A) = n * n -> Z.of_nat (length B) = n * n ->
  Z.of_nat (length C) = n * n ->
  launch (fun bi bd ti C => matrixMulCUDA bi bd ti C A B n)
         (Dim3 gs gs 1) (Dim3 bs bs 1) C
  = Some (product A B n).
Proof.
  intros Hbs Hgs Hn Hmax HA HB HC. assert (0 < n) as n_pos by nia.
  unfold launch. rewrite (launch_fold_any n A B n_pos HA HB bs); [|done| |done].
  - f_equal. apply list_eq_same_length with (Z.to_nat (n * n)).
    + by rewrite product_length.
    + rewrite (foldl_insert_length_at (thread_cell n bs) (product_cell A B n)).
      lia.
    + intros k x y Hk Hx Hy.
      rewrite product_lookup in Hy by lia.
      rewrite (foldl_insert_lookup_at (thread_cell n bs) (product_cell A B n))
        in Hx.
      * congruence.
      * lia.
      * right. apply (thread_of_cell n bs gs); (done || lia).
  - intros bt Hbt. rewrite Hn. by apply thread_in_matrix.
Qed.

Lemma serial_loops_any (n : Z) (A B h_C : list float32) :
  0 < n ->
  Z.of_nat (length A) = n * n -> Z.of_nat (length B) = n * n ->
  Z.of_nat (length h_C) = n * n ->
  serial_loops A B h_C n = Some (product A B n).
Proof.
  intros n_pos HA HB Hlen. unfold serial_loops.
  set (Inv := fun (pos : Z) (C : list float32) =>
    length C = length h_C /\
    forall k, (Z.of_nat k < pos) -> C !! k = product A B n !! k).
  destruct (for_range_inv (fun i C => Inv (i * n) C) 0 n
    (fun i h_C => for_range 0 n (fun j h_C =>
       sum ← for_range 0 n (fun k sum =>
                x ← buf_get A (i * n + k);
                y ← buf_get B (k * n + j);
                Some (f32_add sum (f32_mul x y))) f32_zero;
       buf_set h_C (i * n + j) sum) h_C) h_C) as (C & Hrun & HlenC & Hall).
  - lia.
  - split; [done|]. intros k Hk. lia.
  - intros i C0 Hi HP.
    destruct (for_range_inv (fun j C => Inv (i * n + j) C) 0 n
      (fun j h_C =>
         sum ← for_range 0 n (fun k sum =>
                  x ← buf_get A (i * n + k);
                  y ← buf_get B (k * n + j);
                  Some (f32_add sum (f32_mul x y))) f32_zero;
         buf_set h_C (i * n + j) sum) C0) as (C1 & Hrun & HQ).
    + lia.
    + by rewrite Z.add_0_r.
    + intros j C1 Hj [Hlen1 Hall1].
      rewrite (dot_loop_any n A B n_pos HA HB) by lia. cbn.
      rewrite buf_set_Some by nia. eexists. split; [done|]. split.
      * by rewrite length_insert.
      * intros k Hk. destruct (decide (k = Z.to_nat (i * n + j))) as [->|Hne].
        -- rewrite list_lookup_insert_eq by nia.
           rewrite product_lookup by nia. f_equal. unfold product_cell.
           f_equal.
           ++ rewrite Z2Nat.id by nia. rewrite Z.div_add_l by lia.
              rewrite Z.div_small by lia. lia.
           ++ rewrite Z2Nat.id by nia. rewrite Z.add_comm, Z.mod_add by lia.
              symmetry. apply Z.mod_small. lia.
        -- rewrite list_lookup_insert_ne by done. apply Hall1. lia.
    + exists C1. split; [done|].
      replace ((i + 1) * n) with (i * n + n) by lia. done.
  - rewrite Hrun. f_equal.
    apply list_eq_same_length with (Z.to_nat (n * n)).
    + by rewrite product_length.
    + lia.
    + intros k x y Hk Hx Hy. rewrite Hall in Hx by nia. congruence.
Qed.

(** X5: when [A] holds 1.0 in every cell, as both multipliers fill it, and
    [B] is any matrix, the launch of the kernel as [matrixMultiply] makes it
    and the three loops of [serialMultiply] give the same output, cell for
    cell: the matrix [product], each entry accumulated from 0 with [k]
    increasing.  Every product taken is a product by 1.0, which is exact, so
    the values do not depend on whether the compiler fuses the
    multiplication and the addition of the kernel into one operation.  What
    the output buffer held before does not matter. *)
Theorem multipliers_agree_for_unit_A (n bs gs : Z) (B C0 C1 : list float32) :
  valid_launch bs gs n ->
  Z.of_nat (length B) = n * n ->
  Z.of_nat (length C0) = n * n -> Z.of_nat (length C1) = n * n ->
  launch (fun bi bd ti C =>
            matrixMulCUDA bi bd ti C (replicate (Z.to_nat (n * n)) valA) B n)
         (Dim3 gs gs 1) (Dim3 bs bs 1) C0
  = Some (product (replicate (Z.to_nat (n * n)) valA) B n)
  /\ serial_loops (replicate (Z.to_nat (n * n)) valA) B C1 n
     = Some (product (replicate (Z.to_nat (n * n)) valA) B n).
Proof.
  intros Hv HB HC0 HC1.
  destruct (valid_launch_sizes bs gs n Hv) as (Hn & Hmax & _).
  destruct Hv as (Hbs & Hgs & Hprod & _).
  assert (Z.of_nat (length (replicate (Z.to_nat (n * n)) valA)) = n * n) as HA
    by (rewrite length_replicate; lia).
  split.
  - by apply launch_matrixMulCUDA_any.
  - by apply serial_loops_any.
Qed.

Lemma multipliers_agree_for_unit_A_witness :
  let A := replicate (Z.to_nat (2 * 2)) valA in
  let B := f32_of_int <$> [5; 6; 7; 8] in
  launch (fun bi bd ti C => matrixMulCUDA bi bd ti C A B 2)
         (Dim3 2 2 1) (Dim3 1 1 1) (replicate 4 S754_nan)
  = Some (product A B 2)
  /\ serial_loops A B (replicate 4 f32_zero) 2 = Some (product A B 2).
Proof.
  apply (multipliers_agree_for_unit_A 2 1 2); [unfold valid_launch; lia|..];
    reflexivity.
Defined.

(** X6: in the launch of [matrixMultiply] every thread reads [A] and [B]
    and writes one cell of [C], the cell of its row and column; no two
    threads write the same cell and every cell is written: the cells of
    the threads, in the order of the threads, are a permutation of the
    cells of the matrix. *)
Theorem matrixMulCUDA_one_thread_per_cell (n bs gs : Z) :
  valid_launch bs gs n ->
  (forall bt (A B C : list float32),
     bt ∈ launch_threads (Dim3 gs gs 1) (Dim3 bs bs 1) ->
     Z.of_nat (length A) = n * n -> Z.of_nat (length B) = n * n ->
     Z.of_nat (length C) = n * n ->
     exists x,
       matrixMulCUDA (fst bt) (Dim3 bs bs 1) (snd bt) C A B n
       = Some (<[thread_cell n bs bt := x]> C)
       /\ (thread_cell n bs bt < length C)%nat) /\
  thread_cell n bs <$> launch_threads (Dim3 gs gs 1) (Dim3 bs bs 1)
  ≡ₚ seq 0 (Z.to_nat (n * n)).
Proof.
  intros Hv. destruct (valid_launch_sizes bs gs n Hv) as (Hn & Hmax & _).
  destruct Hv as (Hbs & Hgs & Hprod & _). split.
  - intros [[bx by_ bz] [tx ty tz]] A B C Hin HA HB HC.
    destruct (thread_in_matrix n bs gs _ Hbs Hgs Hin) as [Hrow Hcol].
    cbn [fst snd dx dy] in *. rewrite <- Hprod in Hrow, Hcol.
    eexists. split.
    + by apply matrixMulCUDA_thread_any.
    + unfold thread_cell. cbn [fst snd dx dy]. nia.
  - symmetry. apply submseteq_length_Permutation.
    + apply NoDup_submseteq; [apply NoDup_seq|].
      intros k Hk. apply elem_of_seq in Hk.
      destruct (thread_of_cell n bs gs k Hbs Hgs Hprod) as (bt & Hbt & <-);
        [lia|].
      by apply list_elem_of_fmap_2.
    + rewrite length_fmap, launch_threads_length, length_seq. cbn [dx dy dz].
      nia.
Qed.

Lemma matrixMulCUDA_one_thread_per_cell_witness :
  (forall bt (A B C : list float32),
     bt ∈ launch_threads (Dim3 2 2 1) (Dim3 2 2 1) ->
     Z.of_nat (length A) = 4 * 4 -> Z.of_nat (length B) = 4 * 4 ->
     Z.of_nat (length C) = 4 * 4 ->
     exists x,
       matrixMulCUDA (fst bt) (Dim3 2 2 1) (snd bt) C A B 4
       = Some (<[thread_cell 4 2 bt := x]> C)
       /\ (thread_cell 4 2 bt < length C)%nat) /\
  thread_cell 4 2 <$> launch_threads (Dim3 2 2 1) (Dim3 2 2 1)
  ≡ₚ seq 0 (Z.to_nat (4 * 4)).
Proof.
  apply (matrixMulCUDA_one_thread_per_cell 4 2 2). unfold valid_launch. lia.
Defined.

(** X7: the kernel has no test of its row and column against [n].  When
    the grid is larger than the matrix ([n < block_size * grid_size]) the
    launch reads outside of [A]; when it is smaller, the launch completes
    and leaves every cell of a row or a column beyond the grid as it
    was. *)
Theorem matrixMulCUDA_unguarded (n bs gs : Z) (A B C : list float32) :
  0 < n -> 0 < bs -> 0 < gs -> bs * gs < 2 ^ 31 -> n < 2 ^ 31 ->
  Z.of_nat (length A) = n * n -> Z.of_nat (length B) = n * n ->
  Z.of_nat (length C) = n * n ->
  (n < bs * gs ->
     launch (fun bi bd ti C => matrixMulCUDA bi bd ti C A B n)
            (Dim3 gs gs 1) (Dim3 bs bs 1) C = None) /\
  (bs * gs < n ->
     exists C',
       launch (fun bi bd ti C => matrixMulCUDA bi bd ti C A B n)
              (Dim3 gs gs 1) (Dim3 bs bs 1) C = Some C' /\
       forall row col, 0 <= row < n -> 0 <= col < n ->
         bs * gs <= row \/ bs * gs <= col ->
         C' !! Z.to_nat (row * n + col) = C !! Z.to_nat (row * n + col)).
Proof.
  intros Hn Hbs Hgs Hgrid Hmax HA HB HC. split; intros Hcmp.
  - unfold launch.
    apply (foldl_option_fault
             (fun bt m => matrixMulCUDA (fst bt) (Dim3 bs bs 1) (snd bt) m A B n)
             _ _ (Dim3 0 (gs - 1) 0, Dim3 0 (bs - 1) 0)).
    + apply launch_threads_elem. cbn. lia.
    + intros m. unfold matrixMulCUDA. cbn [fst snd dx dy].
      rewrite !to_uint_small by nia. rewrite !to_int_small by nia.
      rewrite for_range_first_None; [reflexivity|lia|].
      rewrite (buf_get_None A); [reflexivity|nia].
  - unfold launch.
    rewrite (launch_fold_any n A B Hn HA HB bs); [|done| |done].
    + eexists. split; [done|]. intros row col Hrow Hcol Hout.
      apply (foldl_insert_lookup_ne (thread_cell n bs) (product_cell A B n)).
      intros [bi ti] Hin.
      destruct (thread_in_matrix n bs gs _ Hbs Hgs Hin) as [Hr Hc].
      unfold thread_cell. cbn [fst snd] in *. intros Heq.
      apply Z2Nat.inj in Heq; [|nia|nia].
      apply row_major_inj in Heq; lia.
    + intros bt Hin.
      destruct (thread_in_matrix n bs gs _ Hbs Hgs Hin) as [Hr Hc]. lia.
Qed.

Lemma matrixMulCUDA_unguarded_witness :
  let A := replicate 4 valA in
  let B := replicate 4 valB in
  launch (fun bi bd ti C => matrixMulCUDA bi bd ti C A B 2)
         (Dim3 3 3 1) (Dim3 1 1 1) (replicate 4 f32_zero) = None
  /\ exists C',
       launch (fun bi bd ti C => matrixMulCUDA bi bd ti C A B 2)
              (Dim3 1 1 1) (Dim3 1 1 1) (replicate 4 f32_zero) = Some C' /\
       forall row col, 0 <= row < 2 -> 0 <= col < 2 ->
         1 * 1 <= row \/ 1 * 1 <= col ->
         C' !! Z.to_nat (row * 2 + col)
         = replicate 4 f32_zero !! Z.to_nat (row * 2 + col).
Proof.
  split.
  - apply (proj1 (matrixMulCUDA_unguarded 2 1 3 (replicate 4 valA)
                    (replicate 4 valB) (replicate 4 f32_zero)
                    ltac:(lia) ltac:(lia) ltac:(lia) ltac:(lia) ltac:(lia)
                    eq_refl eq_refl eq_refl)). lia.
  - apply (proj2 (matrixMulCUDA_unguarded 2 1 1 (replicate 4 valA)
                    (replicate 4 valB) (replicate 4 f32_zero)
                    ltac:(lia) ltac:(lia) ltac:(lia) ltac:(lia) ltac:(lia)
                    eq_refl eq_refl eq_refl)). lia.
Defined.

(** ** Sums of floats that are not negative *)

Lemma shr_1_nonneg (mrs : shr_record) :
  0 <= shr_m mrs -> 0 <= shr_m (shr_1 mrs).
Proof. destruct mrs as [[|[p|p|]|p] r s]; cbn; lia. Qed.

Lemma iter_pos_shr_1_nonneg (p : positive) (mrs : shr_record) :
  0 <= shr_m mrs -> 0 <= shr_m (SpecFloat.iter_pos shr_1 p mrs).
Proof.
  revert mrs. induction p as [p IH|p IH|]; intros mrs H; cbn.
  - apply IH, IH, shr_1_nonneg, H.
  - apply IH, IH, H.
  - apply shr_1_nonneg, H.
Qed.

Lemma shr_fexp_nonneg (prec emax m e : Z) (l : location) :
  0 <= m -> 0 <= shr_m (fst (shr_fexp prec emax m e l)).
Proof.
  intros Hm. unfold shr_fexp, shr.
  assert (0 <= shr_m (shr_record_of_loc m l)) as H0
    by (destruct l as [|[]]; exact Hm).
  destruct (fexp prec emax (Zdigits2 m + e) - e) as [|p|p]; cbn [fst];
    [exact H0| |exact H0].
  apply iter_pos_shr_1_nonneg, H0.
Qed.

Lemma round_nearest_even_nonneg (m : Z) (l : location) :
  0 <= m -> 0 <= round_nearest_even m l.
Proof.
  intros Hm. destruct l as [|[]]; cbn; try lia.
  destruct (Z.even m); lia.
Qed.

(** The rounding of a number that is not negative, with the sign [+], is
    neither negative nor a NaN. *)
Lemma binary_round_aux_nonneg (mx ex : Z) (lx : location) :
  0 <= mx -> f32_nonneg (binary_round_aux 24 128 false mx ex lx).
Proof.
  intros Hm. unfold binary_round_aux.
  pose proof (shr_fexp_nonneg 24 128 mx ex lx Hm) as H1.
  destruct (shr_fexp 24 128 mx ex lx) as [mrs' e']. cbn [fst] in H1.
  pose proof (shr_fexp_nonneg 24 128
    (round_nearest_even (shr_m mrs') (loc_of_shr_record mrs')) e' loc_Exact
    (round_nearest_even_nonneg _ _ H1)) as H2.
  destruct (shr_fexp 24 128 _ e' loc_Exact) as [mrs'' e'']. cbn [fst] in H2.
  destruct (shr_m mrs'') as [|m|m]; [reflexivity| |lia].
  destruct (e'' <=? 128 - 24); reflexivity.
Qed.

Lemma binary_round_nonneg (m : positive) (e : Z) :
  f32_nonneg (binary_round 24 128 false m e).
Proof.
  unfold binary_round. destruct (shl_align m e _) as [mz ez].
  by apply binary_round_aux_nonneg.
Qed.

Lemma f32_add_nonneg (x y : float32) :
  f32_nonneg x -> f32_nonneg y -> f32_nonneg (f32_add x y).
Proof.
  destruct x as [sx|sx| |sx mx ex], y as [sy|sy| |sy my ey];
    cbn [f32_nonneg]; intros Hx Hy; try contradiction; subst;
    try reflexivity.
  unfold f32_add, SFadd, binary_normalize, cond_Zopp.
  cbn [Z.add]. apply binary_round_nonneg.
Qed.

Lemma f32_sum_n_nonneg (count : nat) (x s : float32) :
  f32_nonneg x -> f32_nonneg s -> f32_nonneg (f32_sum_n count x s).
Proof.
  intros Hx. revert s. induction count as [|c IH]; intros s Hs; [exact Hs|].
  cbn [f32_sum_n]. apply IH. by apply f32_add_nonneg.
Qed.

Lemma f32_nonneg_not_nan (x : float32) : f32_nonneg x -> x <> S754_nan.
Proof. intros H ->. exact H. Qed.

(** The entries of the product of the two constant matrices of the source
    are numbers, whatever the size. *)
Lemma dot_const_not_nan (n : Z) : dot_const n valA valB <> S754_nan.
Proof.
  apply f32_nonneg_not_nan. unfold dot_const.
  apply f32_sum_n_nonneg; reflexivity.
Qed.

(** The checker on a buffer filled with one number. *)
Lemma checkCorrectness_replicate (n : Z) (c : float32) :
  0 < n -> c <> S754_nan ->
  checkCorrectness (replicate (Z.to_nat (n * n)) c) n n
  = Some (msg_right, 0 :: seqZ 0 (n * n)).
Proof.
  intros Hn Hc. rewrite checkCorrectness_scan.
  rewrite buf_get_replicate by (rewrite Z2Nat.id; nia).
  cbn [mbind option_bind].
  rewrite (scan_clean _ c (Z.to_nat n * Z.to_nat n) 0 [0]); [|lia|].
  - cbn. do 3 f_equal. rewrite Nat2Z.inj_mul, !Z2Nat.id by lia. done.
  - intros d Hd. exists c. split; [|by apply f32_neb_refl].
    apply lookup_replicate_2. rewrite Z2Nat.inj_mul by lia. lia.
Qed.

(** ** Complete runs in a cooperative environment *)

(** One statement is run and the answers of a cooperative environment are
    put in. *)
Ltac coop_step Hcu Hma :=
  exec_step; rewrite ?Hcu, ?Hma;
  rewrite ?(bool_decide_eq_true_2 (cudaSuccess = cudaSuccess) eq_refl);
  cbv beta iota zeta.

(** The device memory after a buffer that was not live has been allocated,
    written and released. *)
Lemma delete_insert_fresh {T} (m : gmap nat (list T)) (h : nat) (x : list T) :
  h ∉ dom m -> delete h (<[h := x]> m) = m.
Proof.
  intros Hh. apply delete_insert_id. by apply not_elem_of_dom.
Qed.

Lemma matrixMultiply_run E bs gs n (w : world float32) :
  valid_launch bs gs n -> cooperative E ->
  exists d_A d_B d_C,
    Lab6.matrixMultiply E bs gs n w
    = (Ret (event_msec E (11 + calls w)%nat,
            replicate (Z.to_nat (n * n)) (dot_const n valA valB)),
       World (16 + calls w) (3 + mallocs w) (clock_reads w) cudaSuccess (dmem w)
         (trace w ++
          [ Malloc (4 * (n * n)); Malloc (4 * (n * n)); Malloc (4 * (n * n));
            CudaMalloc (4 * (n * n)); CudaMalloc (4 * (n * n));
            CudaMalloc (4 * (n * n));
            CudaMemcpyHostToDevice d_A (4 * (n * n));
            CudaMemcpyHostToDevice d_B (4 * (n * n));
            Output "Computing result using CUDA Kernel...";
            CudaEventCreate ev_start; CudaEventCreate ev_stop;
            CudaEventRecord ev_start;
            KernelLaunch (Dim3 gs gs 1) (Dim3 bs bs 1);
            CudaGetLastError;
            CudaEventRecord ev_stop; CudaEventSynchronize ev_stop;
            CudaEventElapsedTime ev_start ev_stop;
            Output "CUDA elapsed time in msec = %f";
            CudaMemcpyDeviceToHost d_C (4 * (n * n));
            Output msg_right;
            Free; Free; Free;
            CudaFree d_A; CudaFree d_B; CudaFree d_C ])).
Proof.
  intros Hvalid [Hcu Hma].
  destruct (valid_launch_sizes bs gs n Hvalid)
    as (Hn & Hn31 & Hbs & Hgs & Hu & Hi & Hm1 & Hm2 & Hcells).
  destruct Hvalid as (Hbs0 & Hgs0 & Hprod & Hmax).
  destruct (Lab6.matrixMultiply E bs gs n w) as [o w'] eqn:Hrun.
  revert Hrun.
  unfold Lab6.matrixMultiply. cbv beta zeta.
  rewrite Hbs, Hgs, Hu, Hi, Hm1, Hm2.
  set (N := Z.to_nat (n * n)) in *.
  coop_step Hcu Hma. coop_step Hcu Hma. rewrite Hcells, !deref_Some.
  rewrite (constantInit_full (host_garbage E (mallocs w) <$> seq 0 N))
    by (rewrite length_fmap, length_seq; lia).
  rewrite length_fmap, length_seq. coop_step Hcu Hma.
  rewrite (constantInit_full (host_garbage E (S (mallocs w)) <$> seq 0 N))
    by (rewrite length_fmap, length_seq; lia).
  rewrite length_fmap, length_seq.
  repeat coop_step Hcu Hma.
  rewrite ?Hcells in *.
  assert (h0 <> h) as Hne0.
  { intros ->. apply (proj1 Hh0). rewrite dom_insert_L. set_solver. }
  assert (h1 <> h0 /\ h1 <> h) as [Hne1 Hne2].
  { split; intros ->; apply (proj1 Hh1); rewrite !dom_insert_L; set_solver. }
  set (gA := device_garbage E (calls w) <$> seq 0 N) in *.
  set (gB := device_garbage E (S (calls w)) <$> seq 0 N) in *.
  set (gC := device_garbage E (S (S (calls w))) <$> seq 0 N) in *.
  assert (length gA = N /\ length gB = N /\ length gC = N) as (HgA & HgB & HgC)
    by (subst gA gB gC; rewrite !length_fmap, !length_seq; done).
  (* the copy of A *)
  rewrite lookup_insert_ne, lookup_insert_ne, lookup_insert_eq by done.
  cbn [mbind option_bind].
  rewrite copy_cells_full by (rewrite ?length_replicate, ?Hcells; done).
  cbv beta iota.
  (* the copy of B *)
  repeat coop_step Hcu Hma.
  rewrite lookup_insert_ne, lookup_insert_ne, lookup_insert_eq by done.
  cbn [mbind option_bind].
  rewrite copy_cells_full by (rewrite ?length_replicate, ?Hcells; done).
  cbv beta iota.
  repeat coop_step Hcu Hma.
  (* the kernel *)
  subst N.
  rewrite (launch_matrixMulCUDA_on h1 h h0 n _ _ _ gC
             (replicate (Z.to_nat (n * n)) valA)
             (replicate (Z.to_nat (n * n)) valB));
    [ | rewrite lookup_insert_ne, lookup_insert_ne, lookup_insert_eq by done;
        done
      | rewrite lookup_insert_ne, lookup_insert_eq by done; done
      | rewrite lookup_insert_eq; done
      | done | done ].
  rewrite (launch_matrixMulCUDA n valA valB Hn bs gs gC) by (done || lia).
  cbn [mbind option_bind]. cbv beta iota.
  repeat coop_step Hcu Hma.
  (* the copy of C *)
  rewrite lookup_insert_eq. cbn [mbind option_bind].
  rewrite copy_cells_full
    by (rewrite ?length_replicate, ?length_fmap, ?length_seq, ?Hcells; done).
  cbv beta iota.
  repeat coop_step Hcu Hma.
  rewrite (checkCorrectness_replicate n _ Hn (dot_const_not_nan n)).
  cbv beta iota.
  repeat coop_step Hcu Hma.
  exec_end. exists h, h0, h1. f_equal.
  rewrite !(bool_decide_eq_false_2 (_ = 0%nat)) by tauto.
  f_equal.
  - assert (dmem w !! h = None /\ dmem w !! h0 = None /\ dmem w !! h1 = None)
      as (Hn1 & Hn2 & Hn3).
    { rewrite <- !not_elem_of_dom. destruct Hh as [Hh _], Hh0 as [Hh0 _],
        Hh1 as [Hh1 _]. rewrite !dom_insert_L in Hh0, Hh1. set_solver. }
    apply map_eq. intros i.
    destruct (decide (i = h1)) as [->|Hi1]; [by rewrite lookup_delete_eq|].
    rewrite lookup_delete_ne by done.
    destruct (decide (i = h0)) as [->|Hi0]; [by rewrite lookup_delete_eq|].
    rewrite lookup_delete_ne by done.
    destruct (decide (i = h)) as [->|Hi2]; [by rewrite lookup_delete_eq|].
    rewrite lookup_delete_ne by done.
    by rewrite !lookup_insert_ne by done.
  - rewrite <- !app_assoc. reflexivity.
Qed.

Lemma serialMultiply_run E n (w : world float32) :
  0 < n -> n * n < 2 ^ 30 -> (forall k, malloc_null E k = false) ->
  Lab6.serialMultiply E n w
  = (Ret (f32_of_int (steady_clock E (1 + clock_reads w)%nat
                      - steady_clock E (clock_reads w)),
          replicate (Z.to_nat (n * n)) (dot_const n valA valB)),
     World (calls w) (3 + mallocs w) (2 + clock_reads w) (last_error w) (dmem w)
       (trace w ++
        [ Malloc (4 * (n * n)); Malloc (4 * (n * n)); Malloc (4 * (n * n));
          SteadyClockNow; SteadyClockNow;
          Output "Serial time difference = ms"; Output msg_right ])).
Proof.
  intros Hn Hmax Hma.
  destruct (valid_launch_sizes n 1 n)
    as (_ & Hn31 & _ & _ & Hu & Hi & Hm1 & Hm2 & Hcells);
    [unfold valid_launch; lia|].
  destruct (Lab6.serialMultiply E n w) as [o w'] eqn:Hrun. revert Hrun.
  unfold Lab6.serialMultiply. cbv beta zeta.
  rewrite Hu, Hi, Hm1, Hm2.
  exec_step. exec_step. rewrite Hcells, !Hma, !deref_Some.
  rewrite (constantInit_full
             (host_garbage E (mallocs w) <$> seq 0 (Z.to_nat (n * n))))
    by (rewrite length_fmap, length_seq; lia).
  rewrite length_fmap, length_seq. exec_step.
  rewrite (constantInit_full
             (host_garbage E (S (mallocs w)) <$> seq 0 (Z.to_nat (n * n))))
    by (rewrite length_fmap, length_seq; lia).
  rewrite length_fmap, length_seq. exec_step.
  exec_step. exec_step. rewrite Hcells, Hma, deref_Some.
  rewrite (serial_loops_constant n valA valB Hn)
    by (rewrite length_fmap, length_seq; lia).
  exec_step. exec_step. exec_step.
  rewrite (checkCorrectness_replicate n _ Hn (dot_const_not_nan n)).
  exec. exec_end. f_equal. f_equal. rewrite <- !app_assoc. reflexivity.
Qed.

Lemma outputs_app (l k : list call) : outputs (l ++ k) = outputs l ++ outputs k.
Proof. apply omap_app. Qed.

(** The matrix size the driver computes from a valid pair of shapes. *)
Lemma driver_size (b g : Z) :
  valid_launch b g (b * g) ->
  to_int (Lab6.to_size_t (to_int (b * g))) = b * g.
Proof.
  intros Hv. destruct (valid_launch_sizes b g (b * g) Hv) as (Hn & Hn31 & _).
  unfold Lab6.to_size_t. rewrite (to_int_small (b * g)) by lia.
  rewrite Z.mod_small by lia. apply to_int_small. lia.
Qed.

Lemma main_loop_run E inputs bs (w : world float32) :
  cooperative E -> 0 < bs ->
  Forall (fun p => valid_launch (fst p) (snd p) (fst p * snd p)) inputs ->
  exists w',
    Lab6.main_loop E inputs bs w = (Ret tt, w') /\
    outputs (trace w')
    = outputs (trace w) ++ (inputs ≫= fun _ => iteration_outputs)
      ++ ["[-] Block Size = "] /\
    dmem w' = dmem w.
Proof.
  intros Hco. revert bs w.
  induction inputs as [|[b g] inputs IH]; intros bs w Hbs Hall.
  - cbn [Lab6.main_loop].
    rewrite (bool_decide_eq_true_2 (bs > 0)) by lia.
    eexists. split; [reflexivity|]. cbn [trace dmem log]. split; [|done].
    by rewrite outputs_app.
  - apply Forall_cons in Hall as [Hv Hall]. cbn [fst snd] in Hv.
    cbn [Lab6.main_loop]. cbv beta zeta.
    rewrite (bool_decide_eq_true_2 (bs > 0)) by lia.
    rewrite (driver_size b g Hv).
    do 6 (rewrite ?exec_printf, ?exec_emit; exec_simpl).
    rewrite exec_bind.
    match goal with
    | |- context [Lab6.matrixMultiply E b g _ ?w0] =>
        destruct (matrixMultiply_run E b g (b * g) w0 Hv Hco)
          as (dA & dB & dC & ->)
    end.
    destruct (valid_launch_sizes b g (b * g) Hv) as (Hn & _).
    rewrite exec_bind, serialMultiply_run;
      [|done|destruct Hv as (_ & _ & _ & ?); done|apply Hco].
    rewrite exec_printf. exec_simpl.
    match goal with
    | |- context [Lab6.main_loop E inputs b ?w0] =>
        destruct (IH b w0) as (w' & -> & Hout & Hmem);
          [by destruct Hv|exact Hall|]
    end.
    eexists. split; [reflexivity|]. split; [|exact Hmem].
    rewrite Hout. cbn [trace]. rewrite bind_cons.
    rewrite !outputs_app, <- !app_assoc. reflexivity.
Qed.

(** X8: with valid shapes and a cooperative environment both multipliers
    pass their own check, whatever the size: the accelerated multiplier
    prints its two lines and then the success message, the sequential one
    its timing line and then the success message. *)
Theorem multipliers_pass_their_check E bs gs n (w : world float32) :
  valid_launch bs gs n -> cooperative E ->
  outputs (trace (snd (Lab6.matrixMultiply E bs gs n w)))
  = outputs (trace w) ++
    [ "Computing result using CUDA Kernel...";
      "CUDA elapsed time in msec = %f"; msg_right ]
  /\ outputs (trace (snd (Lab6.serialMultiply E n w)))
     = outputs (trace w) ++ [ "Serial time difference = ms"; msg_right ].
Proof.
  intros Hv Hco. destruct (matrixMultiply_run E bs gs n w Hv Hco)
    as (dA & dB & dC & ->).
  destruct (valid_launch_sizes bs gs n Hv) as (Hn & _).
  rewrite serialMultiply_run;
    [|done|destruct Hv as (_ & _ & _ & ?); done|apply Hco].
  cbn [snd trace]. rewrite !outputs_app. done.
Qed.

Lemma multipliers_pass_their_check_witness :
  outputs (trace (snd (Lab6.matrixMultiply quiet_env 2 2 4 initial_world)))
  = outputs (trace (initial_world : world float32)) ++
    [ "Computing result using CUDA Kernel...";
      "CUDA elapsed time in msec = %f"; msg_right ]
  /\ outputs (trace (snd (Lab6.serialMultiply quiet_env 4 initial_world)))
     = outputs (trace (initial_world : world float32))
       ++ [ "Serial time difference = ms"; msg_right ].
Proof.
  apply (multipliers_pass_their_check quiet_env 2 2 4 initial_world).
  - unfold valid_launch. lia.
  - split; intros k; reflexivity.
Defined.

(** X9: what the multipliers return as their time is what the environment
    measured: [matrixMultiply] returns the milliseconds reported by
    [cudaEventElapsedTime], which is its twelfth call of the runtime;
    [serialMultiply] returns the difference of its two readings of the
    steady clock, converted to [float]. *)
Theorem multipliers_report_measured_time E bs gs n (w : world float32) :
  valid_launch bs gs n -> cooperative E ->
  (exists C,
     fst (Lab6.matrixMultiply E bs gs n w)
     = Ret (event_msec E (11 + calls w)%nat, C)) /\
  (exists C,
     fst (Lab6.serialMultiply E n w)
     = Ret (f32_of_int (steady_clock E (1 + clock_reads w)%nat
                        - steady_clock E (clock_reads w)), C)) /\
  clock_reads (snd (Lab6.serialMultiply E n w)) = (2 + clock_reads w)%nat.
Proof.
  intros Hv Hco. destruct (matrixMultiply_run E bs gs n w Hv Hco)
    as (dA & dB & dC & ->).
  destruct (valid_launch_sizes bs gs n Hv) as (Hn & _).
  rewrite serialMultiply_run;
    [|done|destruct Hv as (_ & _ & _ & ?); done|apply Hco].
  split; [by eexists|]. split; [by eexists|done].
Qed.

Lemma multipliers_report_measured_time_witness :
  (exists C,
     fst (Lab6.matrixMultiply other_env 2 2 4 initial_world)
     = Ret (event_msec other_env (11 + 0)%nat, C)) /\
  (exists C,
     fst (Lab6.serialMultiply other_env 4 initial_world)
     = Ret (f32_of_int (steady_clock other_env (1 + 0)%nat
                        - steady_clock other_env 0%nat), C)) /\
  clock_reads (snd (Lab6.serialMultiply other_env 4 initial_world))
  = (2 + 0)%nat.
Proof.
  apply (multipliers_report_measured_time other_env 2 2 4 initial_world).
  - unfold valid_launch. lia.
  - split; intros k; reflexivity.
Defined.

(** X10: a complete run of [matrixMultiply] leaves the device memory as it
    found it: the buffers that were live before the call are live after it
    with the same content, the three buffers of the call are released, and
    no error of a launch is pending. *)
Theorem matrixMultiply_leaves_device_as_found E bs gs n (w : world float32) :
  valid_launch bs gs n -> cooperative E ->
  dmem (snd (Lab6.matrixMultiply E bs gs n w)) = dmem w /\
  last_error (snd (Lab6.matrixMultiply E bs gs n w)) = cudaSuccess.
Proof.
  intros Hv Hco. destruct (matrixMultiply_run E bs gs n w Hv Hco)
    as (dA & dB & dC & ->). done.
Qed.

Lemma matrixMultiply_leaves_device_as_found_witness :
  let w := World 0 0 0 cudaSuccess {[ 1%nat := [valA; valB] ]} [] in
  dmem (snd (Lab6.matrixMultiply quiet_env 2 2 4 w)) = dmem w /\
  last_error (snd (Lab6.matrixMultiply quiet_env 2 2 4 w)) = cudaSuccess.
Proof.
  apply (matrixMultiply_leaves_device_as_found quiet_env 2 2 4).
  - unfold valid_launch. lia.
  - split; intros k; reflexivity.
Defined.

(** X11: while the operator enters valid pairs of shapes and the environment
    cooperates, the driver serves every pair (both multipliers run and pass
    their check), never ends by itself, and is left waiting at the prompt
    for the next worker-group shape; the device memory is then what it was
    at the start. *)
Theorem driver_serves_every_pair E inputs (w : world float32) :
  cooperative E ->
  Forall (fun p => valid_launch (fst p) (snd p) (fst p * snd p)) inputs ->
  fst (Lab6.main_driver E inputs w) = Ret tt /\
  outputs (trace (snd (Lab6.main_driver E inputs w)))
  = outputs (trace w) ++ (inputs ≫= fun _ => iteration_outputs)
    ++ ["[-] Block Size = "] /\
  dmem (snd (Lab6.main_driver E inputs w)) = dmem w.
Proof.
  intros Hco Hall. unfold Lab6.main_driver.
  destruct (main_loop_run E inputs 1 w Hco ltac:(lia) Hall)
    as (w' & -> & Hout & Hmem). done.
Qed.

Lemma driver_serves_every_pair_witness :
  fst (Lab6.main_driver quiet_env [(2, 2); (1, 3)] initial_world) = Ret tt /\
  outputs (trace (snd (Lab6.main_driver quiet_env [(2, 2); (1, 3)]
                         initial_world)))
  = outputs (trace (initial_world : world float32))
    ++ ([(2, 2); (1, 3)] ≫= fun _ => iteration_outputs)
    ++ ["[-] Block Size = "] /\
  dmem (snd (Lab6.main_driver quiet_env [(2, 2); (1, 3)] initial_world))
  = dmem (initial_world : world float32).
Proof.
  apply (driver_serves_every_pair quiet_env [(2, 2); (1, 3)] initial_world).
  - split; intros k; reflexivity.
  - repeat constructor; cbn; lia.
Defined.


(** ** Failures of the host allocator, and the empty matrix *)

(** X13: of the three host allocations of [matrixMultiply] only the last is
    tested.  When [malloc] returns [NULL] for [h_A] or [h_B], both
    multipliers write through the null pointer in [constantInit]; when it
    returns [NULL] for [h_C], [matrixMultiply] prints its message and ends
    the process with [EXIT_FAILURE] before any call of the runtime, while
    [serialMultiply], which has no test at all, writes through the null
    pointer in its loops. *)
Theorem host_allocation_failures E bs gs n (w : world float32) :
  0 < n -> n * n < 2 ^ 30 ->
  (malloc_null E (mallocs w) = true \/ malloc_null E (1 + mallocs w) = true ->
     fst (Lab6.matrixMultiply E bs gs n w) = Fault /\
     fst (Lab6.serialMultiply E n w) = Fault) /\
  (malloc_null E (mallocs w) = false ->
   malloc_null E (1 + mallocs w) = false ->
   malloc_null E (2 + mallocs w) = true ->
     Lab6.matrixMultiply E bs gs n w
     = (Exit EXIT_FAILURE,
        World (calls w) (3 + mallocs w) (clock_reads w) (last_error w) (dmem w)
          (trace w ++ [ Malloc (4 * (n * n)); Malloc (4 * (n * n));
                        Malloc (4 * (n * n));
                        Output "Failed to allocate host matrix C!" ])) /\
     fst (Lab6.serialMultiply E n w) = Fault).
Proof.
  intros Hn Hmax.
  destruct (valid_launch_sizes n 1 n)
    as (_ & Hn31 & _ & _ & Hu & Hi & Hm1 & Hm2 & Hcells);
    [unfold valid_launch; lia|].
  assert (forall k, length (host_garbage E k <$> seq 0 (Z.to_nat (n * n)))
                    = Z.to_nat (n * n)) as Hlen
    by (intros k; by rewrite length_fmap, length_seq).
  split.
  - intros Hnull. split.
    + destruct (Lab6.matrixMultiply E bs gs n w) as [o w'] eqn:Hrun.
      revert Hrun. unfold Lab6.matrixMultiply. cbv beta zeta.
      rewrite Hu, Hi, Hm1, Hm2. exec_step. exec_step. rewrite Hcells.
      destruct (malloc_null E (mallocs w)) eqn:HnA;
        rewrite ?deref_Some, ?deref_None.
      { rewrite constantInit_nil by lia. exec. by exec_end. }
      destruct Hnull as [?|HnB]; [done|]. cbn in HnB. rewrite HnB, deref_None.
      rewrite (constantInit_full (host_garbage E (mallocs w) <$> _))
        by (rewrite Hlen; lia).
      exec_step. rewrite constantInit_nil by lia. exec. by exec_end.
    + destruct (Lab6.serialMultiply E n w) as [o w'] eqn:Hrun.
      revert Hrun. unfold Lab6.serialMultiply. cbv beta zeta.
      rewrite Hu, Hi, Hm1, Hm2. exec_step. exec_step. rewrite Hcells.
      destruct (malloc_null E (mallocs w)) eqn:HnA;
        rewrite ?deref_Some, ?deref_None.
      { rewrite constantInit_nil by lia. exec. by exec_end. }
      destruct Hnull as [?|HnB]; [done|]. cbn in HnB. rewrite HnB, deref_None.
      rewrite (constantInit_full (host_garbage E (mallocs w) <$> _))
        by (rewrite Hlen; lia).
      exec_step. rewrite constantInit_nil by lia. exec. by exec_end.
  - intros HnA HnB HnC. cbn in HnB, HnC. split.
    + destruct (Lab6.matrixMultiply E bs gs n w) as [o w'] eqn:Hrun.
      revert Hrun. unfold Lab6.matrixMultiply. cbv beta zeta.
      rewrite Hu, Hi, Hm1, Hm2. exec_step. exec_step.
      rewrite Hcells, HnA, HnB, !deref_Some.
      rewrite !constantInit_full by (rewrite Hlen; lia).
      exec_step. exec_step. exec_step. rewrite HnC. cbv beta iota.
      exec. exec_end. f_equal. f_equal. rewrite <- !app_assoc. reflexivity.
    + destruct (Lab6.serialMultiply E n w) as [o w'] eqn:Hrun.
      revert Hrun. unfold Lab6.serialMultiply. cbv beta zeta.
      rewrite Hu, Hi, Hm1, Hm2. exec_step. exec_step.
      rewrite Hcells, HnA, HnB, !deref_Some.
      rewrite !constantInit_full by (rewrite Hlen; lia).
      rewrite !Hlen.
      exec_step. exec_step. exec_step. exec_step. rewrite HnC, deref_None.
      rewrite serial_loops_nil by lia. exec. by exec_end.
Qed.

Lemma host_allocation_failures_witness :
  (fst (Lab6.matrixMultiply (out_of_memory_env 0) 1 1 1 initial_world) = Fault /\
   fst (Lab6.serialMultiply (out_of_memory_env 0) 1 initial_world) = Fault) /\
  (Lab6.matrixMultiply (out_of_memory_env 2) 1 1 1 initial_world
   = (Exit EXIT_FAILURE,
      World 0 3 0 cudaSuccess ∅
        [ Malloc 4; Malloc 4; Malloc 4;
          Output "Failed to allocate host matrix C!" ]) /\
   fst (Lab6.serialMultiply (out_of_memory_env 2) 1 initial_world) = Fault).
Proof.
  split.
  - apply (proj1 (host_allocation_failures (out_of_memory_env 0) 1 1 1
                    initial_world ltac:(lia) ltac:(lia))).
    left. reflexivity.
  - apply (proj2 (host_allocation_failures (out_of_memory_env 2) 1 1 1
                    initial_world ltac:(lia) ltac:(lia))); reflexivity.
Defined.

Lemma copy_cells_zero {T} (dst src : list T) : copy_cells dst src 0 = Some dst.
Proof.
  unfold copy_cells. change (cells_of 0) with 0%nat.
  rewrite !bool_decide_eq_true_2 by lia. reflexivity.
Qed.

(** X14: for the empty matrix ([n = 0]) the three host buffers have no
    cell, and [checkCorrectness], which reads [v[0]] first, reads outside of
    its buffer.  Every run of [serialMultiply] gets to that read, right
    after the timing line is printed; what the program does from there on
    is undefined.  A run of [matrixMultiply] either ends the process with
    [EXIT_FAILURE] before, or makes an access outside of a buffer: that
    read, or before it the write of a thread of the launch into [C]. *)
Theorem empty_matrix_checked_outside E bs gs (w : world float32) :
  Lab6.serialMultiply E 0 w
  = (Fault,
     World (calls w) (3 + mallocs w) (2 + clock_reads w) (last_error w)
           (dmem w)
           (trace w ++ [ Malloc 0; Malloc 0; Malloc 0;
                         SteadyClockNow; SteadyClockNow;
                         Output "Serial time difference = ms" ])) /\
  (fst (Lab6.matrixMultiply E bs gs 0 w) = Fault \/
   fst (Lab6.matrixMultiply E bs gs 0 w) = Exit EXIT_FAILURE).
Proof.
  assert (forall b k, deref (if b : bool then None else
            Some (host_garbage E k <$> seq 0 (cells_of 0))) = []) as Hd
    by (intros [] k; reflexivity).
  split.
  - destruct (Lab6.serialMultiply E 0 w) as [o w'] eqn:Hrun.
    revert Hrun. unfold Lab6.serialMultiply. cbv beta zeta.
    change (to_uint (0 * 0)) with 0.
    change (to_uint (sizeof_float * 0)) with 0.
    change (to_uint (0 * 0 * sizeof_float)) with 0.
    change (to_int 0) with 0.
    exec_step. exec_step. rewrite !Hd.
    change (constantInit [] 0 ?v) with (Some (@nil float32)).
    do 3 exec_step. rewrite Hd. exec_step.
    change (serial_loops [] [] [] 0) with (Some (@nil float32)).
    exec.
    all: try match goal with
             | H : checkCorrectness [] 0 0 = Some _ |- _ => discriminate H
             end.
    all: exec_end; rewrite <- !app_assoc; reflexivity.
  - destruct (Lab6.matrixMultiply E bs gs 0 w) as [o w'] eqn:Hrun.
    revert Hrun. unfold Lab6.matrixMultiply. cbv beta zeta.
    change (to_uint (0 * 0)) with 0.
    change (to_uint (sizeof_float * 0)) with 0.
    change (to_uint (0 * 0 * sizeof_float)) with 0.
    change (to_int 0) with 0.
    exec_step. exec_step. rewrite !Hd.
    change (constantInit [] 0 ?v) with (Some (@nil float32)).
    exec.
    all: try (exec_end; cbn [fst]; first [by left | by right]).
    all: exfalso.
    all: match goal with
         | Hl : (_ ≫= _) = Some ?l, Hc : checkCorrectness ?l 0 0 = Some _ |- _ =>
             apply bind_Some in Hl as (dev & _ & Hl);
             rewrite copy_cells_zero in Hl; injection Hl as <-;
             discriminate Hc
         end.
Qed.

(** ** Lab 5: the launch of [addKernel] *)

Section AddKernel.
Variables (X Y : Z) (A B : list Z) (c a b : nat).
Hypothesis X_pos : 0 < X.
Hypothesis Y_pos : 0 < Y.
Hypothesis XY_max : X * Y < 2 ^ 30.
Hypothesis A_len : Z.of_nat (length A) = X * Y.
Hypothesis B_len : Z.of_nat (length B) = X * Y.
Hypothesis c_a : c <> a.
Hypothesis c_b : c <> b.

Let F (k : nat) : Z := to_int (default 0 (A !! k) + default 0 (B !! k)).

Lemma addKernel_thread (m : gmap nat (list Z)) (C : list Z) bi tx ty tz :
  m !! a = Some A -> m !! b = Some B -> m !! c = Some C ->
  Z.of_nat (length C) = X * Y ->
  0 <= tx < X -> 0 <= ty < Y ->
  Lab5.addKernel c a b bi (Dim3 X Y 1) (Dim3 tx ty tz) m
  = Some (<[c := <[add_cell Y (bi, Dim3 tx ty tz)
                   := F (add_cell Y (bi, Dim3 tx ty tz))]> C]> m).
Proof.
  intros Ha Hb Hc HC Htx Hty. unfold Lab5.addKernel, add_cell.
  cbn [dx dy fst snd]. rewrite Ha, Hb, Hc. cbn [mbind option_bind].
  rewrite !to_int_small by nia.
  destruct (lookup_lt_is_Some_2 A (Z.to_nat (tx * Y + ty))) as [x Hx]; [nia|].
  destruct (lookup_lt_is_Some_2 B (Z.to_nat (tx * Y + ty))) as [y Hy]; [nia|].
  rewrite (buf_get_lookup A _ x), (buf_get_lookup B _ y) by (done || nia).
  cbn [mbind option_bind]. rewrite buf_set_Some by nia.
  cbn [mbind option_bind]. unfold F. by rewrite Hx, Hy.
Qed.

Lemma addKernel_fold (m0 : gmap nat (list Z)) (L : list (dim3 * dim3))
    (C : list Z) :
  m0 !! a = Some A -> m0 !! b = Some B ->
  Z.of_nat (length C) = X * Y ->
  (forall bt, bt ∈ L ->
     0 <= dx (snd bt) < X /\ 0 <= dy (snd bt) < Y) ->
  foldl (fun om bt =>
           m ← om; Lab5.addKernel c a b (fst bt) (Dim3 X Y 1) (snd bt) m)
        (Some (<[c := C]> m0)) L
  = Some (<[c := foldl (fun C bt => <[add_cell Y bt := F (add_cell Y bt)]> C)
                       C L]> m0).
Proof.
  intros Ha Hb. revert C. induction L as [|[bi [tx ty tz]] L IH];
    intros C HC HL; [done|].
  cbn [foldl]. cbn [mbind option_bind fst snd].
  destruct (HL (bi, Dim3 tx ty tz)) as [Htx Hty]; [left|]. cbn in Htx, Hty.
  rewrite (addKernel_thread _ C) by
    (rewrite ?lookup_insert_eq, ?lookup_insert_ne by done; done).
  rewrite insert_insert_eq. apply IH.
  - by rewrite length_insert.
  - intros bt Hbt. apply HL. by right.
Qed.

Lemma launch_addKernel (m : gmap nat (list Z)) (C : list Z) :
  m !! a = Some A -> m !! b = Some B -> m !! c = Some C ->
  Z.of_nat (length C) = X * Y ->
  launch (Lab5.addKernel c a b) (Dim3 1 1 1) (Dim3 X Y 1) m
  = Some (<[c := add_cells A B]> m).
Proof.
  intros Ha Hb Hc HC. unfold launch.
  rewrite <- (insert_id m c C Hc) at 1.
  rewrite addKernel_fold; [|done|done|done|].
  - do 2 f_equal.
    apply list_eq_same_length with (Z.to_nat (X * Y)).
    + unfold add_cells. rewrite length_zip_with. lia.
    + rewrite (foldl_insert_length_at (add_cell Y) F). lia.
    + intros k x y Hk Hx Hy.
      rewrite (foldl_insert_lookup_at (add_cell Y) F) in Hx.
      * unfold add_cells in Hy. rewrite lookup_zip_with in Hy.
        destruct (lookup_lt_is_Some_2 A k) as [u Hu]; [lia|].
        destruct (lookup_lt_is_Some_2 B k) as [v Hv]; [lia|].
        unfold F in Hx. rewrite Hu, Hv in Hx, Hy. cbn in Hx, Hy. congruence.
      * lia.
      * right.
        exists (Dim3 0 0 0, Dim3 (Z.of_nat k / Y) (Z.of_nat k mod Y) 0).
        pose proof (Z.div_mod (Z.of_nat k) Y ltac:(lia)).
        pose proof (Z.mod_pos_bound (Z.of_nat k) Y Y_pos).
        assert (0 <= Z.of_nat k / Y < X).
        { split; [apply Z.div_pos; lia|]. apply Z.div_lt_upper_bound; nia. }
        split; [apply launch_threads_elem; cbn; lia|].
        unfold add_cell. cbn [fst snd dx dy]. lia.
  - intros [bi ti] Hin. apply launch_threads_elem in Hin. cbn in Hin.
    cbn [snd]. lia.
Qed.
End AddKernel.

(** ** Lab 5: complete runs of [addWithCuda] *)

Lemma copy_cells_to_device {T} (old src : list T) (bytes : Z) :
  length old = cells_of bytes -> (cells_of bytes <= length src)%nat ->
  copy_cells old src bytes = Some (take (cells_of bytes) src).
Proof.
  intros Ho Hs. unfold copy_cells.
  rewrite !bool_decide_eq_true_2 by lia. cbn.
  by rewrite drop_ge, app_nil_r by lia.
Qed.

Lemma copy_cells_to_host {T} (dst dev : list T) (bytes : Z) :
  length dev = cells_of bytes -> (cells_of bytes <= length dst)%nat ->
  copy_cells dst dev bytes = Some (dev ++ drop (cells_of bytes) dst).
Proof.
  intros Hd Hs. unfold copy_cells.
  rewrite !bool_decide_eq_true_2 by lia. cbn.
  by rewrite take_ge by lia.
Qed.

(** One statement is run and the answers of the nine calls before the
    label [Error] are put in. *)
Ltac nine_step H0 H1 H2 H3 H4 H5 H6 H7 H8 Hne :=
  exec_step; rewrite ?H0, ?H1, ?H2, ?H3, ?H4, ?H5, ?H6, ?H7, ?H8;
  rewrite ?(bool_decide_eq_true_2 (cudaSuccess = cudaSuccess) eq_refl), ?Hne;
  cbv beta iota zeta.

Lemma addWithCuda_body_run (E : env Z) (c a b : list Z) (X Y : Z)
    (w : world Z) :
  (forall k, (k < 9)%nat -> cuda_result E (k + calls w) = cudaSuccess) ->
  0 < X -> 0 < Y -> X * Y < 2 ^ 30 ->
  X * Y <= Z.of_nat (length a) -> X * Y <= Z.of_nat (length b) ->
  X * Y <= Z.of_nat (length c) ->
  exists dev_c dev_a dev_b,
    dev_c ∉ dom (dmem w) /\ dev_a ∉ dom (dmem w) /\ dev_b ∉ dom (dmem w) /\
    dev_c <> 0%nat /\ dev_a <> 0%nat /\ dev_b <> 0%nat /\
    dev_a <> dev_c /\ dev_b <> dev_c /\ dev_b <> dev_a /\
    Lab5.addWithCuda_body E c a b X Y w
    = (Ret (cudaSuccess, dev_a, dev_b, dev_c,
            add_cells (take (Z.to_nat (X * Y)) a) (take (Z.to_nat (X * Y)) b)
            ++ drop (Z.to_nat (X * Y)) c),
       World (9 + calls w) (mallocs w) (clock_reads w) cudaSuccess
         (<[dev_c := add_cells (take (Z.to_nat (X * Y)) a)
                               (take (Z.to_nat (X * Y)) b)]>
            (<[dev_b := take (Z.to_nat (X * Y)) b]>
               (<[dev_a := take (Z.to_nat (X * Y)) a]>
                  (<[dev_b := device_garbage E (3 + calls w)
                              <$> seq 0 (Z.to_nat (X * Y))]>
                     (<[dev_a := device_garbage E (2 + calls w)
                                 <$> seq 0 (Z.to_nat (X * Y))]>
                        (<[dev_c := device_garbage E (1 + calls w)
                                    <$> seq 0 (Z.to_nat (X * Y))]>
                           (dmem w)))))))
         (trace w ++
          [ CudaSetDevice 0;
            CudaMalloc (X * Y * 4); CudaMalloc (X * Y * 4);
            CudaMalloc (X * Y * 4);
            CudaMemcpyHostToDevice dev_a (X * Y * 4);
            CudaMemcpyHostToDevice dev_b (X * Y * 4);
            KernelLaunch (Dim3 1 1 1) (Dim3 X Y 1);
            CudaGetLastError; CudaDeviceSynchronize;
            CudaMemcpyDeviceToHost dev_c (X * Y * 4) ])).
Proof.
  intros Hnine HX HY Hmax Ha Hb Hc.
  pose proof (Hnine 0%nat ltac:(lia)) as H0.
  pose proof (Hnine 1%nat ltac:(lia)) as H1.
  pose proof (Hnine 2%nat ltac:(lia)) as H2.
  pose proof (Hnine 3%nat ltac:(lia)) as H3.
  pose proof (Hnine 4%nat ltac:(lia)) as H4.
  pose proof (Hnine 5%nat ltac:(lia)) as H5.
  pose proof (Hnine 6%nat ltac:(lia)) as H6.
  pose proof (Hnine 7%nat ltac:(lia)) as H7.
  pose proof (Hnine 8%nat ltac:(lia)) as H8.
  cbn [Nat.add] in H0, H1, H2, H3, H4, H5, H6, H7, H8. clear Hnine.
  assert (to_uint (X * Y) = X * Y) as Hu by (apply to_uint_small; nia).
  assert (to_uint X = X /\ to_uint Y = Y) as [HuX HuY]
    by (split; apply to_uint_small; nia).
  assert (cells_of (X * Y * 4) = Z.to_nat (X * Y)) as Hcells.
  { unfold cells_of. by rewrite Z.div_mul by lia. }
  destruct (Lab5.addWithCuda_body E c a b X Y w) as [o w'] eqn:Hrun.
  revert Hrun.
  unfold Lab5.addWithCuda_body. cbv beta zeta.
  unfold sizeof_int. rewrite Hu, HuX, HuY.
  assert (Hne : bool_decide (cudaSuccess ≠ cudaSuccess) = false)
    by (apply bool_decide_eq_false_2; intros H; by apply H).
  repeat nine_step H0 H1 H2 H3 H4 H5 H6 H7 H8 Hne.
  rewrite ?Hcells in *. set (N := Z.to_nat (X * Y)) in *.
  assert (h0 <> h) as Hne0.
  { intros ->. apply (proj1 Hh0). rewrite dom_insert_L. set_solver. }
  assert (h1 <> h0 /\ h1 <> h) as [Hne1 Hne2].
  { split; intros ->; apply (proj1 Hh1); rewrite !dom_insert_L; set_solver. }
  set (gC := device_garbage E (S (calls w)) <$> seq 0 N) in *.
  set (gA := device_garbage E (S (S (calls w))) <$> seq 0 N) in *.
  set (gB := device_garbage E (S (S (S (calls w)))) <$> seq 0 N) in *.
  assert (length gA = N /\ length gB = N /\ length gC = N) as (HgA & HgB & HgC)
    by (subst gA gB gC; rewrite !length_fmap, !length_seq; done).
  assert (N <= length a /\ N <= length b /\ N <= length c)%nat
    as (HNa & HNb & HNc) by lia.
  (* the copy of a *)
  rewrite lookup_insert_ne, lookup_insert_eq by done.
  cbn [mbind option_bind].
  rewrite copy_cells_to_device by (rewrite ?Hcells; done).
  cbv beta iota. rewrite Hcells. fold N.
  repeat nine_step H0 H1 H2 H3 H4 H5 H6 H7 H8 Hne.
  (* the copy of b *)
  rewrite lookup_insert_ne, lookup_insert_eq by done.
  cbn [mbind option_bind].
  rewrite copy_cells_to_device by (rewrite ?Hcells; done).
  cbv beta iota. rewrite Hcells. fold N.
  repeat nine_step H0 H1 H2 H3 H4 H5 H6 H7 H8 Hne.
  (* the kernel *)
  rewrite (launch_addKernel X Y (take N a) (take N b) h h0 h1 HX HY Hmax)
    with (C := gC);
    [ | rewrite length_take; lia | rewrite length_take; lia | done | done
      | rewrite lookup_insert_ne, lookup_insert_eq by done; done
      | rewrite lookup_insert_eq; done
      | rewrite !lookup_insert_ne, lookup_insert_eq by done; done
      | lia ].
  cbv beta iota.
  repeat nine_step H0 H1 H2 H3 H4 H5 H6 H7 H8 Hne.
  (* the copy of c *)
  rewrite lookup_insert_eq. cbn [mbind option_bind].
  rewrite copy_cells_to_host;
    [ | unfold add_cells; rewrite length_zip_with, !length_take, Hcells; lia
      | rewrite Hcells; done ].
  cbv beta iota. rewrite Hcells. fold N.
  repeat nine_step H0 H1 H2 H3 H4 H5 H6 H7 H8 Hne.
  exec_end. exists h, h0, h1.
  destruct Hh as [Hh Hz], Hh0 as [Hh0 Hz0], Hh1 as [Hh1 Hz1].
  rewrite !dom_insert_L in Hh0, Hh1.
  repeat (split; [first [done | set_solver]|]).
  f_equal. f_equal. rewrite <- !app_assoc. reflexivity.
Qed.

Lemma addWithCuda_run (E : env Z) (c a b : list Z) (X Y : Z) (w : world Z) :
  (forall k, (k < 9)%nat -> cuda_result E (k + calls w) = cudaSuccess) ->
  0 < X -> 0 < Y -> X * Y < 2 ^ 30 ->
  X * Y <= Z.of_nat (length a) -> X * Y <= Z.of_nat (length b) ->
  X * Y <= Z.of_nat (length c) ->
  exists dev_c dev_a dev_b,
    Lab5.addWithCuda E c a b X Y w
    = (Ret (cudaSuccess,
            add_cells (take (Z.to_nat (X * Y)) a) (take (Z.to_nat (X * Y)) b)
            ++ drop (Z.to_nat (X * Y)) c),
       World (12 + calls w) (mallocs w) (clock_reads w) cudaSuccess (dmem w)
         (trace w ++
          [ CudaSetDevice 0;
            CudaMalloc (X * Y * 4); CudaMalloc (X * Y * 4);
            CudaMalloc (X * Y * 4);
            CudaMemcpyHostToDevice dev_a (X * Y * 4);
            CudaMemcpyHostToDevice dev_b (X * Y * 4);
            KernelLaunch (Dim3 1 1 1) (Dim3 X Y 1);
            CudaGetLastError; CudaDeviceSynchronize;
            CudaMemcpyDeviceToHost dev_c (X * Y * 4);
            CudaFree dev_c; CudaFree dev_a; CudaFree dev_b ])).
Proof.
  intros Hco HX HY Hmax Ha Hb Hc.
  destruct (addWithCuda_body_run E c a b X Y w Hco HX HY Hmax Ha Hb Hc)
    as (dc & da & db & Hc1 & Ha1 & Hb1 & Hc0 & Ha0 & Hb0 & Hac & Hbc & Hba
        & Hbody).
  destruct (Lab5.addWithCuda E c a b X Y w) as [o w'] eqn:Hrun. revert Hrun.
  unfold Lab5.addWithCuda. rewrite exec_bind, Hbody. cbv beta iota.
  rewrite !exec_cudaFree, exec_mret. exec_simpl.
  exec_end. exists dc, da, db.
  rewrite !(bool_decide_eq_false_2 (_ = 0%nat)) by done.
  f_equal. f_equal.
  - apply map_eq. intros i.
    apply not_elem_of_dom in Hc1, Ha1, Hb1.
    destruct (decide (i = db)) as [->|Hi1]; [by rewrite lookup_delete_eq|].
    rewrite lookup_delete_ne by done.
    destruct (decide (i = da)) as [->|Hi0]; [by rewrite lookup_delete_eq|].
    rewrite lookup_delete_ne by done.
    destruct (decide (i = dc)) as [->|Hi2]; [by rewrite lookup_delete_eq|].
    rewrite lookup_delete_ne by done.
    by rewrite !lookup_insert_ne by done.
  - rewrite <- !app_assoc. reflexivity.
Qed.

(** ** Lab 5: the status that [addWithCuda] returns *)

(** The first failure among the calls of a run: its number is looked for
    among the first nine. *)
Ltac first_failure k :=
  first
    [ exists k; split; [lia|]; split; [reflexivity|];
      let j := fresh "j" in let Hj := fresh "Hj" in
      intros j Hj;
      do 9 (destruct j as [|j];
            [first [cbn [Nat.add]; assumption | exfalso; lia]|]);
      exfalso; lia
    | lazymatch k with
      | 9%nat => fail
      | _ => first_failure constr:(S k)
      end ].

Lemma addWithCuda_body_status E c a b X Y (w w' : world Z) o :
  Lab5.addWithCuda_body E c a b X Y w = (o, w') ->
  forall st da db dc c', o = Ret (st, da, db, dc, c') ->
    (st = cudaSuccess ->
       forall k, (k < 9)%nat -> cuda_result E (k + calls w) = cudaSuccess) /\
    (st <> cudaSuccess ->
       c' = c /\
       exists k, (k < 9)%nat /\ st = cuda_result E (k + calls w) /\
         forall j, (j < k)%nat -> cuda_result E (j + calls w) = cudaSuccess).
Proof.
  unfold Lab5.addWithCuda_body. cbv beta zeta. exec.
  all: exec_end.
  all: intros st da db dc c' Heq; try discriminate Heq.
  all: injection Heq as <- <- <- <- <-.
  all: repeat match goal with
              | H : ¬ (_ ≠ _) |- _ => apply dec_stable in H
              end.
  all: split;
    [ intros Hst; try contradiction;
      let k := fresh "k" in let Hk := fresh "Hk" in
      intros k Hk;
      do 9 (destruct k as [|k]; [cbn [Nat.add]; assumption|]); exfalso; lia
    | intros Hst; try contradiction ].
  all: split; [reflexivity|].
  all: first_failure 0%nat.
Qed.

(** The same for the whole function: the three [cudaFree] after the
    label change neither the status nor [c]. *)
Lemma addWithCuda_status (E : env Z) (c a b : list Z)
    (X Y : Z) (w : world Z) (st : cudaError_t) (c' : list Z) :
  fst (Lab5.addWithCuda E c a b X Y w) = Ret (st, c') ->
  (st = cudaSuccess <->
     forall k, (k < 9)%nat -> cuda_result E (k + calls w) = cudaSuccess) /\
  (st <> cudaSuccess ->
     c' = c /\
     exists k, (k < 9)%nat /\ st = cuda_result E (k + calls w) /\
       forall j, (j < k)%nat -> cuda_result E (j + calls w) = cudaSuccess).
Proof.
  unfold Lab5.addWithCuda. rewrite exec_bind.
  destruct (Lab5.addWithCuda_body E c a b X Y w) as [o1 w1] eqn:Hbody.
  pose proof (addWithCuda_body_status E c a b X Y w w1 o1 Hbody) as Hst.
  destruct o1 as [[[[[st1 da] db] dc] c1]|s|]; cbv beta iota;
    [|discriminate|discriminate].
  destruct (Hst st1 da db dc c1 eq_refl) as [Hok Hfail].
  rewrite !exec_cudaFree. rewrite exec_mret. cbn [fst].
  intros [= <- <-]. split; [|exact Hfail]. split; [exact Hok|].
  intros Hall. destruct (decide (st1 = cudaSuccess)) as [|Hne]; [done|].
  destruct (Hfail Hne) as (_ & k & Hk & Heq & _).
  rewrite Hall in Heq by done. done.
Qed.

(** X15: when its nine calls of the runtime before the label [Error]
    succeed, [addWithCuda] returns [cudaSuccess] with [c] holding what the
    sequential [addMat] computes from the same buffers, and it leaves the
    device memory as it found it, whatever the three [cudaFree] return. *)
Theorem addWithCuda_agrees_with_addMat (E : env Z) (c a b : list Z)
    (X Y : Z) (w : world Z) :
  (forall k, (k < 9)%nat -> cuda_result E (k + calls w) = cudaSuccess) ->
  0 < X -> 0 < Y -> X * Y < 2 ^ 30 ->
  X * Y <= Z.of_nat (length a) -> X * Y <= Z.of_nat (length b) ->
  X * Y <= Z.of_nat (length c) ->
  exists c',
    fst (Lab5.addWithCuda E c a b X Y w) = Ret (cudaSuccess, c') /\
    Lab5Serial.addMat a b c X Y = Some c' /\
    c' = add_cells (take (Z.to_nat (X * Y)) a) (take (Z.to_nat (X * Y)) b)
         ++ drop (Z.to_nat (X * Y)) c /\
    dmem (snd (Lab5.addWithCuda E c a b X Y w)) = dmem w.
Proof.
  intros Hco HX HY Hmax Ha Hb Hc.
  destruct (addWithCuda_run E c a b X Y w Hco HX HY Hmax Ha Hb Hc)
    as (dc & da & db & ->).
  eexists. split; [reflexivity|]. split; [|done].
  apply addMat_Some; lia.
Qed.

Lemma addWithCuda_agrees_with_addMat_witness :
  exists c',
    fst (Lab5.addWithCuda lab5_quiet [0; 0; 0; 0; 9] [1; 2; 3; 4] [10; 20; 30; 40]
           2 2 initial_world) = Ret (cudaSuccess, c') /\
    Lab5Serial.addMat [1; 2; 3; 4] [10; 20; 30; 40] [0; 0; 0; 0; 9] 2 2
    = Some c' /\
    c' = add_cells (take (Z.to_nat (2 * 2)) [1; 2; 3; 4])
                   (take (Z.to_nat (2 * 2)) [10; 20; 30; 40])
         ++ drop (Z.to_nat (2 * 2)) [0; 0; 0; 0; 9] /\
    dmem (snd (Lab5.addWithCuda lab5_quiet [0; 0; 0; 0; 9] [1; 2; 3; 4]
                 [10; 20; 30; 40] 2 2 initial_world))
    = dmem (initial_world : world Z).
Proof.
  apply (addWithCuda_agrees_with_addMat lab5_quiet [0; 0; 0; 0; 9]
           [1; 2; 3; 4] [10; 20; 30; 40] 2 2 initial_world);
    [intros k _; reflexivity | lia | lia | lia | cbn; lia ..].
Defined.

(** X16: the status that [addWithCuda] returns is that of the first of its
    nine calls before the label [Error] that failed ([cudaSetDevice], the
    three [cudaMalloc], the two copies to the device, the launch as
    reported by [cudaGetLastError], [cudaDeviceSynchronize], the copy
    back), and [cudaSuccess] when none failed; what the three [cudaFree]
    after the label return is ignored.  When the status is a failure the
    buffer [c] is as it was. *)
Theorem addWithCuda_returns_first_failure (E : env Z) (c a b : list Z)
    (X Y : Z) (w : world Z) (st : cudaError_t) (c' : list Z) :
  fst (Lab5.addWithCuda E c a b X Y w) = Ret (st, c') ->
  (st = cudaSuccess <->
     forall k, (k < 9)%nat -> cuda_result E (k + calls w) = cudaSuccess) /\
  (st <> cudaSuccess ->
     c' = c /\
     exists k, (k < 9)%nat /\ st = cuda_result E (k + calls w) /\
       forall j, (j < k)%nat -> cuda_result E (j + calls w) = cudaSuccess).
Proof. apply addWithCuda_status. Qed.

Lemma addWithCuda_returns_first_failure_witness :
  (2 = cudaSuccess <->
     forall k, (k < 9)%nat ->
       cuda_result (lab5_failing 4) (k + calls (initial_world : world Z))
       = cudaSuccess) /\
  (2 <> cudaSuccess ->
     [0; 0; 0; 0] = [0; 0; 0; 0] /\
     exists k, (k < 9)%nat /\
       2 = cuda_result (lab5_failing 4) (k + calls (initial_world : world Z)) /\
       forall j, (j < k)%nat ->
         cuda_result (lab5_failing 4) (j + calls (initial_world : world Z))
         = cudaSuccess).
Proof.
  apply (addWithCuda_returns_first_failure (lab5_failing 4) [0; 0; 0; 0]
           [1; 2; 3; 4] [10; 20; 30; 40] 2 2 initial_world 2 [0; 0; 0; 0]).
  vm_compute. reflexivity.
Defined.

(** ** Loops that print, and [printMat] *)

Section ForEach.
Context {T : Type}.
Implicit Types (body : Z -> M T unit) (w : world T) (f : Z -> list call).

Lemma logged_nil w : logged [] w = w.
Proof. destruct w. unfold logged. cbn. by rewrite app_nil_r. Qed.

Lemma logged_logged (l1 l2 : list call) w :
  logged l2 (logged l1 w) = logged (l1 ++ l2) w.
Proof. unfold logged. cbn. by rewrite app_assoc. Qed.

Lemma logged_printf (msg : string) w :
  log (Output msg) w = logged [Output msg] w.
Proof. reflexivity. Qed.

(** A loop whose iterations complete and log calls. *)
Lemma for_each_logged (count : nat) (i : Z) body f w :
  (forall j w, i <= j < i + Z.of_nat count ->
     body j w = (Ret tt, logged (f j) w)) ->
  for_each count i body w
  = (Ret tt, logged (seqZ i (Z.of_nat count) ≫= f) w).
Proof.
  revert i w. induction count as [|c IH]; intros i w Hbody.
  - cbn. by rewrite logged_nil.
  - cbn [for_each]. rewrite exec_bind, Hbody by lia.
    rewrite IH by (intros j w' Hj; apply Hbody; lia).
    rewrite logged_logged. do 2 f_equal.
    rewrite (seqZ_cons i (Z.of_nat (S c))) by lia. rewrite bind_cons.
    do 3 f_equal; lia.
Qed.

(** A loop with an iteration that leaves its buffers, after iterations
    that complete. *)
Lemma for_each_fault (count : nat) (i : Z) body f (k : nat) w :
  (k < count)%nat ->
  (forall j w, i <= j < i + Z.of_nat k ->
     body j w = (Ret tt, logged (f j) w)) ->
  (forall w, fst (body (i + Z.of_nat k) w) = Fault) ->
  fst (for_each count i body w) = Fault.
Proof.
  revert count i w. induction k as [|k IH]; intros count i w Hk Hbody Hfault.
  - destruct count as [|c]; [lia|]. cbn [for_each]. rewrite exec_bind.
    specialize (Hfault w). rewrite Z.add_0_r in Hfault.
    destruct (body i w) as [o w1]. cbn in Hfault. by subst o.
  - destruct count as [|c]; [lia|]. cbn [for_each].
    rewrite exec_bind, Hbody by lia.
    apply IH; [lia| |].
    + intros j w' Hj. apply Hbody. lia.
    + intros w'. replace (i + 1 + Z.of_nat k) with (i + Z.of_nat (S k)) by lia.
      apply Hfault.
Qed.
End ForEach.

Lemma fmap_list_bind {A B C} (g : B -> C) (f : A -> list B) (l : list A) :
  g <$> (l ≫= f) = l ≫= fun x => g <$> f x.
Proof.
  induction l as [|x l IH]; [done|].
  by rewrite !bind_cons, fmap_app, IH.
Qed.

(** One row of [printMat]. *)
Lemma printMat_row (v : list Z) (Y i : Z) (w : world Z) :
  0 <= i -> 0 <= Y -> (i + 1) * Y <= Z.of_nat (length v) ->
  (for_each (Z.to_nat Y) 0 (fun j =>
     x ← lift (buf_get v (i * Y + j)); printf (pretty x +:+ tab));;
   printf newline) w
  = (Ret tt, logged (Output <$> row_text v Y i) w).
Proof.
  intros Hi HY Hlen. rewrite exec_bind.
  rewrite (for_each_logged _ 0 _
             (fun j => [Output (pretty (default 0 (v !! Z.to_nat (i * Y + j)))
                                +:+ tab)])).
  - unfold printf, emit. rewrite logged_printf, logged_logged.
    do 2 f_equal. unfold row_text. rewrite Z2Nat.id by lia.
    rewrite fmap_app. f_equal.
    clear. induction (seqZ 0 Y) as [|j l IH]; [done|].
    rewrite bind_cons, fmap_cons, IH. done.
  - intros j w' Hj. rewrite exec_lift.
    destruct (lookup_lt_is_Some_2 v (Z.to_nat (i * Y + j))) as [x Hx]; [nia|].
    rewrite (buf_get_lookup v _ x), Hx by (done || nia). reflexivity.
Qed.

Lemma printMat_run (v : list Z) (X Y : Z) (w : world Z) :
  0 <= X -> 0 <= Y -> X * Y <= Z.of_nat (length v) ->
  Lab5Serial.printMat v X Y w
  = (Ret tt, logged (Output <$> matrix_text v X Y) w).
Proof.
  intros HX HY Hlen. unfold Lab5Serial.printMat.
  rewrite exec_printf, logged_printf, exec_bind.
  rewrite (for_each_logged _ 0 _ (fun i => Output <$> row_text v Y i)).
  - unfold printf, emit. rewrite logged_printf, !logged_logged. do 2 f_equal.
    unfold matrix_text. rewrite Z2Nat.id by lia. cbn [fmap list_fmap app].
    f_equal. rewrite fmap_app, fmap_list_bind. reflexivity.
  - intros i w' Hi. apply printMat_row; nia.
Qed.

Lemma printMat_short (v : list Z) (X Y : Z) (w : world Z) :
  0 < X -> 0 < Y -> Z.of_nat (length v) < X * Y ->
  fst (Lab5Serial.printMat v X Y w) = Fault.
Proof.
  intros HX HY Hlen. unfold Lab5Serial.printMat.
  rewrite exec_printf, exec_bind.
  set (L := Z.of_nat (length v)) in *.
  pose proof (Z.div_mod L Y ltac:(lia)) as Hdm.
  pose proof (Z.mod_pos_bound L Y HY) as Hmod.
  assert (0 <= L / Y < X) as Hdiv.
  { split; [apply Z.div_pos; lia|]. apply Z.div_lt_upper_bound; nia. }
  match goal with
  | |- context [for_each ?c 0 ?body ?w0] =>
      assert (fst (for_each c 0 body w0) = Fault) as Hf
  end.
  { apply (for_each_fault _ 0 _ (fun i => Output <$> row_text v Y i)
             (Z.to_nat (L / Y))); [lia| |].
    - intros i w' Hi. apply printMat_row; nia.
    - intros w'. rewrite exec_bind.
      match goal with
      | |- context [for_each ?c 0 ?body w'] =>
          assert (fst (for_each c 0 body w') = Fault) as Hf
      end.
      { apply (for_each_fault _ 0 _
                 (fun j => [Output (pretty (default 0
                      (v !! Z.to_nat ((0 + Z.of_nat (Z.to_nat (L / Y))) * Y + j)))
                                    +:+ tab)])
                 (Z.to_nat (L mod Y))); [lia| |].
        - intros j w'' Hj. rewrite exec_lift.
          destruct (lookup_lt_is_Some_2 v
                      (Z.to_nat ((0 + Z.of_nat (Z.to_nat (L / Y))) * Y + j)))
            as [x Hx]; [nia|].
          rewrite (buf_get_lookup v _ x), Hx by (done || nia). reflexivity.
        - intros w''. rewrite exec_lift, buf_get_None; [done|]. fold L. nia. }
      destruct (for_each _ 0 _ w') as [o w1]. cbn in Hf. by subst o. }
  match goal with
  | |- context [for_each ?c 0 ?body ?w0] =>
      destruct (for_each c 0 body w0) as [o w1]
  end.
  cbn in Hf. by subst o.
Qed.

(** X17: [printMat] prints the heading, then the first
    [matSizeX * matSizeY] cells of [v] row after row, every number in
    decimal followed by a tab and every row by a line end, then the closing
    line; it changes nothing else.  When the buffer is shorter than the
    matrix it reads outside of the buffer. *)
Theorem printMat_prints_rows (v : list Z) (X Y : Z) (w : world Z) :
  (0 <= X -> 0 <= Y -> X * Y <= Z.of_nat (length v) ->
   Lab5Serial.printMat v X Y w
   = (Ret tt, logged (Output <$> matrix_text v X Y) w)) /\
  (0 < X -> 0 < Y -> Z.of_nat (length v) < X * Y ->
   fst (Lab5Serial.printMat v X Y w) = Fault).
Proof. split; [apply printMat_run | apply printMat_short]. Qed.

Lemma printMat_prints_rows_witness :
  Lab5Serial.printMat [1; -2; 30; 4; 5; 6] 2 2 initial_world
  = (Ret tt,
     logged (Output <$> [ "[-] Vector elements: " +:+ newline;
                          "1" +:+ tab; "-2" +:+ tab; newline;
                          "30" +:+ tab; "4" +:+ tab; newline;
                          backspace +:+ backspace +:+ "  " +:+ newline ])
            initial_world)
  /\ fst (Lab5Serial.printMat [1; 2; 3] 2 2 initial_world) = Fault.
Proof.
  split.
  - apply (proj1 (printMat_prints_rows [1; -2; 30; 4; 5; 6] 2 2 initial_world));
      cbn; lia.
  - apply (proj2 (printMat_prints_rows [1; 2; 3] 2 2 initial_world));
      cbn; lia.
Defined.

(** ** Lab 5: runs of [addWithCuda] in any environment *)

(** The end of a run of the statements before the label [Error]. *)
Ltac body_leaf :=
  exec; exec_end; eexists _, _, _, _, _, _; split; [reflexivity|];
  let Hst := fresh "Hst" in
  intros Hst;
  first
    [ contradiction
    | exfalso; apply Hst; assumption
    | eexists; cbn [trace]; rewrite !outputs_app; cbn;
      rewrite ?app_nil_r; reflexivity ].

Ltac body_step :=
  first [exec_step | env_branch];
  try (lazymatch goal with
       | H : cuda_result _ _ <> cudaSuccess |- _ => idtac
       end; body_leaf).

(** On buffers that hold the matrix the statements before the label
    complete, whatever the runtime answers; after a failure one message has
    been printed. *)
Lemma addWithCuda_body_total (E : env Z) (c a b : list Z) (X Y : Z)
    (w : world Z) :
  0 < X -> 0 < Y -> X * Y < 2 ^ 30 ->
  X * Y <= Z.of_nat (length a) -> X * Y <= Z.of_nat (length b) ->
  X * Y <= Z.of_nat (length c) ->
  exists st da db dc c' w1,
    Lab5.addWithCuda_body E c a b X Y w = (Ret (st, da, db, dc, c'), w1) /\
    (st <> cudaSuccess ->
     exists msg, outputs (trace w1) = outputs (trace w) ++ [msg]).
Proof.
  intros HX HY Hmax Ha Hb Hc.
  assert (to_uint (X * Y) = X * Y) as Hu by (apply to_uint_small; nia).
  assert (to_uint X = X /\ to_uint Y = Y) as [HuX HuY]
    by (split; apply to_uint_small; nia).
  assert (cells_of (X * Y * 4) = Z.to_nat (X * Y)) as Hcells.
  { unfold cells_of. by rewrite Z.div_mul by lia. }
  destruct (Lab5.addWithCuda_body E c a b X Y w) as [o w'] eqn:Hrun.
  revert Hrun.
  unfold Lab5.addWithCuda_body. cbv beta zeta.
  unfold sizeof_int. rewrite Hu, HuX, HuY.
  repeat body_step.
  rewrite ?Hcells in *. set (N := Z.to_nat (X * Y)) in *.
  assert (h0 <> h) as Hne0.
  { intros ->. apply (proj1 Hh0). rewrite dom_insert_L. set_solver. }
  assert (h1 <> h0 /\ h1 <> h) as [Hne1 Hne2].
  { split; intros ->; apply (proj1 Hh1); rewrite !dom_insert_L; set_solver. }
  set (gC := device_garbage E (S (calls w)) <$> seq 0 N) in *.
  set (gA := device_garbage E (S (S (calls w))) <$> seq 0 N) in *.
  set (gB := device_garbage E (S (S (S (calls w)))) <$> seq 0 N) in *.
  assert (length gA = N /\ length gB = N /\ length gC = N) as (HgA & HgB & HgC)
    by (subst gA gB gC; rewrite !length_fmap, !length_seq; done).
  assert (N <= length a /\ N <= length b /\ N <= length c)%nat
    as (HNa & HNb & HNc) by lia.
  (* the copy of a *)
  rewrite lookup_insert_ne, lookup_insert_eq by done.
  cbn [mbind option_bind].
  rewrite copy_cells_to_device by (rewrite ?Hcells; done).
  cbv beta iota. rewrite Hcells. fold N.
  repeat body_step.
  (* the copy of b *)
  rewrite lookup_insert_ne, lookup_insert_eq by done.
  cbn [mbind option_bind].
  rewrite copy_cells_to_device by (rewrite ?Hcells; done).
  cbv beta iota. rewrite Hcells. fold N.
  repeat body_step.
  (* the kernel *)
  rewrite (launch_addKernel X Y (take N a) (take N b) h h0 h1 HX HY Hmax)
    with (C := gC);
    [ | rewrite length_take; lia | rewrite length_take; lia | done | done
      | rewrite lookup_insert_ne, lookup_insert_eq by done; done
      | rewrite lookup_insert_eq; done
      | rewrite !lookup_insert_ne, lookup_insert_eq by done; done
      | lia ].
  cbv beta iota.
  repeat body_step.
  (* the copy of c *)
  rewrite lookup_insert_eq. cbn [mbind option_bind].
  rewrite copy_cells_to_host;
    [ | unfold add_cells; rewrite length_zip_with, !length_take, Hcells; lia
      | rewrite Hcells; done ].
  cbv beta iota.
  repeat body_step.
  body_leaf.
Qed.

(** [addWithCuda] on buffers that hold the matrix returns, whatever the
    runtime answers; after a failure it has printed one message. *)
Lemma addWithCuda_total (E : env Z) (c a b : list Z) (X Y : Z) (w : world Z) :
  0 < X -> 0 < Y -> X * Y < 2 ^ 30 ->
  X * Y <= Z.of_nat (length a) -> X * Y <= Z.of_nat (length b) ->
  X * Y <= Z.of_nat (length c) ->
  exists st c' w1,
    Lab5.addWithCuda E c a b X Y w = (Ret (st, c'), w1) /\
    (st <> cudaSuccess ->
     exists msg, outputs (trace w1) = outputs (trace w) ++ [msg]).
Proof.
  intros HX HY Hmax Ha Hb Hc.
  destruct (addWithCuda_body_total E c a b X Y w HX HY Hmax Ha Hb Hc)
    as (st & da & db & dc & c' & w1 & Hbody & Hmsg).
  unfold Lab5.addWithCuda. rewrite exec_bind, Hbody. cbv beta iota.
  rewrite !exec_cudaFree, exec_mret. exec_simpl.
  eexists _, _, _. split; [reflexivity|]. intros Hst.
  destruct (Hmsg Hst) as [msg Hout]. exists msg. cbn [trace].
  rewrite !outputs_app, Hout. cbn. by rewrite !app_nil_r.
Qed.


(** ** Release of the device buffers *)

(** A run that has met a failure which the program tests ends the
    process. *)
Ltac kill_failed :=
  try (lazymatch goal with
       | H : cuda_result _ _ <> cudaSuccess |- _ => idtac
       | H : malloc_null _ _ = true |- _ => idtac
       end; exec; exec_end; left; reflexivity).

Ltac run_tested := repeat (first [exec_step | env_branch]; kill_failed).

(** With valid shapes, once [h_A] and [h_B] are allocated, a run of
    [matrixMultiply] has two outcomes only: it ends the process with
    [EXIT_FAILURE], or it returns, and then the allocation of [h_C] and the
    thirteen calls of the runtime before the clean-up have all succeeded. *)
Lemma matrixMultiply_outcome E bs gs n (w w' : world float32) o :
  valid_launch bs gs n ->
  malloc_null E (mallocs w) = false ->
  malloc_null E (1 + mallocs w) = false ->
  Lab6.matrixMultiply E bs gs n w = (o, w') ->
  o = Exit EXIT_FAILURE \/
  ((exists r, o = Ret r) /\
   malloc_null E (2 + mallocs w) = false /\
   forall k, (k < 13)%nat -> cuda_result E (k + calls w) = cudaSuccess).
Proof.
  intros Hvalid HnA HnB. cbn [Nat.add] in HnB.
  destruct (valid_launch_sizes bs gs n Hvalid)
    as (Hn & Hn31 & Hbs & Hgs & Hu & Hi & Hm1 & Hm2 & Hcells).
  destruct Hvalid as (Hbs0 & Hgs0 & Hprod & Hmax).
  unfold Lab6.matrixMultiply. cbv beta zeta.
  rewrite Hbs, Hgs, Hu, Hi, Hm1, Hm2.
  set (N := Z.to_nat (n * n)) in *.
  exec_step. exec_step. rewrite Hcells, HnA, deref_Some.
  rewrite (constantInit_full (host_garbage E (mallocs w) <$> seq 0 N))
    by (rewrite length_fmap, length_seq; lia).
  rewrite length_fmap, length_seq. exec_step.
  rewrite HnB, deref_Some.
  rewrite (constantInit_full (host_garbage E (S (mallocs w)) <$> seq 0 N))
    by (rewrite length_fmap, length_seq; lia).
  rewrite length_fmap, length_seq. exec_step.
  run_tested.
  rewrite ?Hcells in *.
  assert (h0 <> h) as Hne0.
  { intros ->. apply (proj1 Hh0). rewrite dom_insert_L. set_solver. }
  assert (h1 <> h0 /\ h1 <> h) as [Hne1 Hne2].
  { split; intros ->; apply (proj1 Hh1); rewrite !dom_insert_L; set_solver. }
  clear Hh Hh0 Hh1.
  set (gA := device_garbage E (calls w) <$> seq 0 N).
  set (gB := device_garbage E (S (calls w)) <$> seq 0 N).
  set (gC := device_garbage E (S (S (calls w))) <$> seq 0 N).
  assert (length gA = N /\ length gB = N /\ length gC = N) as (HgA & HgB & HgC)
    by (subst gA gB gC; rewrite !length_fmap, !length_seq; done).
  (* the copy of A *)
  rewrite lookup_insert_ne, lookup_insert_ne, lookup_insert_eq by done.
  cbn [mbind option_bind].
  rewrite copy_cells_full by (rewrite ?length_replicate, ?Hcells; done).
  cbv beta iota.
  run_tested.
  (* the copy of B *)
  rewrite lookup_insert_ne, lookup_insert_ne, lookup_insert_eq by done.
  cbn [mbind option_bind].
  rewrite copy_cells_full by (rewrite ?length_replicate, ?Hcells; done).
  cbv beta iota.
  run_tested.
  (* the kernel *)
  subst N.
  rewrite (launch_matrixMulCUDA_on h1 h h0 n _ _ _ gC
             (replicate (Z.to_nat (n * n)) valA)
             (replicate (Z.to_nat (n * n)) valB));
    [ | rewrite lookup_insert_ne, lookup_insert_ne, lookup_insert_eq by done;
        done
      | rewrite lookup_insert_ne, lookup_insert_eq by done; done
      | rewrite lookup_insert_eq; done
      | done | done ].
  rewrite (launch_matrixMulCUDA n valA valB Hn bs gs gC) by (done || lia).
  cbn [mbind option_bind]. cbv beta iota.
  run_tested.
  (* the copy of C *)
  rewrite lookup_insert_eq. cbn [mbind option_bind].
  rewrite copy_cells_full
    by (rewrite ?length_replicate, ?length_fmap, ?length_seq, ?Hcells; done).
  cbv beta iota.
  run_tested.
  (* the check *)
  destruct (checkCorrectness_defined
              (replicate (Z.to_nat (n * n)) (dot_const n valA valB)) n n)
    as [[msg lg] Hcheck];
    [lia | lia | rewrite length_replicate; lia
    | rewrite length_replicate; lia |].
  rewrite Hcheck. cbv beta iota.
  run_tested.
  exec_end. right. split; [eexists; reflexivity|]. split; [assumption|].
  intros k Hk.
  do 13 (destruct k as [|k]; [cbn [Nat.add]; assumption|]). lia.
Qed.

(** C3, as the code has it.  [addWithCuda] goes through the label [Error]
    on every path: it never ends the process, on buffers that hold the
    matrix it returns whatever the runtime answers, and it returns with the
    same live buffers as at its start: what it allocated is released.
    [matrixMultiply] releases its three buffers only in a run that returns.
    A run that ends the process does so with [EXIT_FAILURE] without any call
    of [cudaFree], and every buffer live before the failure stays live.
    And every failure that the function tests does end the process: with
    valid shapes and [h_A] and [h_B] allocated (these two allocations are
    not tested), when the allocation of [h_C] fails or one of the thirteen
    calls of the runtime before the clean-up fails (the three device
    allocations, the two copies to the device, the creation of the two
    events, the record of the start event, the launch, the record of the
    stop event, the wait for it, the query of the elapsed time, the copy of
    the result), the run ends in [exit(EXIT_FAILURE)]. *)
Theorem device_buffers_release :
  (forall (E : env Z) (c a b : list Z) (X Y : Z) (w : world Z),
     (forall s, fst (Lab5.addWithCuda E c a b X Y w) <> Exit s) /\
     (forall r, fst (Lab5.addWithCuda E c a b X Y w) = Ret r ->
        dom (dmem (snd (Lab5.addWithCuda E c a b X Y w))) = dom (dmem w)) /\
     (0 < X -> 0 < Y -> X * Y < 2 ^ 30 ->
      X * Y <= Z.of_nat (length a) -> X * Y <= Z.of_nat (length b) ->
      X * Y <= Z.of_nat (length c) ->
      exists r, fst (Lab5.addWithCuda E c a b X Y w) = Ret r))
  /\
  (forall (E : env float32) (bs gs n : Z) (w : world float32),
     (forall r, fst (Lab6.matrixMultiply E bs gs n w) = Ret r ->
        dom (dmem (snd (Lab6.matrixMultiply E bs gs n w))) = dom (dmem w)) /\
     (forall s, fst (Lab6.matrixMultiply E bs gs n w) = Exit s ->
        s = EXIT_FAILURE /\
        dom (dmem w) ⊆ dom (dmem (snd (Lab6.matrixMultiply E bs gs n w))) /\
        exists seg,
          trace (snd (Lab6.matrixMultiply E bs gs n w)) = trace w ++ seg /\
          forall c p, c ∈ seg -> c <> CudaFree p) /\
     (valid_launch bs gs n ->
      malloc_null E (mallocs w) = false ->
      malloc_null E (1 + mallocs w) = false ->
      (malloc_null E (2 + mallocs w) = true \/
       exists k, (k < 13)%nat /\ cuda_result E (k + calls w) <> cudaSuccess) ->
      fst (Lab6.matrixMultiply E bs gs n w) = Exit EXIT_FAILURE)).
Proof.
  split.
  - intros E c a b X Y w.
    pose proof (addWithCuda_total E c a b X Y w) as Htotal.
    destruct (Lab5.addWithCuda E c a b X Y w) as [o w'] eqn:Hrun.
    apply addWithCuda_dom in Hrun as [Hexit Hret]. cbn [fst snd].
    split; [exact Hexit|]. split; [exact Hret|].
    intros HX HY Hmax Ha Hb Hc.
    destruct (Htotal HX HY Hmax Ha Hb Hc) as (st & c' & w1 & Heq & _).
    exists (st, c'). by injection Heq as -> _.
  - intros E bs gs n w.
    destruct (Lab6.matrixMultiply E bs gs n w) as [o w'] eqn:Hrun.
    pose proof (matrixMultiply_dom _ _ _ _ _ _ _ Hrun) as [Hret Hexit].
    pose proof (fun Hv HA HB =>
                  matrixMultiply_outcome _ _ _ _ _ _ _ Hv HA HB Hrun) as Hout.
    apply matrixMultiply_calls in Hrun
      as (seg & Htr & k & extra & Hshape & Hextra & _ & Hk & _).
    cbn [fst snd]. split; [exact Hret|]. split.
    + intros s Hs. destruct (Hk s Hs) as [-> Hk19].
      split; [done|]. split; [by apply (Hexit EXIT_FAILURE)|].
      exists seg. split; [exact Htr|].
      intros c p Hc ->. apply list_elem_of_lookup in Hc as [i Hi].
      destruct (script_lookup seg k extra i _ Hshape Hextra Hi
                  ltac:(discriminate)) as [Hik Hp].
      cbn in Hp. script_place Hp; lia.
    + intros Hv HA HB Hfail.
      destruct (Hout Hv HA HB) as [Hex|(_ & HC & Hall)]; [exact Hex|].
      exfalso. destruct Hfail as [HnC|(j & Hj & Hbad)].
      * rewrite HC in HnC. discriminate HnC.
      * exact (Hbad (Hall j Hj)).
Qed.

Lemma device_buffers_release_witness :
  dom (dmem (snd (Lab5.addWithCuda
                    (Env (fun _ => cudaSuccess) (fun _ => false)
                         (fun _ _ => 0) (fun _ _ => 0) (fun _ => f32_zero)
                         (fun _ => 0))
                    (replicate 4 0) [1; 2; 3; 4] [10; 20; 30; 40] 2 2
                    initial_world)))
  = dom (dmem (initial_world : world Z))
  /\ dom (dmem (snd (Lab6.matrixMultiply quiet_env 2 2 4 initial_world)))
     = dom (dmem (initial_world : world float32))
  /\ dom (dmem (initial_world : world float32))
     ⊆ dom (dmem (snd (Lab6.matrixMultiply exhausted_env 2 2 4 initial_world)))
  /\ fst (Lab6.matrixMultiply exhausted_env 2 2 4 initial_world)
     = Exit EXIT_FAILURE.
Proof.
  split; [|split; [|split]].
  - apply (proj1 (proj2 (proj1 device_buffers_release _ _ _ _ _ _ _))
             (cudaSuccess, [11; 22; 33; 44])).
    vm_compute. reflexivity.
  - apply (proj1 (proj2 device_buffers_release quiet_env 2 2 4 initial_world)
             (f32_zero, replicate 16 (S754_finite false 10737418 (-28)))).
    vm_compute. reflexivity.
  - apply (proj1 (proj2 (proj2 device_buffers_release exhausted_env 2 2 4
                           initial_world)) EXIT_FAILURE).
    vm_compute. reflexivity.
  - apply (proj2 (proj2 (proj2 device_buffers_release exhausted_env 2 2 4
                           initial_world))).
    + unfold valid_launch. lia.
    + reflexivity.
    + reflexivity.
    + right. exists 1%nat. split; [lia|]. vm_compute. discriminate.
Defined.

(** C3, counterexample: the allocation of [d_B] fails.  [matrixMultiply]
    ends the process, the buffer [d_A] (device pointer 1) is still live and
    [cudaFree] was not called. *)
Lemma matrixMultiply_exit_keeps_buffer :
  let r := Lab6.matrixMultiply exhausted_env 2 2 4 initial_world in
  fst r = Exit EXIT_FAILURE
  /\ dmem (snd r) !! 1%nat = Some (replicate 16 S754_nan)
  /\ trace (snd r)
     = [ Malloc 64; Malloc 64; Malloc 64; CudaMalloc 64; CudaMalloc 64;
         Output "cudaMalloc d_B returned error %s (code %d), line(%d)" ].
Proof. vm_compute. repeat split. Qed.

(** ** Lab 5: the two programs *)

Lemma lab5_fill_a (g : nat -> Z) :
  fillMat 0 (g <$> seq 0 16) 4 4 = Some (16, seqZ 0 16).
Proof.
  rewrite fillMat_closed;
    [|lia|lia|rewrite length_fmap, length_seq; lia|lia|unfold INT_MAX; lia].
  rewrite drop_ge, app_nil_r by (rewrite length_fmap, length_seq; lia).
  reflexivity.
Qed.

Lemma lab5_fill_b (g : nat -> Z) :
  fillMat 16 (g <$> seq 0 16) 4 4 = Some (32, seqZ 16 16).
Proof.
  rewrite fillMat_closed;
    [|lia|lia|rewrite length_fmap, length_seq; lia|lia|unfold INT_MAX; lia].
  rewrite drop_ge, app_nil_r by (rewrite length_fmap, length_seq; lia).
  reflexivity.
Qed.

Lemma lab5_sum (g : nat -> Z) :
  add_cells (take (Z.to_nat (4 * 4)) (seqZ 0 16))
            (take (Z.to_nat (4 * 4)) (seqZ 16 16))
  ++ drop (Z.to_nat (4 * 4)) (g <$> seq 0 16)
  = (fun k => 16 + 2 * k) <$> seqZ 0 16.
Proof. reflexivity. Qed.

Lemma serial_main_run (E : env Z) (w : world Z) :
  (forall k, (k < 3)%nat -> malloc_null E (k + mallocs w) = false) ->
  Lab5Serial.main E w
  = (Ret EXIT_SUCCESS,
     World (calls w) (3 + mallocs w) (clock_reads w) (last_error w) (dmem w)
           (trace w ++ [Malloc 64; Malloc 64; Malloc 64]
            ++ (Output <$> lab5_text))).
Proof.
  intros Hma.
  pose proof (Hma 0%nat ltac:(lia)) as H0.
  pose proof (Hma 1%nat ltac:(lia)) as H1.
  pose proof (Hma 2%nat ltac:(lia)) as H2.
  cbn [Nat.add] in H0, H1, H2.
  destruct (Lab5Serial.main E w) as [o w'] eqn:Hrun. revert Hrun.
  unfold Lab5Serial.main. cbv beta zeta.
  change (sizeof_int * 4 * 4) with 64.
  do 3 exec_step. rewrite H0, H1, H2, !deref_Some.
  change (cells_of 64) with 16%nat.
  rewrite lab5_fill_a. exec_step. rewrite lab5_fill_b. exec_step.
  rewrite addMat_Some, lab5_sum;
    [|lia|lia|rewrite ?length_seqZ, ?length_fmap, ?length_seq; lia..].
  exec_step.
  rewrite exec_bind, printMat_run by (rewrite ?length_seqZ; lia).
  rewrite exec_bind, printMat_run by (rewrite ?length_seqZ; lia).
  rewrite exec_bind, printMat_run
    by (rewrite ?length_fmap, ?length_seqZ; lia).
  rewrite exec_mret. exec_end. f_equal. unfold logged. cbn [calls mallocs
    clock_reads last_error dmem trace]. f_equal.
  unfold lab5_text. rewrite !fmap_app, <- !app_assoc. reflexivity.
Qed.

(** X18: the sequential program of Lab 5.  When its three allocations
    succeed it prints the matrix of 0..15, the matrix of 16..31 and their
    sum (the cell [k] holds [16 + 2 k]) and returns [EXIT_SUCCESS],
    whatever the allocated memory held; the allocations are not tested, and
    when one of them fails the program writes through the null pointer. *)
Theorem serial_main_prints_sum (E : env Z) (w : world Z) :
  ((forall k, (k < 3)%nat -> malloc_null E (k + mallocs w) = false) ->
   Lab5Serial.main E w
   = (Ret EXIT_SUCCESS,
      World (calls w) (3 + mallocs w) (clock_reads w) (last_error w) (dmem w)
            (trace w ++ [Malloc 64; Malloc 64; Malloc 64]
             ++ (Output <$> lab5_text)))) /\
  ((exists k, (k < 3)%nat /\ malloc_null E (k + mallocs w) = true) ->
   fst (Lab5Serial.main E w) = Fault).
Proof.
  split; [apply serial_main_run|].
  intros (k & Hk & Hnull).
  destruct (Lab5Serial.main E w) as [o w'] eqn:Hrun. revert Hrun.
  unfold Lab5Serial.main. cbv beta zeta.
  change (sizeof_int * 4 * 4) with 64.
  do 3 exec_step. change (cells_of 64) with 16%nat.
  destruct (malloc_null E (mallocs w)) eqn:H0.
  { rewrite deref_None.
    change (fillMat 0 [] 4 4) with (@None (Z * list Z)).
    exec_step. by exec_end. }
  rewrite deref_Some, lab5_fill_a. exec_step.
  destruct (malloc_null E (S (mallocs w))) eqn:H1.
  { rewrite deref_None.
    change (fillMat 16 [] 4 4) with (@None (Z * list Z)).
    exec_step. by exec_end. }
  rewrite deref_Some, lab5_fill_b. exec_step.
  destruct (malloc_null E (S (S (mallocs w)))) eqn:H2.
  { rewrite deref_None.
    change (Lab5Serial.addMat (seqZ 0 16) (seqZ 16 16) [] 4 4)
      with (@None (list Z)).
    exec_step. by exec_end. }
  exfalso. destruct k as [|[|[|k]]]; cbn [Nat.add] in Hnull; [congruence..|lia].
Qed.

Lemma serial_main_prints_sum_witness :
  Lab5Serial.main lab5_quiet initial_world
  = (Ret EXIT_SUCCESS,
     World 0 3 0 cudaSuccess ∅
           ([] ++ [Malloc 64; Malloc 64; Malloc 64]
            ++ (Output <$> lab5_text)))
  /\ fst (Lab5Serial.main
            (Env (fun _ => cudaSuccess) (fun k => (k =? 1)%nat)
                 (fun _ _ => 0) (fun _ _ => 0) (fun _ => f32_zero)
                 (fun _ => 0))
            initial_world) = Fault.
Proof.
  split.
  - apply (proj1 (serial_main_prints_sum lab5_quiet initial_world)).
    intros k _. reflexivity.
  - apply (proj2 (serial_main_prints_sum _ initial_world)).
    exists 1%nat. split; [lia|reflexivity].
Defined.

Lemma outputs_Output (l : list string) : outputs (Output <$> l) = l.
Proof.
  induction l as [|s l IH]; [done|].
  change (outputs (Output <$> s :: l)) with (s :: outputs (Output <$> l)).
  by rewrite IH.
Qed.

Lemma mattadd_main_run (E : env Z) (w : world Z) :
  (forall k, (k < 3)%nat -> malloc_null E (k + mallocs w) = false) ->
  (forall k, (k < 9)%nat -> cuda_result E (k + calls w) = cudaSuccess) ->
  fst (MattAdd.main E w)
  = Ret (if bool_decide (cuda_result E (12 + calls w) = cudaSuccess)
         then 0 else 1) /\
  outputs (trace (snd (MattAdd.main E w)))
  = outputs (trace w) ++ lab5_text
    ++ (if bool_decide (cuda_result E (12 + calls w) = cudaSuccess)
        then [] else ["cudaDeviceReset failed!"]).
Proof.
  intros Hma Hnine.
  pose proof (Hma 0%nat ltac:(lia)) as H0.
  pose proof (Hma 1%nat ltac:(lia)) as H1.
  pose proof (Hma 2%nat ltac:(lia)) as H2.
  cbn [Nat.add] in H0, H1, H2.
  destruct (MattAdd.main E w) as [o w'] eqn:Hrun. revert Hrun.
  unfold MattAdd.main. cbv beta zeta.
  change (sizeof_int * 4 * 4) with 64.
  do 3 exec_step. rewrite H0, H1, H2, !deref_Some.
  change (cells_of 64) with 16%nat.
  rewrite lab5_fill_a. exec_step. rewrite lab5_fill_b. exec_step.
  rewrite exec_bind.
  match goal with
  | |- context [Lab5.addWithCuda E ?c0 ?a0 ?b0 4 4 ?w0] =>
      destruct (addWithCuda_run E c0 a0 b0 4 4 w0) as (dc & da & db & ->);
        [exact Hnine|lia|lia|lia
        |rewrite ?length_seqZ, ?length_fmap, ?length_seq; lia..|]
  end.
  cbv beta iota. rewrite lab5_sum.
  rewrite (bool_decide_eq_false_2 (cudaSuccess ≠ cudaSuccess))
    by (intros H; by apply H).
  rewrite exec_bind, printMat_run by (rewrite ?length_seqZ; lia).
  rewrite exec_bind, printMat_run by (rewrite ?length_seqZ; lia).
  rewrite exec_bind, printMat_run
    by (rewrite ?length_fmap, ?length_seqZ; lia).
  rewrite exec_bind. unfold cudaDeviceReset, bind, cuda_call_unlogged.
  cbv beta iota. unfold logged.
  cbn [calls mallocs clock_reads last_error dmem trace].
  destruct (decide (cuda_result E (12 + calls w) = cudaSuccess)) as [Hr|Hr].
  - rewrite (bool_decide_eq_true_2 _ Hr).
    rewrite (bool_decide_eq_false_2 (_ ≠ cudaSuccess)) by tauto.
    rewrite exec_mret. exec_end. cbn [fst snd trace set_dmem].
    split; [reflexivity|].
    rewrite !outputs_app, !outputs_Output. cbn [outputs omap].
    unfold lab5_text. rewrite !app_nil_r, <- !app_assoc. reflexivity.
  - rewrite (bool_decide_eq_false_2 _ Hr).
    rewrite (bool_decide_eq_true_2 (_ ≠ cudaSuccess)) by done.
    rewrite exec_printf, exec_mret. exec_end. cbn [fst snd trace log].
    split; [reflexivity|].
    rewrite !outputs_app, !outputs_Output. cbn [outputs omap].
    unfold lab5_text. rewrite !app_nil_r, <- !app_assoc. reflexivity.
Qed.

(** X19: the program of [MattAdd.cu], when its three host allocations
    succeed.  If the nine calls of the runtime that [addWithCuda] makes
    before its label succeed, the program prints the three matrices (the
    same text as the sequential program) and returns 0, unless
    [cudaDeviceReset], its thirteenth call, fails: then it adds a message
    and returns 1.  If one of the nine fails, it returns 1 after the
    message of the failed step and its own, and prints no matrix. *)
Theorem mattadd_main_status (E : env Z) (w : world Z) :
  (forall k, (k < 3)%nat -> malloc_null E (k + mallocs w) = false) ->
  ((forall k, (k < 9)%nat -> cuda_result E (k + calls w) = cudaSuccess) ->
   fst (MattAdd.main E w)
   = Ret (if bool_decide (cuda_result E (12 + calls w) = cudaSuccess)
          then 0 else 1) /\
   outputs (trace (snd (MattAdd.main E w)))
   = outputs (trace w) ++ lab5_text
     ++ (if bool_decide (cuda_result E (12 + calls w) = cudaSuccess)
         then [] else ["cudaDeviceReset failed!"])) /\
  ((exists k, (k < 9)%nat /\ cuda_result E (k + calls w) <> cudaSuccess) ->
   fst (MattAdd.main E w) = Ret 1 /\
   exists msg,
     outputs (trace (snd (MattAdd.main E w)))
     = outputs (trace w) ++ [msg; "addWithCuda failed!"]).
Proof.
  intros Hma. split; [by apply mattadd_main_run|].
  intros (k & Hk & Hfail).
  pose proof (Hma 0%nat ltac:(lia)) as H0.
  pose proof (Hma 1%nat ltac:(lia)) as H1.
  pose proof (Hma 2%nat ltac:(lia)) as H2.
  cbn [Nat.add] in H0, H1, H2.
  destruct (MattAdd.main E w) as [o w'] eqn:Hrun. revert Hrun.
  unfold MattAdd.main. cbv beta zeta.
  change (sizeof_int * 4 * 4) with 64.
  do 3 exec_step. rewrite H0, H1, H2, !deref_Some.
  change (cells_of 64) with 16%nat.
  rewrite lab5_fill_a. exec_step. rewrite lab5_fill_b. exec_step.
  rewrite exec_bind.
  match goal with
  | |- context [Lab5.addWithCuda E ?c0 ?a0 ?b0 4 4 ?w0] =>
      destruct (addWithCuda_total E c0 a0 b0 4 4 w0)
        as (st & c' & w1 & Hadd & Hmsg);
        [lia|lia|lia
        |rewrite ?length_seqZ, ?length_fmap, ?length_seq; lia..|];
      pose proof (addWithCuda_status E c0 a0 b0 4 4 w0 st c') as Hst;
      rewrite Hadd in Hst |- *
  end.
  destruct (Hst eq_refl) as [[Hok _] _]. cbn [calls] in Hok.
  assert (st <> cudaSuccess) as Hne.
  { intros Heq. apply Hfail. by apply Hok. }
  destruct (Hmsg Hne) as [msg Hout]. cbn [trace] in Hout.
  cbv beta iota. rewrite (bool_decide_eq_true_2 _ Hne).
  rewrite exec_printf, exec_mret. exec_end. cbn [fst snd trace log].
  split; [reflexivity|]. exists msg.
  rewrite outputs_app, Hout, !outputs_app. cbn [outputs omap].
  rewrite !app_nil_r, <- !app_assoc. reflexivity.
Qed.

Lemma mattadd_main_status_witness :
  (fst (MattAdd.main lab5_quiet initial_world)
   = Ret (if bool_decide (cuda_result lab5_quiet
                            (12 + calls (initial_world : world Z))
                          = cudaSuccess)
          then 0 else 1) /\
   outputs (trace (snd (MattAdd.main lab5_quiet initial_world)))
   = outputs (trace (initial_world : world Z)) ++ lab5_text
     ++ (if bool_decide (cuda_result lab5_quiet
                           (12 + calls (initial_world : world Z))
                         = cudaSuccess)
         then [] else ["cudaDeviceReset failed!"])) /\
  (fst (MattAdd.main (lab5_failing 6) initial_world) = Ret 1 /\
   exists msg,
     outputs (trace (snd (MattAdd.main (lab5_failing 6) initial_world)))
     = outputs (trace (initial_world : world Z))
       ++ [msg; "addWithCuda failed!"]).
Proof.
  split.
  - apply (proj1 (mattadd_main_status lab5_quiet initial_world
                    (fun _ _ => eq_refl))).
    intros k _. reflexivity.
  - apply (proj2 (mattadd_main_status (lab5_failing 6) initial_world
                    (fun _ _ => eq_refl))).
    exists 6%nat. split; [lia|discriminate].
Defined.

(** X20: the two programs of Lab 5 print the same text: in an environment
    that cooperates, the program that adds on the device and the
    sequential program both end with the status 0 after the same
    output. *)
Theorem lab5_programs_print_the_same (E : env Z) (w : world Z) :
  cooperative E ->
  fst (MattAdd.main E w) = Ret 0 /\
  fst (Lab5Serial.main E w) = Ret EXIT_SUCCESS /\
  outputs (trace (snd (MattAdd.main E w)))
  = outputs (trace (snd (Lab5Serial.main E w))) /\
  outputs (trace (snd (Lab5Serial.main E w))) = outputs (trace w) ++ lab5_text.
Proof.
  intros [Hcu Hma].
  destruct (mattadd_main_run E w (fun k _ => Hma _) (fun k _ => Hcu _))
    as [Hst Hout].
  rewrite (bool_decide_eq_true_2 _ (Hcu _)) in Hst, Hout.
  rewrite (serial_main_run E w (fun k _ => Hma _)). cbn [fst snd trace].
  split; [exact Hst|]. split; [reflexivity|].
  rewrite Hout, !outputs_app, outputs_Output. cbn [outputs omap].
  rewrite !app_nil_r. done.
Qed.

Lemma lab5_programs_print_the_same_witness :
  fst (MattAdd.main lab5_quiet initial_world) = Ret 0 /\
  fst (Lab5Serial.main lab5_quiet initial_world) = Ret EXIT_SUCCESS /\
  outputs (trace (snd (MattAdd.main lab5_quiet initial_world)))
  = outputs (trace (snd (Lab5Serial.main lab5_quiet initial_world))) /\
  outputs (trace (snd (Lab5Serial.main lab5_quiet initial_world)))
  = outputs (trace (initial_world : world Z)) ++ lab5_text.
Proof.
  apply (lab5_programs_print_the_same lab5_quiet initial_world).
  split; intros k; reflexivity.
Defined.

(** ** Lab 6: the printer *)

Lemma buf_get_lt {T} (v : list T) (i : Z) (x : T) :
  buf_get v i = Some x -> 0 <= i < Z.of_nat (length v).
Proof.
  intros H. apply buf_get_Some in H as [Hi Hx].
  apply lookup_lt_Some in Hx. lia.
Qed.

(** X21: [printMat] of Lab 6 sends to the output the heading and then the
    first [matSizeX * matSizeY] cells of [v] row after row, every number
    followed by three blanks and every row by a line end (there is no
    closing line); when the buffer is shorter than the matrix it reads
    outside of the buffer. *)
Theorem printMat_items (v : list float32) (X Y : Z) :
  (0 <= X -> 0 <= Y -> X * Y <= Z.of_nat (length v) ->
   Lab6Main.printMat v X Y = Some (matrix_items v X Y)) /\
  (0 < X -> 0 < Y -> Z.of_nat (length v) < X * Y ->
   Lab6Main.printMat v X Y = None).
Proof.
  split.
  - intros HX HY Hlen. unfold Lab6Main.printMat, matrix_items.
    destruct (for_range_inv
      (fun i out => out = Lab6Main.Text ("[-] Vector elements: " +:+ newline)
                          :: (seqZ 0 i ≫= row_items v Y))
      0 X (fun i out =>
        out ← for_range 0 Y (fun j out =>
                 x ← buf_get v (i * Y + j);
                 Some (out ++ [Lab6Main.Number x; Lab6Main.Text "   "])) out;
        Some (out ++ [Lab6Main.Endl]))
      [Lab6Main.Text ("[-] Vector elements: " +:+ newline)])
      as (out & -> & ->); [lia|done| |done].
    intros i out Hi ->.
    destruct (for_range_inv
      (fun j out' => out' = (Lab6Main.Text ("[-] Vector elements: " +:+ newline)
                             :: (seqZ 0 i ≫= row_items v Y))
                            ++ (seqZ 0 j ≫= fun j =>
                                  [ Lab6Main.Number
                                      (default f32_zero
                                         (v !! Z.to_nat (i * Y + j)));
                                    Lab6Main.Text "   " ]))
      0 Y (fun j out =>
             x ← buf_get v (i * Y + j);
             Some (out ++ [Lab6Main.Number x; Lab6Main.Text "   "]))
      (Lab6Main.Text ("[-] Vector elements: " +:+ newline)
       :: (seqZ 0 i ≫= row_items v Y)))
      as (out' & -> & ->); [lia|by rewrite app_nil_r| |].
    + intros j out' Hj ->.
      destruct (lookup_lt_is_Some_2 v (Z.to_nat (i * Y + j))) as [x Hx]; [nia|].
      rewrite (buf_get_lookup v _ x) by (done || nia). cbn [mbind option_bind].
      eexists. split; [done|].
      rewrite (seqZ_app 0 j 1), bind_app by lia.
      rewrite <- !app_assoc. do 2 f_equal.
      rewrite Z.add_0_l. change (seqZ j 1) with [j].
      cbn. by rewrite Hx.
    + cbn [mbind option_bind]. eexists. split; [done|].
      rewrite (seqZ_app 0 i 1), bind_app by lia.
      rewrite Z.add_0_l. change (seqZ i 1) with [i].
      cbn [mbind list_bind app]. rewrite app_nil_r.
      unfold row_items at 2. rewrite <- !app_assoc. reflexivity.
  - intros HX HY Hlen. unfold Lab6Main.printMat.
    destruct (for_range 0 X _ _) as [out|] eqn:Hrun; [|done]. exfalso.
    assert (X * Y <= Z.of_nat (length v)); [|lia].
    refine (for_range_post (fun i _ => i * Y <= Z.of_nat (length v))
              _ _ _ _ _ _ Hrun _ _); [lia|lia|].
    intros i out1 out2 Hi HP Hbody.
    destruct (for_range 0 Y _ out1) as [out3|] eqn:Hrow; [|done].
    replace ((i + 1) * Y) with (i * Y + Y) by lia.
    refine (for_range_post (fun j _ => i * Y + j <= Z.of_nat (length v))
              _ _ _ _ _ _ Hrow _ _); [lia|lia|].
    intros j o1 o2 Hj HQ Hb.
    destruct (buf_get v (i * Y + j)) as [x|] eqn:Hx; [|done].
    apply buf_get_lt in Hx. lia.
Qed.

Lemma printMat_items_witness :
  Lab6Main.printMat [valA; valB; valA] 1 2
  = Some [ Lab6Main.Text ("[-] Vector elements: " +:+ newline);
           Lab6Main.Number valA; Lab6Main.Text "   ";
           Lab6Main.Number valB; Lab6Main.Text "   "; Lab6Main.Endl ]
  /\ Lab6Main.printMat [valA; valB; valA] 2 2 = None.
Proof.
  split.
  - apply (proj1 (printMat_items [valA; valB; valA] 1 2)); cbn; lia.
  - apply (proj2 (printMat_items [valA; valB; valA] 2 2)); cbn; lia.
Defined.

(** ** Lab 6: the statements of [main] before the loop *)

(** X22: before its loop [main] of Lab 6 makes three calls of the runtime
    and ends the process at one place only: when the compute mode of the
    device is found to be prohibited, with the status [EXIT_SUCCESS] and
    before any prompt.  Otherwise, whatever the three calls return
    (failures are at most reported by a message), the loop is entered: the
    program goes on as the loop ([main_driver]) in a world that differs by
    the three calls, a heading and one or two messages. *)
Theorem main_preamble (E : env float32) (computeMode : Z)
    (inputs : list (Z * Z)) (w : world float32) :
  (computeMode = Lab6Main.cudaComputeModeProhibited ->
   exists msgs,
     Lab6Main.main E computeMode inputs w
     = (Exit EXIT_SUCCESS,
        World (3 + calls w) (mallocs w) (clock_reads w) (last_error w) (dmem w)
              (trace w ++ Output "[Matrix Multiply Using CUDA] - Starting..."
               :: CudaSetDevice 0 :: (Output <$> msgs)))) /\
  (computeMode <> Lab6Main.cudaComputeModeProhibited ->
   exists msgs,
     (1 <= length msgs <= 2)%nat /\
     Lab6Main.main E computeMode inputs w
     = Lab6.main_driver E inputs
         (World (3 + calls w) (mallocs w) (clock_reads w) (last_error w)
                (dmem w)
                (trace w ++ Output "[Matrix Multiply Using CUDA] - Starting..."
                 :: CudaSetDevice 0 :: (Output <$> msgs)))).
Proof.
  split; intros Hmode.
  - unfold Lab6Main.main.
    rewrite exec_printf, exec_cuda_call. exec_simpl.
    rewrite exec_bind. unfold cuda_call_unlogged at 1. cbv beta iota.
    cbn [calls mallocs clock_reads last_error dmem trace].
    rewrite (bool_decide_eq_true_2 _ Hmode).
    destruct (decide (cuda_result E (S (calls w)) = cudaSuccess)) as [H1|H1].
    + rewrite (bool_decide_eq_false_2 (_ ≠ cudaSuccess)) by tauto.
      rewrite exec_bind, exec_mret, exec_bind.
      unfold cuda_call_unlogged. cbv beta iota.
      cbn [calls mallocs clock_reads last_error dmem trace].
      rewrite exec_printf, exec_exit_last. exec_simpl.
      eexists [_]. rewrite <- !app_assoc. reflexivity.
    + rewrite (bool_decide_eq_true_2 (_ ≠ cudaSuccess)) by done.
      rewrite exec_printf. exec_simpl. rewrite exec_bind.
      unfold cuda_call_unlogged. cbv beta iota.
      cbn [calls mallocs clock_reads last_error dmem trace].
      rewrite exec_printf, exec_exit_last. exec_simpl.
      eexists [_; _]. rewrite <- !app_assoc. reflexivity.
  - unfold Lab6Main.main, Lab6.main_driver.
    rewrite exec_printf, exec_cuda_call. exec_simpl.
    rewrite exec_bind. unfold cuda_call_unlogged at 1. cbv beta iota.
    cbn [calls mallocs clock_reads last_error dmem trace].
    rewrite (bool_decide_eq_false_2 _ Hmode).
    destruct (decide (cuda_result E (S (calls w)) = cudaSuccess)) as [H1|H1];
      destruct (decide (cuda_result E (S (S (calls w))) = cudaSuccess))
        as [H2|H2].
    all: rewrite ?(bool_decide_eq_false_2 (cuda_result E (S (calls w))
                                           ≠ cudaSuccess)) by tauto.
    all: rewrite ?(bool_decide_eq_true_2 (cuda_result E (S (calls w))
                                          ≠ cudaSuccess)) by done.
    all: rewrite ?exec_printf; exec_simpl.
    all: rewrite ?exec_bind, ?exec_mret, ?exec_bind.
    all: unfold cuda_call_unlogged; cbv beta iota.
    all: cbn [calls mallocs clock_reads last_error dmem trace].
    all: rewrite ?(bool_decide_eq_false_2 (cuda_result E (S (S (calls w)))
                                           ≠ cudaSuccess)) by tauto.
    all: rewrite ?(bool_decide_eq_true_2 (cuda_result E (S (S (calls w)))
                                          ≠ cudaSuccess)) by done.
    all: rewrite exec_printf; exec_simpl.
    1, 2: eexists [_].
    3, 4: eexists [_; _].
    all: split; [cbn; lia|].
    all: rewrite <- !app_assoc; reflexivity.
Qed.

Lemma main_preamble_witness :
  (exists msgs,
     Lab6Main.main quiet_env 2 [(2, 2)] initial_world
     = (Exit EXIT_SUCCESS,
        World (3 + 0) 0 0 cudaSuccess ∅
              ([] ++ Output "[Matrix Multiply Using CUDA] - Starting..."
               :: CudaSetDevice 0 :: (Output <$> msgs)))) /\
  (exists msgs,
     (1 <= length msgs <= 2)%nat /\
     Lab6Main.main quiet_env 0 [(2, 2)] initial_world
     = Lab6.main_driver quiet_env [(2, 2)]
         (World (3 + 0) 0 0 cudaSuccess ∅
                ([] ++ Output "[Matrix Multiply Using CUDA] - Starting..."
                 :: CudaSetDevice 0 :: (Output <$> msgs)))).
Proof.
  split.
  - apply (proj1 (main_preamble quiet_env 2 [(2, 2)] initial_world)).
    reflexivity.
  - apply (proj2 (main_preamble quiet_env 0 [(2, 2)] initial_world)).
    discriminate.
Defined.

(** ** Lab 6: why [matrixMultiply] ends the process *)

(** The first call of the runtime that was refused: its number is looked
    for among the first thirteen. *)
Ltac first_refusal k :=
  first
    [ exists k; split; [lia|]; split; [cbn [Nat.add]; assumption|];
      let j := fresh "j" in let Hj := fresh "Hj" in
      intros j Hj;
      do 13 (destruct j as [|j];
             [first [cbn [Nat.add]; assumption | exfalso; lia]|]);
      exfalso; lia
    | lazymatch k with
      | 13%nat => fail
      | _ => first_refusal constr:(S k)
      end ].

(** X23: [matrixMultiply] ends the process in one way only: with the status
    [EXIT_FAILURE], straight after printing a message, and for one of two
    reasons: the allocation of [h_C] failed, or one of its thirteen calls
    of the runtime before the clean-up was refused, all the calls before it
    having succeeded (the launch is the ninth, as reported by
    [cudaGetLastError]).  What the three [cudaFree] return is ignored. *)
Theorem matrixMultiply_exit_causes E bs gs n (w : world float32) (s : Z) :
  fst (Lab6.matrixMultiply E bs gs n w) = Exit s ->
  s = EXIT_FAILURE /\
  (exists tr msg,
     trace (snd (Lab6.matrixMultiply E bs gs n w)) = tr ++ [Output msg]) /\
  (malloc_null E (2 + mallocs w) = true \/
   exists k, (k < 13)%nat /\ cuda_result E (k + calls w) <> cudaSuccess /\
     forall j, (j < k)%nat -> cuda_result E (j + calls w) = cudaSuccess).
Proof.
  destruct (Lab6.matrixMultiply E bs gs n w) as [o w'] eqn:Hrun.
  revert Hrun. unfold Lab6.matrixMultiply. cbv beta zeta. exec.
  all: exec_end; cbn [fst snd trace].
  all: intros Heq; try discriminate Heq; injection Heq as <-.
  all: split; [reflexivity|].
  all: split; [eexists _, _; reflexivity|].
  all: first [ left; cbn [Nat.add]; assumption | right; first_refusal 0%nat ].
Qed.

Lemma matrixMultiply_exit_causes_witness :
  EXIT_FAILURE = EXIT_FAILURE /\
  (exists tr msg,
     trace (snd (Lab6.matrixMultiply exhausted_env 2 2 4 initial_world))
     = tr ++ [Output msg]) /\
  (malloc_null exhausted_env (2 + mallocs (initial_world : world float32))
   = true \/
   exists k, (k < 13)%nat /\
     cuda_result exhausted_env (k + calls (initial_world : world float32))
     <> cudaSuccess /\
     forall j, (j < k)%nat ->
       cuda_result exhausted_env (j + calls (initial_world : world float32))
       = cudaSuccess).
Proof.
  apply (matrixMultiply_exit_causes exhausted_env 2 2 4 initial_world
           EXIT_FAILURE).
  vm_compute. reflexivity.
Defined.

